(** * Strategy signal engine: indicators, strategies and the cycle orchestrator

    A shallow embedding of [src/indicators/supertrend.py],
    [src/strategies/base.py], [src/strategies/supertrend_strategy.py],
    [src/strategies/macd_rsi_strategy.py] and [src/core/engine.py].

    Numbers.  A Python/numpy float is modelled as an exact rational or the
    not-a-number value: arithmetic is exact (no rounding, no overflow to an
    infinity), comparisons with [NaN] are false and arithmetic on [NaN] gives
    [NaN], as in IEEE 754.  Every division of the modelled code is guarded by
    a test on its divisor or divides by a non-zero constant.

    Frames.  A pandas DataFrame is a row count and a finite map from column
    names to columns; rows are addressed by position (the index labels of a
    bar sequence are distinct time stamps, so [df.loc[df.index[i], c]] is the
    cell at position [i]).  Frames live in a store, and the functions that
    assign into a frame are written in a state-and-exception monad over that
    store, so that aliasing between the caller's frame and the callee's
    working copy is visible. *)

From Stdlib Require Import QArith Qabs Qminmax Qround Lqa ZArith Lia Ascii SpecFloat.
From stdpp Require Import base option list strings pretty gmap.

Local Open Scope Q_scope.

(** ** Python values *)

Inductive float : Type :=
  | Num (q : Q)
  | NaN.

Declare Scope float_scope.
Delimit Scope float_scope with F.
Bind Scope float_scope with float.

Definition Qlt_bool (x y : Q) : bool := negb (Qle_bool y x).

Definition fadd (a b : float) : float :=
  match a, b with Num x, Num y => Num (x + y) | _, _ => NaN end.
Definition fsub (a b : float) : float :=
  match a, b with Num x, Num y => Num (x - y) | _, _ => NaN end.
Definition fmul (a b : float) : float :=
  match a, b with Num x, Num y => Num (x * y) | _, _ => NaN end.
(** A zero divisor is answered by [NaN]; the modelled code never divides by
    zero (see the header). *)
Definition fdiv (a b : float) : float :=
  match a, b with
  | Num x, Num y => if Qeq_bool y 0 then NaN else Num (x / y)
  | _, _ => NaN
  end.
Definition fabs (a : float) : float :=
  match a with Num x => Num (Qabs x) | NaN => NaN end.

Definition fle (a b : float) : bool :=
  match a, b with Num x, Num y => Qle_bool x y | _, _ => false end.
Definition flt (a b : float) : bool :=
  match a, b with Num x, Num y => Qlt_bool x y | _, _ => false end.
Definition fge (a b : float) : bool := fle b a.
Definition fgt (a b : float) : bool := flt b a.
Definition feqb (a b : float) : bool :=
  match a, b with Num x, Num y => Qeq_bool x y | _, _ => false end.

Notation "a + b" := (fadd a b) : float_scope.
Notation "a - b" := (fsub a b) : float_scope.
Notation "a * b" := (fmul a b) : float_scope.
Notation "a / b" := (fdiv a b) : float_scope.
Notation "a <=? b" := (fle a b) : float_scope.
Notation "a <? b" := (flt a b) : float_scope.
Notation "a >=? b" := (fge a b) : float_scope.
Notation "a >? b" := (fgt a b) : float_scope.
Notation "a =? b" := (feqb a b) : float_scope.

(** Python's builtin [min(a, b)] and [max(a, b)]: the first argument unless
    the second is strictly smaller (larger). *)
Definition py_min (a b : float) : float := if (b <? a)%F then b else a.
Definition py_max (a b : float) : float := if (b >? a)%F then b else a.

(** Truth value of a float: zero is false, everything else (also [NaN]) is
    true. *)
Definition truthy (a : float) : bool :=
  match a with Num x => negb (Qeq_bool x 0) | NaN => true end.

Inductive exn : Type :=
  | KeyError (key : string)
  | IndexError
  | ValueError (msg : string)
  | AttributeError (msg : string)
  | StoreError.

Inductive result (A : Type) : Type :=
  | Ok (a : A)
  | Raise (e : exn).
Arguments Ok {A} a.
Arguments Raise {A} e.

#[global] Instance result_ret : MRet result := λ A a, Ok a.
#[global] Instance result_bind : MBind result := λ A B f m,
  match m with Ok a => f a | Raise e => Raise e end.

(** [int(x)]: truncation towards zero; [int(nan)] raises [ValueError]. *)
Definition py_int (a : float) : result Z :=
  match a with
  | Num x => Ok (Z.quot (Qnum x) (Z.pos (Qden x)))
  | NaN => Raise (ValueError "cannot convert float NaN to integer")
  end.

(** ** pandas: series *)

Abbreviation Series := (list float).

(** [s.shift()] *)
Definition shift (s : Series) : Series :=
  match s with [] => [] | _ :: _ => NaN :: take (length s - 1) s end.

Definition series_add (a b : Series) : Series := zip_with fadd a b.
Definition series_sub (a b : Series) : Series := zip_with fsub a b.
Definition series_scale (k : float) (a : Series) : Series := fmul k <$> a.
Definition series_div_scalar (a : Series) (k : float) : Series := (λ x, fdiv x k) <$> a.
Definition np_abs (a : Series) : Series := fabs <$> a.

(** [pd.concat([a, b, c], axis=1)]: the rows of the three-column frame. *)
Definition concat3 (a b c : Series) : list (list float) :=
  zip_with (λ x yz, x :: yz) a (zip_with (λ y z, [y; z]) b c).

(** [np.max(frame, axis=1)] is [DataFrame.max(axis=1)], which skips [NaN]
    entries and is [NaN] only for a row without any number. *)
Definition nan_max2 (a b : float) : float :=
  match a, b with
  | NaN, _ => b
  | _, NaN => a
  | Num x, Num y => Num (Qmax x y)
  end.
Definition row_max (r : list float) : float := foldr nan_max2 NaN r.
Definition np_max_axis1 (rows : list (list float)) : Series := row_max <$> rows.

(** [s.rolling(window).mean()]: [min_periods] defaults to the window; an
    output is a number only when the window holds at least [min_periods]
    numbers (and at least one). *)
Definition is_num (a : float) : bool :=
  match a with Num _ => true | NaN => false end.
Definition fsum (l : list float) : float := foldr fadd (Num 0) l.
Definition window {A} (w : nat) (s : list A) (i : nat) : list A :=
  drop (S i - w) (take (S i) s).
Definition window_mean (w : nat) (win : list float) : float :=
  let obs := filter (λ x, is_num x = true) win in
  let nobs := length obs in
  if (w <=? nobs)%nat && (0 <? nobs)%nat
  then (fsum obs / Num (inject_Z (Z.of_nat nobs)))%F
  else NaN.
Definition rolling_mean (w : nat) (s : Series) : Series :=
  (λ i, window_mean w (window w s i)) <$> seq 0 (length s).

(** ** pandas: frames in a store *)

Record DataFrame : Type := mkDF {
  df_len : nat;
  df_cols : gmap string (list float)
}.

(** Every column has one entry per row. *)
Definition df_wf (d : DataFrame) : Prop :=
  ∀ c s, df_cols d !! c = Some s → length s = df_len d.

(** The frame with column [c] replaced by [s], and with cell [(i, c)]
    replaced by [x] (a column that does not exist yet is created with [NaN]
    in the other rows). *)
Definition set_col (c : string) (s : Series) (d : DataFrame) : DataFrame :=
  mkDF (df_len d) (<[c := s]> (df_cols d)).
Definition set_cell (c : string) (i : nat) (x : float) (d : DataFrame) : DataFrame :=
  set_col c (<[i := x]> (default (replicate (df_len d) NaN) (df_cols d !! c))) d.

Definition loc := positive.

(** State and exceptions over a state [S]: the state survives a raised
    exception, and [try_except] is [try: ... except Exception: ...]. *)
Definition St (S A : Type) : Type := S → result A * S.

#[global] Instance St_ret {S} : MRet (St S) := λ A a s, (Ok a, s).
#[global] Instance St_bind {S} : MBind (St S) := λ A B f m s,
  match m s with
  | (Ok a, s') => f a s'
  | (Raise e, s') => (Raise e, s')
  end.
Definition raise {S A} (e : exn) : St S A := λ s, (Raise e, s).
Definition try_except {S A} (m : St S A) (handler : exn → St S A) : St S A := λ s,
  match m s with
  | (Ok a, s') => (Ok a, s')
  | (Raise e, s') => handler e s'
  end.
(** A computation that cannot touch the state. *)
Definition lift {S A} (r : result A) : St S A := λ s, (r, s).

(** The store of frame objects. *)
Abbreviation M := (St (gmap loc DataFrame)).

Definition read_frame (l : loc) : M DataFrame := λ h,
  match h !! l with
  | Some d => (Ok d, h)
  | None => (Raise StoreError, h)
  end.
Definition write_frame (l : loc) (d : DataFrame) : M unit := λ h,
  (Ok tt, <[l := d]> h).

(** [df.copy()]: a new frame object with the same content. *)
Definition alloc (d : DataFrame) : M loc := λ h,
  let l' := fresh (dom h) in (Ok l', <[l' := d]> h).
Definition copy (l : loc) : M loc := d ← read_frame l; alloc d.

(** [len(df)] *)
Definition len (l : loc) : M nat := d ← read_frame l; mret (df_len d).

(** [c in df.columns] *)
Definition has_column (l : loc) (c : string) : M bool :=
  d ← read_frame l; mret (bool_decide (is_Some (df_cols d !! c))).

(** [df[c]] *)
Definition getitem (l : loc) (c : string) : M (list float) :=
  d ← read_frame l;
  match df_cols d !! c with
  | Some s => mret s
  | None => raise (KeyError c)
  end.

(** [df[c] = s] for a series [s] built from columns of [df] *)
Definition setitem (l : loc) (c : string) (s : Series) : M unit :=
  d ← read_frame l;
  write_frame l (set_col c s d).

(** [df[c] = x] for a scalar [x] *)
Definition setitem_scalar (l : loc) (c : string) (x : float) : M unit :=
  d ← read_frame l;
  write_frame l (set_col c (replicate (df_len d) x) d).

(** [df.loc[df.index[i], c]], also [df[c].iloc[i]] *)
Definition loc_get (l : loc) (i : nat) (c : string) : M float :=
  d ← read_frame l;
  if bool_decide (i < df_len d)%nat then
    match df_cols d !! c with
    | Some s =>
        match s !! i with
        | Some x => mret x
        | None => raise IndexError
        end
    | None => raise (KeyError c)
    end
  else raise IndexError.

(** [df.loc[df.index[i], c] = x] *)
Definition loc_set (l : loc) (i : nat) (c : string) (x : float) : M unit :=
  d ← read_frame l;
  if bool_decide (i < df_len d)%nat then write_frame l (set_cell c i x d)
  else raise IndexError.

(** [for x in xs: body(x)] and [for i in range(lo, hi): body(i)] *)
Fixpoint for_each {S T} (xs : list T) (body : T → St S unit) : St S unit :=
  match xs with
  | [] => mret tt
  | x :: rest => _ ← body x; for_each rest body
  end.
Definition for_range {S} (lo hi : nat) (body : nat → St S unit) : St S unit :=
  for_each (seq lo (hi - lo)) body.

Definition when {S} (b : bool) (m : St S unit) : St S unit := if b then m else mret tt.

(** ** src/indicators/supertrend.py *)

Definition calculate_atr (df : loc) (period : nat) : M loc :=
  df ← copy df;
  high ← getitem df "high";
  low ← getitem df "low";
  let high_low := series_sub high low in
  high ← getitem df "high";
  close ← getitem df "close";
  let high_close := np_abs (series_sub high (shift close)) in
  low ← getitem df "low";
  close ← getitem df "close";
  let low_close := np_abs (series_sub low (shift close)) in
  let ranges := concat3 high_low high_close low_close in
  let true_range := np_max_axis1 ranges in
  _ ← setitem df "atr" (rolling_mean period true_range);
  mret df.

Definition calculate_supertrend (df : loc) (period : nat) (multiplier : float)
    (atr_column : string) : M loc :=
  df ← copy df;
  (* Calculate ATR if not present *)
  present ← has_column df atr_column;
  '(df, atr_column) ←
     (if negb present
      then df ← calculate_atr df period; mret (df, "atr")
      else mret (df, atr_column));
  (* Calculate basic bands *)
  high ← getitem df "high";
  low ← getitem df "low";
  let hl2 := series_div_scalar (series_add high low) (Num 2) in
  atr ← getitem df atr_column;
  _ ← setitem df "supertrend_upperband" (series_add hl2 (series_scale multiplier atr));
  atr ← getitem df atr_column;
  _ ← setitem df "supertrend_lowerband" (series_sub hl2 (series_scale multiplier atr));
  (* Initialize SuperTrend columns *)
  _ ← setitem_scalar df "supertrend" (Num 0);
  _ ← setitem_scalar df "supertrend_direction" (Num 1);
  (* Calculate SuperTrend *)
  n ← len df;
  _ ← for_range 1 n (λ i,
    let curr_idx := i in
    let prev_idx := (i - 1)%nat in
    (* Adjust upper band *)
    prev_close ← loc_get df prev_idx "close";
    prev_upper ← loc_get df prev_idx "supertrend_upperband";
    _ ← when (prev_close <=? prev_upper)%F (
      curr_upper ← loc_get df curr_idx "supertrend_upperband";
      prev_upper ← loc_get df prev_idx "supertrend_upperband";
      loc_set df curr_idx "supertrend_upperband" (py_min curr_upper prev_upper));
    (* Adjust lower band *)
    prev_close ← loc_get df prev_idx "close";
    prev_lower ← loc_get df prev_idx "supertrend_lowerband";
    _ ← when (prev_close >=? prev_lower)%F (
      curr_lower ← loc_get df curr_idx "supertrend_lowerband";
      prev_lower ← loc_get df prev_idx "supertrend_lowerband";
      loc_set df curr_idx "supertrend_lowerband" (py_max curr_lower prev_lower));
    (* Determine direction *)
    curr_close ← loc_get df curr_idx "close";
    prev_upper ← loc_get df prev_idx "supertrend_upperband";
    _ ← (if (curr_close >? prev_upper)%F then
           loc_set df curr_idx "supertrend_direction" (Num 1)
         else
           curr_close ← loc_get df curr_idx "close";
           prev_lower ← loc_get df prev_idx "supertrend_lowerband";
           if (curr_close <? prev_lower)%F then
             loc_set df curr_idx "supertrend_direction" (Num (-1))
           else
             prev_dir ← loc_get df prev_idx "supertrend_direction";
             loc_set df curr_idx "supertrend_direction" prev_dir);
    (* Set SuperTrend value based on direction *)
    dir ← loc_get df curr_idx "supertrend_direction";
    if (dir =? Num 1)%F then
      lower ← loc_get df curr_idx "supertrend_lowerband";
      loc_set df curr_idx "supertrend" lower
    else
      upper ← loc_get df curr_idx "supertrend_upperband";
      loc_set df curr_idx "supertrend" upper);
  mret df.

(** ** pandas: frames and rows as values

    The strategies and the engine only read the frames they are given, so
    they are written over frame values.  A function of the source that
    assigns into a private copy of its argument is called through
    [call_on_copy], which runs it on a store holding just the argument. *)

Abbreviation Row := (gmap string float).

Definition call_on_copy (f : loc → M loc) (d : DataFrame) : result DataFrame :=
  let l := 1%positive in
  match f l {[ l := d ]} with
  | (Ok l', h) =>
      match h !! l' with
      | Some d' => Ok d'
      | None => Raise StoreError
      end
  | (Raise e, _) => Raise e
  end.

(** [df.empty] *)
Definition df_empty (d : DataFrame) : bool :=
  bool_decide (df_len d = 0%nat) || bool_decide (df_cols d = ∅).

(** [c in df.columns] and [df[c]] *)
Definition df_has (d : DataFrame) (c : string) : bool :=
  bool_decide (is_Some (df_cols d !! c)).
Definition df_col (d : DataFrame) (c : string) : result Series :=
  match df_cols d !! c with
  | Some s => Ok s
  | None => Raise (KeyError c)
  end.

(** [df.iloc[i]] and [df.iloc[-k]] *)
Definition iloc (d : DataFrame) (i : nat) : result Row :=
  if bool_decide (i < df_len d)%nat
  then Ok (omap (λ s : list float, s !! i) (df_cols d))
  else Raise IndexError.
Definition iloc_neg (d : DataFrame) (k : nat) : result Row :=
  if bool_decide (k ≤ df_len d)%nat
  then iloc d (df_len d - k)
  else Raise IndexError.

(** [row[c]], [row.get(c, default)] and [c in row] *)
Definition row_getitem (r : Row) (c : string) : result float :=
  match r !! c with
  | Some x => Ok x
  | None => Raise (KeyError c)
  end.
Definition row_get (r : Row) (c : string) (dflt : float) : float :=
  default dflt (r !! c).
Definition row_has (r : Row) (c : string) : bool :=
  bool_decide (is_Some (r !! c)).

(** [s.iloc[-1]], [s.tail(k)] and [s.is_monotonic_increasing] (which is
    "non-decreasing", and false as soon as a [NaN] occurs). *)
Definition series_last (s : Series) : result float :=
  match last s with
  | Some x => Ok x
  | None => Raise IndexError
  end.
Definition tail (k : nat) (s : Series) : Series := drop (length s - k) s.
Fixpoint is_monotonic_increasing (s : Series) : bool :=
  match s with
  | [] => true
  | a :: t =>
      match t with
      | [] => is_num a
      | b :: _ => (a <=? b)%F && is_monotonic_increasing t
      end
  end.

(** [s.ewm(span=span, adjust=False).mean()]: the recursive exponentially
    weighted mean of pandas (with [ignore_na=False] and the default
    [min_periods]): a [NaN] observation repeats the last mean and ages its
    weight. *)
Fixpoint ewm_go (alpha : Q) (weighted old_wt : float) (s : Series) : Series :=
  match s with
  | [] => []
  | cur :: rest =>
      let '(weighted', old_wt') :=
        if is_num weighted then
          let aged := (old_wt * Num (1 - alpha))%F in
          if is_num cur
          then (((aged * weighted + Num alpha * cur) / (aged + Num alpha))%F, Num 1)
          else (weighted, aged)
        else (cur, old_wt) in
      weighted' :: ewm_go alpha weighted' old_wt' rest
  end.
Definition ewm_mean (span : nat) (s : Series) : Series :=
  match s with
  | [] => []
  | x :: rest => x :: ewm_go (2 / (inject_Z (Z.of_nat span) + 1)) x (Num 1) rest
  end.

(** ** src/strategies/base.py *)

Inductive SignalType : Type := BUY | SELL | HOLD | EXIT.

#[global] Instance SignalType_eq_dec : EqDecision SignalType.
Proof. solve_decision. Defined.

(** The [Signal] dataclass; its time stamp (the bar's label or the wall
    clock) is not modelled. *)
Record Signal : Type := mkSignal {
  symbol : string;
  signal_type : SignalType;
  price : float;
  confidence : float;
  indicators : gmap string float;
  reason : string;
  stop_loss : option float;
  take_profit : option float;
  position_size : option Z
}.

(** The configuration dictionary of a strategy: [None] is an absent key, and
    [config.get(key, dflt)] is [default dflt (key config)]. *)
Record Config : Type := mkConfig {
  cfg_enabled : option bool;
  cfg_period : option nat;
  cfg_multiplier : option float;
  cfg_volume_confirmation : option bool;
  cfg_volume_threshold : option float;
  cfg_daily_trend_filter : option bool;
  cfg_profit_target_pct : option float;
  cfg_stop_loss_atr_mult : option float;
  cfg_trailing_stop_enabled : option bool;
  cfg_trailing_stop_activation : option float;
  cfg_risk_per_trade : option float;
  cfg_max_position_size : option float;
  cfg_rsi_min : option float;
  cfg_rsi_max : option float;
  cfg_macd_threshold : option float;
  cfg_bb_filter : option bool
}.

Definition empty_config : Config :=
  mkConfig None None None None None None None None None None None None None None None None.

(** A position dictionary as the engine records it.  [None] in an optional
    price stands for an absent key as well as for a stored [None]; both are
    false in a condition. *)
Record Position : Type := mkPosition {
  pos_symbol : string;
  pos_qty : Z;
  pos_entry_price : option float;
  pos_strategy : option string;
  pos_stop_loss_price : option float;
  pos_take_profit_price : option float;
  pos_order_id : string
}.

(** [f"{x:.2f}"] on the exact value: two decimals, ties to even. *)
Definition round_half_even (q : Q) : Z :=
  let fl := Qfloor q in
  let twice := Qfloor (2 * (q - inject_Z fl)) in
  if (twice =? 0)%Z then fl
  else if Qeq_bool (q - inject_Z fl) (1 # 2)
       then (if Z.even fl then fl else fl + 1)%Z
       else (fl + 1)%Z.
Definition format_2f (a : float) : string :=
  match a with
  | NaN => "nan"
  | Num q =>
      let n := Z.abs (round_half_even (q * 100)) in
      let frac := (n mod 100)%Z in
      (if Qlt_bool q 0 then "-" else "") +:+ pretty (n / 100)%Z +:+ "."
        +:+ (if (frac <? 10)%Z then "0" else "") +:+ pretty frac
  end.

(** [x and ...] for an optional price [x]: [None] and zero are false. *)
Definition opt_truthy (x : option float) : bool :=
  match x with Some v => truthy v | None => false end.

Module BaseStrategy.

Definition get_stop_loss (config : Config) (entry_price atr : float) : float :=
  let atr_mult := default (Num 2.5) (cfg_stop_loss_atr_mult config) in
  (entry_price - atr * atr_mult)%F.

Definition get_take_profit (config : Config) (entry_price : float) : float :=
  let profit_target_pct := default (Num 0.10) (cfg_profit_target_pct config) in
  (entry_price * (Num 1 + profit_target_pct))%F.

Definition check_daily_trend (daily_data : DataFrame) : result bool :=
  if df_empty daily_data || bool_decide (df_len daily_data < 200)%nat then Ok false
  else
    latest ← iloc_neg daily_data 1;
    if row_has latest "ema200" then
      close ← row_getitem latest "close";
      ema ← row_getitem latest "ema200";
      Ok (close >? ema)%F
    else
      closes ← df_col daily_data "close";
      ema200 ← series_last (ewm_mean 200 closes);
      close ← row_getitem latest "close";
      Ok (close >? ema200)%F.

Definition check_volume_confirmation (data : DataFrame) (threshold : float) : result bool :=
  if negb (df_has data "volume") || bool_decide (df_len data < 20)%nat then Ok true
  else
    volume ← df_col data "volume";
    avg_volume ← series_last (rolling_mean 20 volume);
    volume ← df_col data "volume";
    current_volume ← series_last volume;
    Ok (current_volume >=? avg_volume * threshold)%F.

End BaseStrategy.

(** ** src/strategies/supertrend_strategy.py *)

Module SuperTrendStrategy.

Record t : Type := mk {
  name : string;
  config : Config;
  enabled : bool;
  period : nat;
  multiplier : float;
  volume_confirmation : bool;
  volume_threshold : float;
  daily_trend_filter : bool;
  profit_target_pct : float;
  stop_loss_atr_mult : float;
  trailing_stop_enabled : bool;
  trailing_stop_activation : float
}.

Definition __init__ (config : Config) : t :=
  {| name := "SuperTrend";
     config := config;
     enabled := default true (cfg_enabled config);
     period := default 10%nat (cfg_period config);
     multiplier := default (Num 3.0) (cfg_multiplier config);
     volume_confirmation := default true (cfg_volume_confirmation config);
     volume_threshold := default (Num 1.2) (cfg_volume_threshold config);
     daily_trend_filter := default true (cfg_daily_trend_filter config);
     profit_target_pct := default (Num 0.10) (cfg_profit_target_pct config);
     stop_loss_atr_mult := default (Num 2.5) (cfg_stop_loss_atr_mult config);
     trailing_stop_enabled := default true (cfg_trailing_stop_enabled config);
     trailing_stop_activation := default (Num 0.05) (cfg_trailing_stop_activation config) |}.

Definition _calculate_supertrend (self : t) (df : loc) : M loc :=
  df ← copy df;
  (* Calculate ATR if not present *)
  present ← has_column df "atr";
  _ ← when (negb present) (
    high ← getitem df "high";
    low ← getitem df "low";
    let high_low := series_sub high low in
    high ← getitem df "high";
    close ← getitem df "close";
    let high_close := np_abs (series_sub high (shift close)) in
    low ← getitem df "low";
    close ← getitem df "close";
    let low_close := np_abs (series_sub low (shift close)) in
    let ranges := concat3 high_low high_close low_close in
    let true_range := np_max_axis1 ranges in
    setitem df "atr" (rolling_mean (period self) true_range));
  (* Calculate SuperTrend *)
  high ← getitem df "high";
  low ← getitem df "low";
  let hl2 := series_div_scalar (series_add high low) (Num 2) in
  atr ← getitem df "atr";
  _ ← setitem df "upperband" (series_add hl2 (series_scale (multiplier self) atr));
  atr ← getitem df "atr";
  _ ← setitem df "lowerband" (series_sub hl2 (series_scale (multiplier self) atr));
  (* Initialize SuperTrend *)
  _ ← setitem_scalar df "supertrend" (Num 0);
  _ ← setitem_scalar df "supertrend_direction" (Num 1);
  n ← len df;
  _ ← for_range 1 n (λ i,
    (* Update bands *)
    prev_close ← loc_get df (i - 1) "close";
    prev_upper ← loc_get df (i - 1) "upperband";
    _ ← when (prev_close <=? prev_upper)%F (
      curr_upper ← loc_get df i "upperband";
      prev_upper ← loc_get df (i - 1) "upperband";
      loc_set df i "upperband" (py_min curr_upper prev_upper));
    prev_close ← loc_get df (i - 1) "close";
    prev_lower ← loc_get df (i - 1) "lowerband";
    _ ← when (prev_close >=? prev_lower)%F (
      curr_lower ← loc_get df i "lowerband";
      prev_lower ← loc_get df (i - 1) "lowerband";
      loc_set df i "lowerband" (py_max curr_lower prev_lower));
    (* Determine direction *)
    curr_close ← loc_get df i "close";
    prev_upper ← loc_get df (i - 1) "upperband";
    _ ← (if (curr_close >? prev_upper)%F then
           loc_set df i "supertrend_direction" (Num 1)
         else
           curr_close ← loc_get df i "close";
           prev_lower ← loc_get df (i - 1) "lowerband";
           if (curr_close <? prev_lower)%F then
             loc_set df i "supertrend_direction" (Num (-1))
           else
             prev_dir ← loc_get df (i - 1) "supertrend_direction";
             loc_set df i "supertrend_direction" prev_dir);
    (* Set SuperTrend value *)
    dir ← loc_get df i "supertrend_direction";
    if (dir =? Num 1)%F then
      lower ← loc_get df i "lowerband";
      loc_set df i "supertrend" lower
    else
      upper ← loc_get df i "upperband";
      loc_set df i "supertrend" upper);
  mret df.

Definition _calculate_confidence (self : t) (latest : Row) (data : DataFrame)
    : result float :=
  let confidence := Num 0.5 in
  (* SuperTrend strength (distance from price) *)
  confidence ←
    (if row_has latest "supertrend" then
       st ← row_getitem latest "supertrend";
       if (st >? Num 0)%F then
         close ← row_getitem latest "close";
         st1 ← row_getitem latest "supertrend";
         st2 ← row_getitem latest "supertrend";
         let distance_pct := ((close - st1) / st2)%F in
         if (distance_pct >? Num 0.01)%F then Ok (confidence + Num 0.1)%F
         else Ok confidence
       else Ok confidence
     else Ok confidence);
  (* Volume confirmation *)
  vol ← BaseStrategy.check_volume_confirmation data (volume_threshold self);
  let confidence := if (vol : bool) then (confidence + Num 0.15)%F else confidence in
  (* RSI level (prefer 40-60 range for entries) *)
  confidence ←
    (if row_has latest "rsi_14" then
       rsi ← row_getitem latest "rsi_14";
       if (Num 40 <=? rsi)%F && (rsi <=? Num 60)%F then Ok (confidence + Num 0.15)%F
       else if (Num 30 <=? rsi)%F && (rsi <=? Num 70)%F then Ok (confidence + Num 0.10)%F
       else Ok confidence
     else Ok confidence);
  (* Recent trend strength *)
  confidence ←
    (if bool_decide (5 ≤ df_len data)%nat then
       closes ← df_col data "close";
       let recent_closes := tail 5 closes in
       if is_monotonic_increasing recent_closes then Ok (confidence + Num 0.10)%F
       else Ok confidence
     else Ok confidence);
  Ok (py_min confidence (Num 1.0)).

Definition _validate_entry (self : t) (latest : Row) (primary_data : DataFrame)
    (daily_data : option DataFrame) : result bool :=
  (* Check price above SuperTrend line *)
  below ←
    (if row_has latest "supertrend" then
       close ← row_getitem latest "close";
       st ← row_getitem latest "supertrend";
       Ok (close <=? st)%F
     else Ok false);
  if (below : bool) then Ok false else
  (* Check volume confirmation *)
  vol_fail ←
    (if volume_confirmation self then
       ok ← BaseStrategy.check_volume_confirmation primary_data (volume_threshold self);
       Ok (negb ok)
     else Ok false);
  if (vol_fail : bool) then Ok false else
  (* Check daily trend filter *)
  match daily_data with
  | Some daily =>
      if daily_trend_filter self && negb (df_empty daily) then
        ok ← BaseStrategy.check_daily_trend daily;
        Ok ok
      else Ok true
  | None => Ok true
  end.

Definition _create_buy_signal (self : t) (latest : Row) (data : DataFrame)
    : result Signal :=
  (* Calculate confidence based on multiple factors *)
  confidence ← _calculate_confidence self latest data;
  (* Get ATR for stop loss calculation *)
  close ← row_getitem latest "close";
  let atr := row_get latest "atr" (close * Num 0.02)%F in
  (* Calculate stop loss and take profit *)
  close ← row_getitem latest "close";
  let stop_loss := BaseStrategy.get_stop_loss (config self) close atr in
  close ← row_getitem latest "close";
  let take_profit := BaseStrategy.get_take_profit (config self) close in
  let indicators : gmap string float :=
    <["supertrend" := row_get latest "supertrend" (Num 0)]> (
    <["supertrend_direction" := row_get latest "supertrend_direction" (Num 0)]> (
    <["atr" := atr]> (
    <["rsi" := row_get latest "rsi_14" (Num 50)]> (
    <["volume" := row_get latest "volume" (Num 0)]> ∅)))) in
  close ← row_getitem latest "close";
  Ok {| symbol := "UNKNOWN";
        signal_type := BUY;
        price := close;
        confidence := confidence;
        indicators := indicators;
        reason := "SuperTrend turned bullish";
        stop_loss := Some stop_loss;
        take_profit := Some take_profit;
        position_size := None |}.

Definition generate_signals (self : t) (data : gmap string DataFrame)
    : result (list Signal) :=
  let signals : list Signal := [] in
  (* Get primary timeframe data (15min) *)
  let primary_data := data !! "15min" in
  let primary_data :=
    match primary_data with
    | None => data !! "primary"
    | Some d => if df_empty d then data !! "primary" else Some d
    end in
  (* Validate primary data *)
  match primary_data with
  | None => Ok signals
  | Some primary_data =>
      if df_empty primary_data then Ok signals else
      (* Get daily data for trend filter *)
      let daily_data := data !! "daily" in
      (* Ensure SuperTrend indicator is calculated *)
      primary_data ←
        (if negb (df_has primary_data "supertrend_direction")
         then call_on_copy (_calculate_supertrend self) primary_data
         else Ok primary_data);
      (* Get latest data *)
      latest ← iloc_neg primary_data 1;
      if bool_decide (1 < df_len primary_data)%nat then
        previous ← iloc_neg primary_data 2;
        (* Check for bullish signal (SuperTrend turns green) *)
        prev_dir ← row_getitem previous "supertrend_direction";
        turned ←
          (if (prev_dir <=? Num 0)%F then
             dir ← row_getitem latest "supertrend_direction";
             Ok (dir >? Num 0)%F
           else Ok false);
        if (turned : bool) then
          valid ← _validate_entry self latest primary_data daily_data;
          if (valid : bool) then
            signal ← _create_buy_signal self latest primary_data;
            Ok (signals ++ [signal])
          else Ok signals
        else Ok signals
      else Ok signals
  end.

Definition calculate_position_size (self : t) (symbol : string)
    (price atr available_capital : float) : result Z :=
  if (atr <=? Num 0)%F || (price <=? Num 0)%F then Ok 0%Z else
  (* Risk per trade (from config) *)
  let risk_per_trade := default (Num 0.01) (cfg_risk_per_trade (config self)) in
  let risk_amount := (available_capital * risk_per_trade)%F in
  (* Stop loss distance *)
  let stop_loss_distance := (atr * stop_loss_atr_mult self)%F in
  (* Calculate quantity *)
  qty ← (if (stop_loss_distance >? Num 0)%F
         then py_int (risk_amount / stop_loss_distance)%F
         else Ok 0%Z);
  (* Ensure position doesn't exceed max position size *)
  let max_position_size := default (Num 0.20) (cfg_max_position_size (config self)) in
  max_qty ← py_int ((available_capital * max_position_size) / price)%F;
  Ok (Z.min qty max_qty).

Definition _calculate_trailing_stop (self : t) (position : Position)
    (current_data : Row) : option float :=
  (* Use SuperTrend line as trailing stop *)
  if row_has current_data "supertrend" then current_data !! "supertrend"
  else
    (* Fallback: ATR-based trailing stop *)
    let entry_price := default (Num 0) (pos_entry_price position) in
    let atr := row_get current_data "atr" (Num 0) in
    if (atr >? Num 0)%F
    then Some (entry_price + atr * stop_loss_atr_mult self * Num 0.5)%F
    else pos_stop_loss_price position.

Definition should_exit (self : t) (position : Position) (current_data : Row)
    : bool * string :=
  let entry_price := default (Num 0) (pos_entry_price position) in
  let current_price := row_get current_data "close" (Num 0) in
  if (entry_price <=? Num 0)%F || (current_price <=? Num 0)%F then (false, "") else
  (* Calculate current P&L percentage *)
  let pnl_pct := ((current_price - entry_price) / entry_price)%F in
  (* Check SuperTrend direction *)
  if row_has current_data "supertrend_direction"
     && (row_get current_data "supertrend_direction" NaN <=? Num 0)%F
  then (true, "SuperTrend turned bearish") else
  (* Check if price below SuperTrend line *)
  if row_has current_data "supertrend"
     && (current_price <? row_get current_data "supertrend" NaN)%F
  then (true, "Price below SuperTrend line") else
  (* Check stop loss *)
  let stop_loss := pos_stop_loss_price position in
  if opt_truthy stop_loss && (current_price <=? default NaN stop_loss)%F
  then (true, "Stop loss hit at " +:+ format_2f (default NaN stop_loss)) else
  (* Check profit target *)
  let take_profit := pos_take_profit_price position in
  if opt_truthy take_profit && (current_price >=? default NaN take_profit)%F
  then (true, "Profit target reached at " +:+ format_2f (default NaN take_profit)) else
  (* Trailing stop logic *)
  if trailing_stop_enabled self && (pnl_pct >=? trailing_stop_activation self)%F then
    let trailing_stop := _calculate_trailing_stop self position current_data in
    if opt_truthy trailing_stop && (current_price <=? default NaN trailing_stop)%F
    then (true, "Trailing stop hit at " +:+ format_2f (default NaN trailing_stop))
    else (false, "")
  else (false, "").

End SuperTrendStrategy.

(** ** src/strategies/macd_rsi_strategy.py *)

(** [bool(df)], as evaluated by [df or ...] and [not df]: pandas refuses to
    give a frame a truth value. *)
Definition df_bool (d : DataFrame) : result bool :=
  Raise (ValueError "The truth value of a DataFrame is ambiguous. Use a.empty, a.bool(), a.item(), a.any() or a.all().").

Module MacdRsiStrategy.

Record t : Type := mk {
  name : string;
  config : Config;
  enabled : bool;
  rsi_min : float;
  rsi_max : float;
  macd_threshold : float;
  bb_filter : bool;
  daily_trend_filter : bool;
  profit_target_pct : float;
  stop_loss_atr_mult : float
}.

Definition __init__ (config : Config) : t :=
  {| name := "MACD_RSI";
     config := config;
     enabled := default true (cfg_enabled config);
     rsi_min := default (Num 40) (cfg_rsi_min config);
     rsi_max := default (Num 70) (cfg_rsi_max config);
     macd_threshold := default (Num 0) (cfg_macd_threshold config);
     bb_filter := default true (cfg_bb_filter config);
     daily_trend_filter := default true (cfg_daily_trend_filter config);
     profit_target_pct := default (Num 0.08) (cfg_profit_target_pct config);
     stop_loss_atr_mult := default (Num 2.8) (cfg_stop_loss_atr_mult config) |}.

Definition _check_entry_conditions (self : t) (latest : Row)
    (primary_data : DataFrame) (daily_data : option DataFrame) : result bool :=
  (* Check MACD conditions *)
  let macd_line := row_get latest "macd_line" (Num 0) in
  let macd_signal := row_get latest "macd_signal" (Num 0) in
  if (macd_line <=? macd_threshold self)%F || (macd_signal <=? macd_threshold self)%F
  then Ok false else
  (* Check RSI range *)
  let rsi := row_get latest "rsi_14" (Num 50) in
  if negb ((rsi_min self <=? rsi)%F && (rsi <=? rsi_max self)%F) then Ok false else
  (* Check Bollinger Band filter *)
  below ←
    (if bb_filter self then
       let bb_lower := row_get latest "bb_lower" (Num 0) in
       close ← row_getitem latest "close";
       Ok (close <? bb_lower)%F
     else Ok false);
  if (below : bool) then Ok false else
  (* Check daily trend filter *)
  match daily_data with
  | Some daily =>
      if daily_trend_filter self then BaseStrategy.check_daily_trend daily
      else Ok true
  | None => Ok true
  end.

Definition _calculate_confidence (self : t) (latest : Row) (data : DataFrame)
    : result float :=
  let confidence := Num 0.5 in
  (* MACD strength *)
  let macd_line := row_get latest "macd_line" (Num 0) in
  let macd_signal := row_get latest "macd_signal" (Num 0) in
  let confidence :=
    if (macd_line >? macd_signal)%F then (confidence + Num 0.15)%F else confidence in
  (* RSI optimal range (45-55 is ideal) *)
  let rsi := row_get latest "rsi_14" (Num 50) in
  let confidence :=
    if (Num 45 <=? rsi)%F && (rsi <=? Num 55)%F then (confidence + Num 0.15)%F
    else if (Num 40 <=? rsi)%F && (rsi <=? Num 60)%F then (confidence + Num 0.10)%F
    else confidence in
  (* Price position in Bollinger Bands *)
  let bb_lower := row_get latest "bb_lower" (Num 0) in
  let bb_upper := row_get latest "bb_upper" (Num 0) in
  confidence ←
    (if (bb_upper >? bb_lower)%F then
       close ← row_getitem latest "close";
       let bb_position := ((close - bb_lower) / (bb_upper - bb_lower))%F in
       if (Num 0.2 <=? bb_position)%F && (bb_position <=? Num 0.5)%F
       then Ok (confidence + Num 0.10)%F
       else Ok confidence
     else Ok confidence);
  (* Volume confirmation *)
  vol ← BaseStrategy.check_volume_confirmation data (Num 1.2);
  let confidence := if (vol : bool) then (confidence + Num 0.10)%F else confidence in
  Ok (py_min confidence (Num 1.0)).

Definition _create_buy_signal (self : t) (latest : Row) (data : DataFrame)
    : result Signal :=
  (* Calculate confidence *)
  confidence ← _calculate_confidence self latest data;
  (* Get ATR for stop loss *)
  close ← row_getitem latest "close";
  let atr := row_get latest "atr" (close * Num 0.02)%F in
  (* Calculate stop loss and take profit *)
  close ← row_getitem latest "close";
  let stop_loss := BaseStrategy.get_stop_loss (config self) close atr in
  close ← row_getitem latest "close";
  let take_profit := BaseStrategy.get_take_profit (config self) close in
  let indicators : gmap string float :=
    <["macd_line" := row_get latest "macd_line" (Num 0)]> (
    <["macd_signal" := row_get latest "macd_signal" (Num 0)]> (
    <["rsi_14" := row_get latest "rsi_14" (Num 50)]> (
    <["bb_lower" := row_get latest "bb_lower" (Num 0)]> (
    <["bb_upper" := row_get latest "bb_upper" (Num 0)]> (
    <["atr" := atr]> ∅))))) in
  close ← row_getitem latest "close";
  Ok {| symbol := "UNKNOWN";
        signal_type := BUY;
        price := close;
        confidence := confidence;
        indicators := indicators;
        reason := "MACD positive, RSI in range, above BB lower";
        stop_loss := Some stop_loss;
        take_profit := Some take_profit;
        position_size := None |}.

Definition generate_signals (self : t) (data : gmap string DataFrame)
    : result (list Signal) :=
  let signals : list Signal := [] in
  (* Get primary timeframe data: data.get('15min') or data.get('primary') *)
  primary_data ←
    match data !! "15min" with
    | Some d => b ← df_bool d; Ok (if (b : bool) then Some d else data !! "primary")
    | None => Ok (data !! "primary")
    end;
  match primary_data with
  | None => Ok signals
  | Some primary_data =>
      if df_empty primary_data then Ok signals else
      (* Get daily data for trend filter *)
      let daily_data := data !! "daily" in
      (* Get latest data *)
      latest ← iloc_neg primary_data 1;
      (* Check entry conditions *)
      enter ← _check_entry_conditions self latest primary_data daily_data;
      if (enter : bool) then
        signal ← _create_buy_signal self latest primary_data;
        Ok (signals ++ [signal])
      else Ok signals
  end.

Definition calculate_position_size (self : t) (symbol : string)
    (price atr available_capital : float) : result Z :=
  if (atr <=? Num 0)%F || (price <=? Num 0)%F then Ok 0%Z else
  (* Risk per trade *)
  let risk_per_trade := default (Num 0.01) (cfg_risk_per_trade (config self)) in
  let risk_amount := (available_capital * risk_per_trade)%F in
  (* Stop loss distance *)
  let stop_loss_distance := (atr * stop_loss_atr_mult self)%F in
  (* Calculate quantity *)
  qty ← (if (stop_loss_distance >? Num 0)%F
         then py_int (risk_amount / stop_loss_distance)%F
         else Ok 0%Z);
  (* Ensure position doesn't exceed max position size *)
  let max_position_size := default (Num 0.20) (cfg_max_position_size (config self)) in
  max_qty ← py_int ((available_capital * max_position_size) / price)%F;
  Ok (Z.min qty max_qty).

Definition should_exit (self : t) (position : Position) (current_data : Row)
    : bool * string :=
  let entry_price := default (Num 0) (pos_entry_price position) in
  let current_price := row_get current_data "close" (Num 0) in
  if (entry_price <=? Num 0)%F || (current_price <=? Num 0)%F then (false, "") else
  (* Check momentum exit conditions *)
  let rsi := row_get current_data "rsi_14" (Num 50) in
  let bb_upper := row_get current_data "bb_upper" (Num 0) in
  (* Momentum weakening *)
  if (rsi <? Num 70)%F && (current_price <? bb_upper)%F
  then (true, "Momentum weakening (RSI < 70, price < BB upper)") else
  (* SuperTrend bearish *)
  if row_has current_data "supertrend_direction"
     && (row_get current_data "supertrend_direction" NaN <? Num 0)%F
  then (true, "SuperTrend turned bearish") else
  (* Stop loss *)
  let stop_loss := pos_stop_loss_price position in
  if opt_truthy stop_loss && (current_price <=? default NaN stop_loss)%F
  then (true, "Stop loss hit at " +:+ format_2f (default NaN stop_loss)) else
  (* Profit target *)
  let take_profit := pos_take_profit_price position in
  if opt_truthy take_profit && (current_price >=? default NaN take_profit)%F
  then (true, "Profit target reached at " +:+ format_2f (default NaN take_profit)) else
  (* Chandelier Exit *)
  if row_has current_data "chandelier_exit"
     && (current_price <? row_get current_data "chandelier_exit" NaN)%F
  then (true, "Chandelier Exit triggered")
  else (false, "").

End MacdRsiStrategy.

(** ** src/indicators/supertrend.py: the queries on an enriched frame *)

(** [s.tail(n)] for a Python integer [n] (the last [n] entries; for a
    negative [n] all but the first [-n]; nothing for 0) and [s.iloc[-k]]. *)
Definition tail_int (n : Z) (s : Series) : Series :=
  if (n =? 0)%Z then []
  else if (0 <? n)%Z then drop (length s - Z.to_nat n) s
  else drop (Z.to_nat (- n)) s.
Definition series_iloc_neg (s : Series) (k : nat) : result float :=
  if bool_decide (k ≤ length s)%nat then
    match s !! (length s - k)%nat with
    | Some x => Ok x
    | None => Raise IndexError
    end
  else Raise IndexError.

Definition get_supertrend_signal (df : DataFrame) (lookback : Z) : result string :=
  if negb (df_has df "supertrend_direction")
     || (Z.of_nat (df_len df) <? lookback + 1)%Z
  then Ok "HOLD" else
  directions ← df_col df "supertrend_direction";
  let recent_directions := tail_int (lookback + 1) directions in
  (* Check for bullish crossover (direction changed from -1 to 1) *)
  previous ← series_iloc_neg recent_directions 2;
  bullish ←
    (if (previous <=? Num 0)%F then
       latest ← series_iloc_neg recent_directions 1;
       Ok (latest >? Num 0)%F
     else Ok false);
  if (bullish : bool) then Ok "BUY" else
  (* Check for bearish crossover (direction changed from 1 to -1) *)
  previous ← series_iloc_neg recent_directions 2;
  bearish ←
    (if (previous >=? Num 0)%F then
       latest ← series_iloc_neg recent_directions 1;
       Ok (latest <? Num 0)%F
     else Ok false);
  if (bearish : bool) then Ok "SELL" else
  Ok "HOLD".

Definition is_supertrend_bullish (df : DataFrame) (confirmation_bars : Z) : result bool :=
  if negb (df_has df "supertrend_direction")
     || (Z.of_nat (df_len df) <? confirmation_bars)%Z
  then Ok false else
  directions ← df_col df "supertrend_direction";
  let recent_directions := tail_int confirmation_bars directions in
  Ok (forallb (λ x, (x >? Num 0)%F) recent_directions).

Definition is_supertrend_bearish (df : DataFrame) (confirmation_bars : Z) : result bool :=
  if negb (df_has df "supertrend_direction")
     || (Z.of_nat (df_len df) <? confirmation_bars)%Z
  then Ok false else
  directions ← df_col df "supertrend_direction";
  let recent_directions := tail_int confirmation_bars directions in
  Ok (forallb (λ x, (x <? Num 0)%F) recent_directions).

Definition calculate_supertrend_strength (df : DataFrame) : result float :=
  if negb (df_has df "supertrend") || (df_len df =? 0)%nat then Ok (Num 0.0) else
  latest ← iloc_neg df 1;
  line ← row_getitem latest "supertrend";
  if (line =? Num 0)%F then Ok (Num 0.0) else
  close ← row_getitem latest "close";
  line1 ← row_getitem latest "supertrend";
  line2 ← row_getitem latest "supertrend";
  let strength := ((close - line1) / line2 * Num 100)%F in
  Ok strength.

Definition get_supertrend_stop_loss (df : DataFrame) (direction : string) : result float :=
  if negb (df_has df "supertrend") || (df_len df =? 0)%nat then Ok (Num 0.0) else
  latest ← iloc_neg df 1;
  if String.eqb direction "long" then
    (* For long positions, use SuperTrend line as stop loss *)
    row_getitem latest "supertrend"
  else
    (* For short positions, use SuperTrend line as stop loss *)
    row_getitem latest "supertrend".

(** The configurations are pairs of integers, as the default ones are; the
    suffix is [f"_{period}_{multiplier}"]. *)
Definition supertrend_suffix (period : nat) (multiplier : Z) : string :=
  "_" +:+ pretty period +:+ "_" +:+ pretty multiplier.
Definition calculate_multiple_supertrends (df : loc) (configs : option (list (nat * Z)))
    : M loc :=
  let configs := default [(7%nat, 2%Z); (10%nat, 3%Z); (14%nat, 4%Z)] configs in
  df ← copy df;
  _ ← for_each configs (λ '(period, multiplier),
    let suffix := supertrend_suffix period multiplier in
    (* Calculate this SuperTrend *)
    temp_df ← calculate_supertrend df period (Num (inject_Z multiplier)) "atr";
    (* Add columns with suffix *)
    line ← getitem temp_df "supertrend";
    _ ← setitem df ("supertrend" +:+ suffix) line;
    direction ← getitem temp_df "supertrend_direction";
    setitem df ("supertrend_direction" +:+ suffix) direction);
  mret df.

(** [sub in s] for strings *)
Fixpoint contains (s sub : string) : bool :=
  String.prefix sub s
  || match s with
     | EmptyString => false
     | String _ rest => contains rest sub
     end.

(** The columns are visited in the order of the map, which need not be the
    order of [df.columns]; the counts do not depend on it. *)
Definition get_supertrend_confluence (df : DataFrame) : result (nat * nat) :=
  if (df_len df =? 0)%nat then Ok (0%nat, 0%nat) else
  latest ← iloc_neg df 1;
  (* Find all supertrend_direction columns *)
  let direction_cols :=
    filter (λ col, contains col "supertrend_direction" = true)
           (map_to_list (df_cols df)).*1 in
  if bool_decide (direction_cols = []) then Ok (0%nat, 0%nat) else
  bullish ← mapM (row_getitem latest) direction_cols;
  let bullish_count := length (filter (λ x, (x >? Num 0)%F = true) bullish) in
  bearish ← mapM (row_getitem latest) direction_cols;
  let bearish_count := length (filter (λ x, (x <? Num 0)%F = true) bearish) in
  Ok (bullish_count, bearish_count).

(** ** src/core/engine.py *)

(** [s.lower()] and [s.split()[0]] *)
Definition lower_ascii (a : ascii) : ascii :=
  let n := nat_of_ascii a in
  if (65 <=? n)%nat && (n <=? 90)%nat then ascii_of_nat (n + 32) else a.
Fixpoint lower (s : string) : string :=
  match s with
  | EmptyString => EmptyString
  | String a rest => String (lower_ascii a) (lower rest)
  end.
Definition is_space (a : ascii) : bool :=
  let n := nat_of_ascii a in
  (n =? 32)%nat || ((9 <=? n)%nat && (n <=? 13)%nat) || ((28 <=? n)%nat && (n <=? 31)%nat).
Fixpoint skip_spaces (s : string) : string :=
  match s with
  | EmptyString => EmptyString
  | String a rest => if is_space a then skip_spaces rest else s
  end.
Fixpoint take_word (s : string) : string :=
  match s with
  | EmptyString => EmptyString
  | String a rest => if is_space a then EmptyString else String a (take_word rest)
  end.
Definition first_word (s : string) : result string :=
  match skip_spaces s with
  | EmptyString => Raise IndexError
  | w => Ok (take_word w)
  end.

(** [str(e)] for a caught exception (the text of an [IndexError] is
    abbreviated). *)
Definition exn_str (e : exn) : string :=
  match e with
  | KeyError k => "'" +:+ k +:+ "'"
  | IndexError => "index out of bounds"
  | ValueError msg => msg
  | AttributeError msg => msg
  | StoreError => "store"
  end.

(** The strategies an engine can hold. *)
Inductive Strategy : Type :=
  | SuperTrend (s : SuperTrendStrategy.t)
  | MacdRsi (s : MacdRsiStrategy.t).

Definition strategy_name (s : Strategy) : string :=
  match s with
  | SuperTrend s => SuperTrendStrategy.name s
  | MacdRsi s => MacdRsiStrategy.name s
  end.
Definition strategy_enabled (s : Strategy) : bool :=
  match s with
  | SuperTrend s => SuperTrendStrategy.enabled s
  | MacdRsi s => MacdRsiStrategy.enabled s
  end.
Definition generate_signals (s : Strategy) (data : gmap string DataFrame)
    : result (list Signal) :=
  match s with
  | SuperTrend s => SuperTrendStrategy.generate_signals s data
  | MacdRsi s => MacdRsiStrategy.generate_signals s data
  end.
Definition calculate_position_size (s : Strategy) (symbol : string)
    (price atr available_capital : float) : result Z :=
  match s with
  | SuperTrend s => SuperTrendStrategy.calculate_position_size s symbol price atr available_capital
  | MacdRsi s => MacdRsiStrategy.calculate_position_size s symbol price atr available_capital
  end.
Definition should_exit (s : Strategy) (position : Position) (current_data : Row)
    : bool * string :=
  match s with
  | SuperTrend s => SuperTrendStrategy.should_exit s position current_data
  | MacdRsi s => MacdRsiStrategy.should_exit s position current_data
  end.

(** The configuration of the engine, as far as the engine reads it. *)
Record EngineConfig : Type := mkEngineConfig {
  strategies_active : list string;
  supertrend_strategy : option Config;
  macd_rsi_strategy : option Config;
  trading_risk_per_trade : float;
  trading_max_position_size : float;
  execution_order_type : string
}.

Definition with_global_config (c : Config) (risk max_size : float) : Config :=
  mkConfig (cfg_enabled c) (cfg_period c) (cfg_multiplier c)
    (cfg_volume_confirmation c) (cfg_volume_threshold c) (cfg_daily_trend_filter c)
    (cfg_profit_target_pct c) (cfg_stop_loss_atr_mult c) (cfg_trailing_stop_enabled c)
    (cfg_trailing_stop_activation c) (Some risk) (Some max_size)
    (cfg_rsi_min c) (cfg_rsi_max c) (cfg_macd_threshold c) (cfg_bb_filter c).

Definition _load_strategies (config : EngineConfig) : list Strategy :=
  foldl (λ strategies strategy_name,
    let make (params : option Config) (cls : Config → Strategy) :=
      let strategy_params :=
        with_global_config (default empty_config params)
          (trading_risk_per_trade config) (trading_max_position_size config) in
      let strategy := cls strategy_params in
      if strategy_enabled strategy then strategies ++ [strategy] else strategies in
    if String.eqb strategy_name "supertrend"
    then make (supertrend_strategy config) (λ c, SuperTrend (SuperTrendStrategy.__init__ c))
    else if String.eqb strategy_name "macd_rsi"
    then make (macd_rsi_strategy config) (λ c, MacdRsi (MacdRsiStrategy.__init__ c))
    else strategies)
  [] (strategies_active config).

(** The result dictionary of a cycle (without its time stamp). *)
Record CycleResult : Type := mkCycleResult {
  symbols_analyzed : nat;
  signals_generated : nat;
  orders_placed : nat;
  orders_failed : nat;
  positions_exited : nat;
  errors : list string
}.

(** What the engine does to its collaborators and strategies, in order. *)
Inductive Event : Type :=
  | EvCanTrade
  | EvCanOpenPosition
  | EvGetPosition (symbol : string)
  | EvAddPosition (position : Position)
  | EvClosePosition (symbol : string) (exit_price : float) (reason : string)
  | EvGetAvailableCapital
  | EvGetHistoricalData (symbol timeframe : string)
  | EvPlaceBuyOrder (symbol : string) (quantity : Z) (price : float) (order_type : string)
  | EvPlaceSellOrder (symbol : string) (quantity : Z) (price : float) (order_type : string)
  | EvGetCurrentPrice (symbol : string)
  | EvGenerateSignals (strategy : string)
  | EvCalculatePositionSize (strategy : string)
  | EvShouldExit (strategy : string).

(** The collaborators of the engine (risk manager, portfolio manager, data
    manager, broker) and the pandas_ta indicator block of [_add_indicators]
    are not part of the sources: they are operations on a world [W] that may
    raise. *)
Record Collaborators (W : Type) : Type := mkCollaborators {
  can_trade : W → result bool * W;
  can_open_position : W → result bool * W;
  get_position : string → W → result (option Position) * W;
  add_position : Position → W → result unit * W;
  close_position : string → float → string → W → result unit * W;
  get_available_capital : W → result float * W;
  get_historical_data : string → string → W → result (option DataFrame) * W;
  place_buy_order : string → Z → float → string → W → result (option string) * W;
  place_sell_order : string → Z → float → string → W → result (option string) * W;
  get_current_price : string → W → result (option float) * W;
  ta_enrich : DataFrame → result unit * DataFrame
}.
Arguments can_trade {W} _ _.
Arguments can_open_position {W} _ _.
Arguments get_position {W} _ _ _.
Arguments add_position {W} _ _ _.
Arguments close_position {W} _ _ _ _ _.
Arguments get_available_capital {W} _ _.
Arguments get_historical_data {W} _ _ _ _.
Arguments place_buy_order {W} _ _ _ _ _ _.
Arguments place_sell_order {W} _ _ _ _ _ _.
Arguments get_current_price {W} _ _.
Arguments ta_enrich {W} _ _.

Record EngineState (W : Type) : Type := mkEngineState {
  world : W;
  trace : list Event;
  results : CycleResult
}.
Arguments mkEngineState {W} _ _ _.
Arguments world {W} _.
Arguments trace {W} _.
Arguments results {W} _.

(** [s.rolling(w).max()] and [df.dropna(inplace=True)] *)
Definition window_max (w : nat) (win : list float) : float :=
  let obs := filter (λ x, is_num x = true) win in
  if (w <=? length obs)%nat && (0 <? length obs)%nat then row_max obs else NaN.
Definition rolling_max (w : nat) (s : Series) : Series :=
  (λ i, window_max w (window w s i)) <$> seq 0 (length s).
Definition row_complete (d : DataFrame) (i : nat) : bool :=
  forallb (λ cs : string * list float,
             match cs.2 !! i with Some x => is_num x | None => false end)
          (map_to_list (df_cols d)).
Definition dropna (d : DataFrame) : DataFrame :=
  let keep := filter (λ i, row_complete d i = true) (seq 0 (df_len d)) in
  mkDF (length keep) ((λ s : list float, omap (λ i, s !! i) keep) <$> df_cols d).

Section Engine.
Context {W : Type} (C : Collaborators W).
Variable config : EngineConfig.
Variable strategies : list Strategy.

Abbreviation E := (St (EngineState W)).

Definition call {A} (ev : Event) (f : W → result A * W) : E A := λ s,
  let '(r, w) := f (world s) in
  (r, mkEngineState w (trace s ++ [ev]) (results s)).
Definition note (ev : Event) : E unit := λ s,
  (Ok tt, mkEngineState (world s) (trace s ++ [ev]) (results s)).
Definition get_results : E CycleResult := λ s, (Ok (results s), s).
Definition update_results (f : CycleResult → CycleResult) : E unit := λ s,
  (Ok tt, mkEngineState (world s) (trace s) (f (results s))).

Definition bump_signals_generated (r : CycleResult) : CycleResult :=
  mkCycleResult (symbols_analyzed r) (S (signals_generated r)) (orders_placed r)
    (orders_failed r) (positions_exited r) (errors r).
Definition bump_orders_placed (r : CycleResult) : CycleResult :=
  mkCycleResult (symbols_analyzed r) (signals_generated r) (S (orders_placed r))
    (orders_failed r) (positions_exited r) (errors r).
Definition bump_orders_failed (r : CycleResult) : CycleResult :=
  mkCycleResult (symbols_analyzed r) (signals_generated r) (orders_placed r)
    (S (orders_failed r)) (positions_exited r) (errors r).
Definition bump_positions_exited (r : CycleResult) : CycleResult :=
  mkCycleResult (symbols_analyzed r) (signals_generated r) (orders_placed r)
    (orders_failed r) (S (positions_exited r)) (errors r).
Definition append_error (msg : string) (r : CycleResult) : CycleResult :=
  mkCycleResult (symbols_analyzed r) (signals_generated r) (orders_placed r)
    (orders_failed r) (positions_exited r) (errors r ++ [msg]).

Definition _get_strategy_by_name (name : string) : option Strategy :=
  list_find (λ strategy, lower (strategy_name strategy) = lower name) strategies
    ≫= λ found, Some found.2.

(** [df = f(df)] on the local frame of [_add_indicators] *)
Definition assign (f : DataFrame → result DataFrame) : St DataFrame unit := λ d,
  match f d with
  | Ok d' => (Ok tt, d')
  | Raise e => (Raise e, d)
  end.

Definition _add_indicators (df : DataFrame) : DataFrame :=
  snd (try_except (
    (* Calculate SuperTrend *)
    _ ← assign (call_on_copy (λ l, calculate_supertrend l 10 (Num 3.0) "atr"));
    (* MACD, RSI, Bollinger Bands, ATR and EMAs of pandas_ta *)
    _ ← ta_enrich C;
    (* Calculate Chandelier Exit *)
    _ ← assign (λ d,
      high ← df_col d "high";
      let highest_high := rolling_max 22 high in
      atr ← df_col d "atr";
      Ok (set_col "chandelier_exit"
            (series_sub highest_high (series_scale (Num 2.0) atr)) d));
    assign (λ d, Ok (dropna d)))
    (λ _, mret tt) df).

Definition _get_symbol_data (symbol : string) : E (gmap string DataFrame) :=
  try_except (
    let data : gmap string DataFrame := ∅ in
    (* Get daily data *)
    daily_df ← call (EvGetHistoricalData symbol "day") (get_historical_data C symbol "day");
    let data :=
      match daily_df with
      | Some d => if negb (df_empty d) then <["daily" := _add_indicators d]> data else data
      | None => data
      end in
    (* Get hourly data *)
    hourly_df ← call (EvGetHistoricalData symbol "hour") (get_historical_data C symbol "hour");
    let data :=
      match hourly_df with
      | Some d => if negb (df_empty d) then <["hourly" := _add_indicators d]> data else data
      | None => data
      end in
    (* Get 15-minute data *)
    fifteen_df ← call (EvGetHistoricalData symbol "15minute")
                   (get_historical_data C symbol "15minute");
    let data :=
      match fifteen_df with
      | Some d =>
          if negb (df_empty d)
          then <["primary" := _add_indicators d]> (<["15min" := _add_indicators d]> data)
          else data
      | None => data
      end in
    mret data)
    (λ _, mret ∅).

(** [not data or not data.get('15min') or data['15min'].empty] *)
Definition no_primary_data (data : gmap string DataFrame) : result bool :=
  if bool_decide (data = ∅) then Ok true
  else
    match data !! "15min" with
    | None => Ok true
    | Some d =>
        b ← df_bool d;
        if negb b then Ok true
        else
          match data !! "15min" with
          | Some d' => Ok (df_empty d')
          | None => Raise (KeyError "15min")
          end
    end.

Definition _validate_signal (signal : Signal) (data : gmap string DataFrame) : E bool :=
  (* Check risk manager *)
  can_open ← call EvCanOpenPosition (can_open_position C);
  if negb can_open then mret false else
  (* Check if enough capital *)
  available_capital ← call EvGetAvailableCapital (get_available_capital C);
  let size :=
    match position_size signal with
    | Some n => if (n =? 0)%Z then 1%Z else n
    | None => 1%Z
    end in
  let estimated_cost := (price signal * Num (inject_Z size))%F in
  if (estimated_cost >? available_capital)%F then mret false else
  (* Check signal confidence *)
  if (confidence signal <? Num 0.5)%F then mret false else
  mret true.

Definition order_placed (order_id : option string) : bool :=
  match order_id with
  | Some id => negb (String.eqb id "")
  | None => false
  end.

Definition _execute_buy_signal (signal : Signal) (data : gmap string DataFrame) : E bool :=
  try_except (
    let symbol := symbol signal in
    let price := price signal in
    (* Get ATR for position sizing *)
    frame ← lift (match data !! "15min" with
                  | Some d => Ok d
                  | None => Raise (KeyError "15min")
                  end);
    latest_data ← lift (iloc_neg frame 1);
    let atr := row_get latest_data "atr" (price * Num 0.02)%F in
    (* Calculate position size *)
    available_capital ← call EvGetAvailableCapital (get_available_capital C);
    word ← lift (first_word (reason signal));
    let strategy := _get_strategy_by_name word in
    qty ←
      match strategy with
      | Some strategy =>
          _ ← note (EvCalculatePositionSize (strategy_name strategy));
          lift (calculate_position_size strategy symbol price atr available_capital)
      | None =>
          (* Fallback position sizing *)
          let risk_amount := (available_capital * Num 0.01)%F in
          let stop_distance := (atr * Num 2.5)%F in
          if (stop_distance >? Num 0)%F
          then lift (py_int (risk_amount / stop_distance)%F)
          else mret 0%Z
      end;
    if (qty <=? 0)%Z then mret false else
    (* Place order *)
    order_id ← call (EvPlaceBuyOrder symbol qty price (execution_order_type config))
                 (place_buy_order C symbol qty price (execution_order_type config));
    if order_placed order_id then
      (* Record position *)
      word ← lift (first_word (reason signal));
      let position :=
        {| pos_symbol := symbol;
           pos_qty := qty;
           pos_entry_price := Some price;
           pos_strategy := Some word;
           pos_stop_loss_price := stop_loss signal;
           pos_take_profit_price := take_profit signal;
           pos_order_id := default "" order_id |} in
      _ ← call (EvAddPosition position) (add_position C position);
      mret true
    else mret false)
    (λ _, mret false).

Definition _execute_sell_signal (symbol : string) (position : Position)
    (reason : string) : E bool :=
  try_except (
    let qty := pos_qty position in
    current_price ← call (EvGetCurrentPrice symbol) (get_current_price C symbol);
    if negb (opt_truthy current_price) then mret false else
    let current_price := default NaN current_price in
    (* Place sell order *)
    order_id ← call (EvPlaceSellOrder symbol qty current_price (execution_order_type config))
                 (place_sell_order C symbol qty current_price (execution_order_type config));
    if order_placed order_id then
      (* Update position *)
      _ ← call (EvClosePosition symbol current_price reason)
            (close_position C symbol current_price reason);
      mret true
    else mret false)
    (λ _, mret false).

Definition _check_entry_signals (symbol : string) : E unit :=
  (* Get market data for all timeframes *)
  data ← _get_symbol_data symbol;
  skip ← lift (no_primary_data data);
  if (skip : bool) then mret tt else
  (* Generate signals from all strategies *)
  all_signals ←
    foldl (λ (acc : E (list Signal)) strategy,
      all_signals ← acc;
      try_except (
        _ ← note (EvGenerateSignals (strategy_name strategy));
        signals ← lift (generate_signals strategy data);
        mret (all_signals ++ signals))
        (λ _, mret all_signals))
      (mret []) strategies;
  (* Process signals *)
  for_each all_signals (λ signal,
    if bool_decide (signal_type signal = BUY) then
      _ ← update_results bump_signals_generated;
      (* Validate signal *)
      valid ← _validate_signal signal data;
      if negb valid then mret tt else
      (* Execute signal *)
      success ← _execute_buy_signal signal data;
      if (success : bool) then update_results bump_orders_placed
      else update_results bump_orders_failed
    else mret tt).

Definition _check_exit_conditions (symbol : string) (position : Position) : E unit :=
  (* Get current market data *)
  data ← _get_symbol_data symbol;
  skip ← lift (no_primary_data data);
  if (skip : bool) then mret tt else
  frame ← lift (match data !! "15min" with
                | Some d => Ok d
                | None => Raise (KeyError "15min")
                end);
  current_data ← lift (iloc_neg frame 1);
  (* Check exit conditions from strategy *)
  strategy ←
    lift (match pos_strategy position with
          | Some strategy_name => Ok (_get_strategy_by_name strategy_name)
          | None =>
              (* [name.lower()] on [None], at the first strategy of the loop *)
              match strategies with
              | [] => Ok None
              | _ :: _ =>
                  Raise (AttributeError "'NoneType' object has no attribute 'lower'")
              end
          end);
  match strategy with
  | Some strategy =>
      _ ← note (EvShouldExit (strategy_name strategy));
      let '(exit, reason) := should_exit strategy position current_data in
      if (exit : bool) then
        success ← _execute_sell_signal symbol position reason;
        if (success : bool) then update_results bump_positions_exited else mret tt
      else mret tt
  | None => mret tt
  end.

Definition execute_cycle (symbols : list string) : E CycleResult :=
  _ ← update_results (λ _, mkCycleResult (length symbols) 0 0 0 0 []);
  (* Check if trading is allowed *)
  allowed ← call EvCanTrade (can_trade C);
  if negb allowed then
    _ ← update_results (append_error "Trading blocked by risk manager");
    get_results
  else
    (* Process each symbol *)
    _ ← for_each symbols (λ symbol,
      try_except (
        (* Check existing position *)
        position ← call (EvGetPosition symbol) (get_position C symbol);
        match position with
        | Some position =>
            (* Check exit conditions for existing position *)
            _check_exit_conditions symbol position
        | None =>
            (* Look for entry signals *)
            _check_entry_signals symbol
        end)
        (λ e, update_results (append_error (symbol +:+ ": " +:+ exn_str e))));
    get_results.

End Engine.

(** ** Functional reading of the indicator programs

    What the programs above leave in their working copy, as functions on
    frame values.  [st_body U L i] is one iteration of the SuperTrend loop
    over band columns named [U] and [L]; the lemmas below show that the two
    loops of the sources compute it. *)

Definition column (d : DataFrame) (c : string) : Series :=
  default [] (df_cols d !! c).
Definition cell (d : DataFrame) (c : string) (i : nat) : float :=
  default NaN (df_cols d !! c ≫= λ s : list float, s !! i).

Definition Qsum (l : list Q) : Q := foldr Qplus 0 l.

Definition true_range (high low close : Series) : Series :=
  np_max_axis1
    (concat3 (series_sub high low)
             (np_abs (series_sub high (shift close)))
             (np_abs (series_sub low (shift close)))).

(** Every bar has a high that is at least its low. *)
Definition bars_ordered (high low : Series) : bool :=
  forallb (λ p : float * float, (p.1 >=? p.2)%F) (zip high low).

(** The true range of bar [i] as the specification states it, from the
    bar's high and low and the close [pc] of the bar before (if any). *)
Definition true_range_spec (hi lo : Q) (prev_close : option Q) : Q :=
  match prev_close with
  | Some pc => Qmax (hi - lo) (Qmax (Qabs (hi - pc)) (Qabs (lo - pc)))
  | None => hi - lo
  end.

Definition atr_frame (period : nat) (d : DataFrame) : DataFrame :=
  set_col "atr"
    (rolling_mean period
       (true_range (column d "high") (column d "low") (column d "close"))) d.

(** The basic bands of a bar, and the ATR series the bands are built from:
    the column named [atr_column] when the frame has it, the computed ATR
    otherwise. *)
Definition basic_upper (multiplier high low atr : float) : float :=
  ((high + low) / Num 2 + multiplier * atr)%F.
Definition basic_lower (multiplier high low atr : float) : float :=
  ((high + low) / Num 2 - multiplier * atr)%F.
Definition atr_source (period : nat) (atr_column : string) (d : DataFrame) : Series :=
  if bool_decide (is_Some (df_cols d !! atr_column)) then column d atr_column
  else rolling_mean period
         (true_range (column d "high") (column d "low") (column d "close")).
Definition at_row (s : Series) (i : nat) : float := default NaN (s !! i).

(** The SuperTrend recurrence of the specification over [n] bars: [close],
    [bu] and [bl] are the closes and the basic bands, [ub], [lb], [dir] and
    [st] the adjusted bands, the direction and the line. *)
Definition supertrend_recurrence (n : nat) (close bu bl ub lb dir st : nat → float)
    : Prop :=
  dir 0%nat = Num 1 ∧ ub 0%nat = bu 0%nat ∧ lb 0%nat = bl 0%nat
  ∧ ∀ i, (1 ≤ i < n)%nat →
      ub i = (if (close (i - 1)%nat <=? ub (i - 1)%nat)%F
              then py_min (bu i) (ub (i - 1)%nat) else bu i)
      ∧ lb i = (if (close (i - 1)%nat >=? lb (i - 1)%nat)%F
                then py_max (bl i) (lb (i - 1)%nat) else bl i)
      ∧ dir i = (if (close i >? ub (i - 1)%nat)%F then Num 1
                 else if (close i <? lb (i - 1)%nat)%F then Num (-1)
                 else dir (i - 1)%nat)
      ∧ st i = (if (dir i =? Num 1)%F then lb i else ub i).

Definition st_init (U L : string) (multiplier : float) (atr_column : string)
    (d : DataFrame) : DataFrame :=
  let hl2 := series_div_scalar (series_add (column d "high") (column d "low")) (Num 2) in
  let d1 := set_col U (series_add hl2 (series_scale multiplier (column d atr_column))) d in
  let d2 := set_col L (series_sub hl2 (series_scale multiplier (column d1 atr_column))) d1 in
  let d3 := set_col "supertrend" (replicate (df_len d2) (Num 0)) d2 in
  set_col "supertrend_direction" (replicate (df_len d3) (Num 1)) d3.

Definition st_body (U L : string) (i : nat) (d : DataFrame) : DataFrame :=
  let d1 :=
    if (cell d "close" (i - 1) <=? cell d U (i - 1))%F
    then set_cell U i (py_min (cell d U i) (cell d U (i - 1))) d
    else d in
  let d2 :=
    if (cell d1 "close" (i - 1) >=? cell d1 L (i - 1))%F
    then set_cell L i (py_max (cell d1 L i) (cell d1 L (i - 1))) d1
    else d1 in
  let dir :=
    if (cell d2 "close" i >? cell d2 U (i - 1))%F then Num 1
    else if (cell d2 "close" i <? cell d2 L (i - 1))%F then Num (-1)
    else cell d2 "supertrend_direction" (i - 1) in
  let d3 := set_cell "supertrend_direction" i dir d2 in
  if (cell d3 "supertrend_direction" i =? Num 1)%F
  then set_cell "supertrend" i (cell d3 L i) d3
  else set_cell "supertrend" i (cell d3 U i) d3.

(** The band columns have names of their own. *)
Definition band_names (U L : string) : Prop :=
  U ≠ L ∧ U ≠ "close" ∧ U ≠ "supertrend_direction" ∧ U ≠ "supertrend"
  ∧ L ≠ "close" ∧ L ≠ "supertrend_direction" ∧ L ≠ "supertrend".

Definition st_scan (U L : string) (d : DataFrame) : DataFrame :=
  foldl (λ d i, st_body U L i d) d (seq 1 (df_len d - 1)).

(** The values an iteration writes at row [i], from the cells of the frame
    before it. *)
Definition upper_at (U : string) (d : DataFrame) (i : nat) : float :=
  if (cell d "close" (i - 1) <=? cell d U (i - 1))%F
  then py_min (cell d U i) (cell d U (i - 1))
  else cell d U i.
Definition lower_at (L : string) (d : DataFrame) (i : nat) : float :=
  if (cell d "close" (i - 1) >=? cell d L (i - 1))%F
  then py_max (cell d L i) (cell d L (i - 1))
  else cell d L i.
Definition direction_at (U L : string) (d : DataFrame) (i : nat) : float :=
  if (cell d "close" i >? cell d U (i - 1))%F then Num 1
  else if (cell d "close" i <? cell d L (i - 1))%F then Num (-1)
  else cell d "supertrend_direction" (i - 1).
Definition line_at (U L : string) (d : DataFrame) (i : nat) : float :=
  if (direction_at U L d i =? Num 1)%F then lower_at L d i else upper_at U d i.

(** The frame after the iterations [1 .. k]. *)
Definition scan_to (U L : string) (k : nat) (d : DataFrame) : DataFrame :=
  foldl (λ d i, st_body U L i d) d (seq 1 k).

(** The columns the loop reads and writes are there. *)
Definition st_ok (U L : string) (d : DataFrame) : Prop :=
  df_wf d ∧ is_Some (df_cols d !! "close") ∧ is_Some (df_cols d !! U)
  ∧ is_Some (df_cols d !! L) ∧ is_Some (df_cols d !! "supertrend_direction")
  ∧ is_Some (df_cols d !! "supertrend").

(** The columns the indicators read are there. *)
Definition has_ohlc (d : DataFrame) : Prop :=
  is_Some (df_cols d !! "high") ∧ is_Some (df_cols d !! "low")
  ∧ is_Some (df_cols d !! "close").


(** The frame [calculate_supertrend] returns for an input frame [d]. *)
Definition supertrend_frame (period : nat) (multiplier : float) (atr_column : string)
    (d : DataFrame) : DataFrame :=
  let '(d0, a) :=
    if bool_decide (is_Some (df_cols d !! atr_column)) then (d, atr_column)
    else (atr_frame period d, "atr") in
  st_scan "supertrend_upperband" "supertrend_lowerband"
    (st_init "supertrend_upperband" "supertrend_lowerband" multiplier a d0).

(** The frame [SuperTrendStrategy._calculate_supertrend] returns. *)
Definition strategy_supertrend_frame (self : SuperTrendStrategy.t) (d : DataFrame)
    : DataFrame :=
  let d0 :=
    if bool_decide (is_Some (df_cols d !! "atr")) then d
    else atr_frame (SuperTrendStrategy.period self) d in
  st_scan "upperband" "lowerband"
    (st_init "upperband" "lowerband" (SuperTrendStrategy.multiplier self) "atr" d0).

(** Predicate transformers: [wp] for a computation on any state (it returns
    normally and the postcondition holds), [wpf] for a computation that works
    on the single frame at [l]. *)
Definition wp {S A} (m : St S A) (s : S) (Q : A → S → Prop) : Prop :=
  match m s with
  | (Ok a, s') => Q a s'
  | (Raise _, _) => False
  end.
Definition wpf {A} (l : loc) (m : M A) (d : DataFrame) (Q : A → DataFrame → Prop) : Prop :=
  ∀ h : gmap loc DataFrame, h !! l = Some d →
    ∃ a d', m h = (Ok a, <[l := d']> h) ∧ Q a d'.

(** [keeps h0 m Q]: started in a store that extends [h0], the computation
    [m] ends (normally or not) in a store that extends [h0], and a returned
    value satisfies [Q]. *)
Definition keeps {A} (h0 : gmap loc DataFrame) (m : M A) (Q : A → Prop) : Prop :=
  ∀ h : gmap loc DataFrame, h0 ⊆ h →
    match m h with
    | (Ok a, h') => h0 ⊆ h' ∧ Q a
    | (Raise _, h') => h0 ⊆ h'
    end.

(** ** The exit rules of the trend-following strategy, as specified

    The five conditions in their order; a rule is [Some reason] when it
    holds.  A stop-loss, take-profit or trailing level that is absent or
    zero is not set. *)
Definition when_rule (b : bool) (reason : string) : option string :=
  if b then Some reason else None.
Definition level_reached (level : option float) (test : float → bool) : bool :=
  match level with
  | Some x => truthy x && test x
  | None => false
  end.
Definition trailing_level (self : SuperTrendStrategy.t) (entry : float)
    (current_data : Row) : option float :=
  match current_data !! "supertrend" with
  | Some line => Some line
  | None =>
      let atr := row_get current_data "atr" (Num 0) in
      if (atr >? Num 0)%F
      then Some (entry + atr * SuperTrendStrategy.stop_loss_atr_mult self * Num 0.5)%F
      else None
  end.
Definition exit_rules (self : SuperTrendStrategy.t) (position : Position)
    (entry close : float) (current_data : Row) : list (option string) :=
  let gain := ((close - entry) / entry)%F in
  let trailing := trailing_level self entry current_data in
  [ (* 1: supertrend direction <= 0 *)
    when_rule
      (match current_data !! "supertrend_direction" with
       | Some dir => (dir <=? Num 0)%F
       | None => false
       end) "SuperTrend turned bearish";
    (* 2: close below the supertrend line *)
    when_rule
      (match current_data !! "supertrend" with
       | Some line => (close <? line)%F
       | None => false
       end) "Price below SuperTrend line";
    (* 3: close <= stop-loss *)
    when_rule
      (level_reached (pos_stop_loss_price position) (λ sl, (close <=? sl)%F))
      ("Stop loss hit at " +:+ format_2f (default NaN (pos_stop_loss_price position)));
    (* 4: close >= take-profit *)
    when_rule
      (level_reached (pos_take_profit_price position) (λ tp, (close >=? tp)%F))
      ("Profit target reached at "
         +:+ format_2f (default NaN (pos_take_profit_price position)));
    (* 5: trailing stop, active once the unrealized gain reaches the threshold *)
    when_rule
      (SuperTrendStrategy.trailing_stop_enabled self
       && (gain >=? SuperTrendStrategy.trailing_stop_activation self)%F
       && level_reached trailing (λ level, (close <=? level)%F))
      ("Trailing stop hit at " +:+ format_2f (default NaN trailing)) ].
Fixpoint first_exit (rules : list (option string)) : bool * string :=
  match rules with
  | [] => (false, "")
  | Some reason :: _ => (true, reason)
  | None :: rest => first_exit rest
  end.

(** ** The confidence sum in IEEE 754 binary64

    The decimal literals of [_calculate_confidence] as correctly rounded
    doubles, and their sum in the order the code adds them. *)
Definition b64 (num den : Z) : spec_float :=
  SFdiv 53 1024 (binary_normalize 53 1024 num 0 false)
    (binary_normalize 53 1024 den 0 false).
Definition b64_add (x y : spec_float) : spec_float := SFadd 53 1024 x y.
Definition confidence_sum_b64 : spec_float :=
  b64_add (b64_add (b64_add (b64_add (b64 5 10) (b64 1 10)) (b64 15 100)) (b64 15 100))
    (b64 10 100).

(** ** Observing a cycle

    [emits P m]: whatever [m] does, it only appends events to the trace, and
    every appended event satisfies [P]. *)
Definition emits {W A} (P : Event → Prop) (m : St (EngineState W) A) : Prop :=
  ∀ s, ∃ evs, trace (m s).2 = trace s ++ evs ∧ Forall P evs.

Definition is_get_position (ev : Event) : bool :=
  match ev with EvGetPosition _ => true | _ => false end.
Definition is_strategy_event (ev : Event) : bool :=
  match ev with
  | EvGenerateSignals _ | EvCalculatePositionSize _ | EvShouldExit _ => true
  | _ => false
  end.

(** The result of a cycle the risk manager blocks. *)
Definition blocked_result (symbols : list string) : CycleResult :=
  mkCycleResult (length symbols) 0 0 0 0 ["Trading blocked by risk manager"].

(** A computation returns normally. *)
Definition returns {A} (m : result A) : Prop := ∃ a, m = Ok a.

(** ** Reading the engine *)

(** The configuration a loaded strategy holds. *)
Definition strategy_config (strategy : Strategy) : Config :=
  match strategy with
  | SuperTrend s => SuperTrendStrategy.config s
  | MacdRsi s => MacdRsiStrategy.config s
  end.

(** A computation of the engine leaves the result counters alone. *)
Definition keeps_results {W A} (m : St (EngineState W) A) : Prop :=
  ∀ s, results (m s).2 = results s.

(** The events of a cycle in which nothing is traded, and the counters of
    such a cycle over [n] symbols. *)
Definition is_fetch (ev : Event) : Prop :=
  ∃ symbol timeframe, ev = EvGetHistoricalData symbol timeframe.
Definition quiet_event (ev : Event) : Prop :=
  ev = EvCanTrade ∨ (∃ symbol, ev = EvGetPosition symbol) ∨ is_fetch ev.
Definition quiet_result (n : nat) (r : CycleResult) : Prop :=
  symbols_analyzed r = n ∧ signals_generated r = 0%nat ∧ orders_placed r = 0%nat
  ∧ orders_failed r = 0%nat ∧ positions_exited r = 0%nat.

(** ** Reading [calculate_multiple_supertrends] *)

(** Two frames with the same bars: as many rows, and the same high, low,
    close and (if any) ATR columns. *)
Definition same_bars (d1 d2 : DataFrame) : Prop :=
  df_len d1 = df_len d2
  ∧ ∀ c, c ∈ ["high"; "low"; "close"; "atr"] → df_cols d1 !! c = df_cols d2 !! c.

(** The columns the loop adds, the frame after one pass of the loop when the
    SuperTrend is taken from [d], and the body of the loop. *)
Definition multiple_names (configs : list (nat * Z)) : list string :=
  flat_map (λ '(period, multiplier),
    ["supertrend" +:+ supertrend_suffix period multiplier;
     "supertrend_direction" +:+ supertrend_suffix period multiplier]) configs.

Definition add_supertrend (d dk : DataFrame) (config : nat * Z) : DataFrame :=
  let F := supertrend_frame config.1 (Num (inject_Z config.2)) "atr" d in
  set_col ("supertrend_direction" +:+ supertrend_suffix config.1 config.2)
    (column F "supertrend_direction")
    (set_col ("supertrend" +:+ supertrend_suffix config.1 config.2)
       (column F "supertrend") dk).

Definition multiple_body (df : loc) : nat * Z → M unit :=
  λ '(period, multiplier),
    let suffix := supertrend_suffix period multiplier in
    temp_df ← calculate_supertrend df period (Num (inject_Z multiplier)) "atr";
    line ← getitem temp_df "supertrend";
    _ ← setitem df ("supertrend" +:+ suffix) line;
    direction ← getitem temp_df "supertrend_direction";
    setitem df ("supertrend_direction" +:+ suffix) direction.

Definition default_configs : list (nat * Z) := [(7%nat, 2%Z); (10%nat, 3%Z); (14%nat, 4%Z)].

(** Decimal digits, of which [f"{period}"] is made. *)
Definition is_digit (c : ascii) : bool :=
  bool_decide (c ∈ ["0"; "1"; "2"; "3"; "4"; "5"; "6"; "7"; "8"; "9"]%char).
Fixpoint all_digits (s : string) : bool :=
  match s with
  | EmptyString => true
  | String c rest => is_digit c && all_digits rest
  end.

(** ** Reading [get_supertrend_confluence] *)

(** The columns whose name contains [supertrend_direction], and a string
    without the character [c]. *)
Definition direction_columns (d : DataFrame) : list string :=
  filter (λ col, contains col "supertrend_direction" = true) (map_to_list (df_cols d)).*1.

Fixpoint lacks (c : ascii) (s : string) : bool :=
  match s with
  | EmptyString => true
  | String a rest => negb (Ascii.eqb a c) && lacks c rest
  end.

(** * Example inputs *)

(** A bundle whose last bar earns every boost. *)
Definition full_confidence_data : gmap string DataFrame :=
  {[ "15min" :=
       mkDF 5 (<["close" := [Num 100; Num 101; Num 102; Num 103; Num 110]]>
              (<["volume" := [Num 1000; Num 1000; Num 1000; Num 1000; Num 2000]]>
              (<["supertrend" := [Num 105; Num 105; Num 105; Num 105; Num 100]]>
              (<["supertrend_direction" := [Num (-1); Num (-1); Num (-1); Num (-1); Num 1]]>
              (<["rsi_14" := [Num 45; Num 46; Num 47; Num 48; Num 50]]> ∅))))) ]}.
Definition full_confidence_signal : Signal :=
  Eval vm_compute in
    match SuperTrendStrategy.generate_signals (SuperTrendStrategy.__init__ empty_config)
            full_confidence_data with
    | Ok (s :: _) => s
    | _ => mkSignal "" HOLD NaN NaN ∅ "" None None None
    end.

(** Collaborators for the examples: a risk manager that answers [allowed],
    an empty portfolio with a capital of 100000, a data manager that returns
    [frame] for every symbol and time frame, and a broker that accepts every
    order. *)
Definition example_collaborators (allowed : bool) (frame : option DataFrame)
    : Collaborators unit :=
  {| can_trade := λ w, (Ok allowed, w);
     can_open_position := λ w, (Ok true, w);
     get_position := λ _ w, (Ok None, w);
     add_position := λ _ w, (Ok tt, w);
     close_position := λ _ _ _ w, (Ok tt, w);
     get_available_capital := λ w, (Ok (Num 100000), w);
     get_historical_data := λ _ _ w, (Ok frame, w);
     place_buy_order := λ _ _ _ _ w, (Ok (Some "order-1"), w);
     place_sell_order := λ _ _ _ _ w, (Ok (Some "order-2"), w);
     get_current_price := λ _ w, (Ok (Some (Num 100)), w);
     ta_enrich := λ d, (Ok tt, d) |}.
Definition example_config : EngineConfig :=
  mkEngineConfig ["supertrend"; "macd_rsi"] None None (Num 0.01) (Num 0.20) "MARKET".
Definition example_state : EngineState unit :=
  mkEngineState tt [] (mkCycleResult 0 0 0 0 0 []).

(** A 15-minute frame whose only bar passes every entry condition of the
    MACD/RSI strategy: close 100, ATR 2, MACD 1 above its signal 0.5, RSI 50,
    Bollinger bands 90 and 110. *)
Definition macd_frame : DataFrame :=
  mkDF 1 (list_to_map
    [("open", [Num 99]); ("high", [Num 101]); ("low", [Num 98]); ("close", [Num 100]);
     ("volume", [Num 1000]); ("atr", [Num 2]); ("macd_line", [Num 1]);
     ("macd_signal", [Num 0.5]); ("rsi_14", [Num 50]); ("bb_lower", [Num 90]);
     ("bb_upper", [Num 110])]).

(** The bundle [_get_symbol_data] builds from it, and the one of
    [backtest_enhanced.py] ([{'daily': df, 'hourly': df, '15min': df}]). *)
Definition engine_bundle : gmap string DataFrame :=
  <["primary" := macd_frame]> (<["15min" := macd_frame]> ∅).
Definition backtest_bundle : gmap string DataFrame :=
  <["15min" := macd_frame]> (<["hourly" := macd_frame]> (<["daily" := macd_frame]> ∅)).

(** Three bars, and three bars with a SuperTrend line that turns bearish on
    the last one. *)
Definition example_bars : DataFrame :=
  mkDF 3 (<["high" := [Num 10; Num 12; Num 11]]>
         (<["low" := [Num 9; Num 10; Num 8]]>
         (<["close" := [Num 9.5; Num 11; Num 9]]> ∅))).
Definition example_enriched : DataFrame :=
  mkDF 3 (<["close" := [Num 9.5; Num 11; Num 9]]>
         (<["supertrend" := [Num 0; Num 9; Num 12]]>
         (<["supertrend_direction" := [Num 1; Num 1; Num (-1)]]> ∅))).

(** The frame of [full_confidence_data], a bar with an ATR, and the signal
    the trend-following strategy builds from that bar. *)
Definition full_confidence_frame : DataFrame :=
  mkDF 5 (<["close" := [Num 100; Num 101; Num 102; Num 103; Num 110]]>
         (<["volume" := [Num 1000; Num 1000; Num 1000; Num 1000; Num 2000]]>
         (<["supertrend" := [Num 105; Num 105; Num 105; Num 105; Num 100]]>
         (<["supertrend_direction" := [Num (-1); Num (-1); Num (-1); Num (-1); Num 1]]>
         (<["rsi_14" := [Num 45; Num 46; Num 47; Num 48; Num 50]]> ∅))))).

(** The last bar of [macd_frame] and the signal of the MACD/RSI strategy for
    it. *)
Definition macd_row : Row :=
  <["open" := Num 99]> (<["high" := Num 101]> (<["low" := Num 98]>
    (<["close" := Num 100]> (<["volume" := Num 1000]> (<["atr" := Num 2]>
      (<["macd_line" := Num 1]> (<["macd_signal" := Num 0.5]>
        (<["rsi_14" := Num 50]> (<["bb_lower" := Num 90]>
          (<["bb_upper" := Num 110]> ∅)))))))))).
Definition macd_signal : Signal :=
  Eval vm_compute in
    match MacdRsiStrategy.generate_signals (MacdRsiStrategy.__init__ empty_config)
            {["primary" := macd_frame]} with
    | Ok (s :: _) => s
    | _ => mkSignal "" HOLD NaN NaN ∅ "" None None None
    end.

(** * Lemmas *)

(** ** Floats *)

Lemma Qlt_bool_iff x y : Qlt_bool x y = true ↔ x < y.
Proof.
  unfold Qlt_bool. rewrite negb_true_iff, <- not_true_iff_false, Qle_bool_iff.
  split; [apply Qnot_le_lt | apply Qlt_not_le].
Qed.

Lemma fle_Num x y : (Num x <=? Num y)%F = true ↔ x <= y.
Proof. apply Qle_bool_iff. Qed.
Lemma flt_Num x y : (Num x <? Num y)%F = true ↔ x < y.
Proof. apply Qlt_bool_iff. Qed.

Lemma fle_true a b :
  (a <=? b)%F = true → ∃ x y, a = Num x ∧ b = Num y ∧ x <= y.
Proof.
  destruct a as [x|], b as [y|]; simpl; try discriminate.
  intros H. exists x, y. by rewrite <- Qle_bool_iff.
Qed.
Lemma flt_true a b :
  (a <? b)%F = true → ∃ x y, a = Num x ∧ b = Num y ∧ x < y.
Proof.
  destruct a as [x|], b as [y|]; simpl; try discriminate.
  intros H. exists x, y. by rewrite <- Qlt_bool_iff.
Qed.

Lemma py_min_Num x y : py_min (Num x) (Num y) = Num (Qmin x y).
Proof.
  unfold py_min. simpl. destruct (Qlt_bool y x) eqn:E.
  - apply Qlt_bool_iff in E. f_equal. unfold Qmin, GenericMinMax.gmin.
    destruct (x ?= y) eqn:C; try reflexivity.
    + apply Qeq_alt in C. rewrite C in E. by apply Qlt_irrefl in E.
    + apply Qlt_alt in C. exfalso. apply (Qlt_irrefl x). by apply Qlt_trans with y.
  - f_equal. unfold Qmin, GenericMinMax.gmin.
    destruct (x ?= y) eqn:C; try reflexivity.
    apply Qgt_alt in C. apply Qlt_bool_iff in C. congruence.
Qed.
Lemma py_max_Num x y : py_max (Num x) (Num y) = Num (Qmax x y).
Proof.
  unfold py_max, fgt. simpl. destruct (Qlt_bool x y) eqn:E.
  - apply Qlt_bool_iff in E. f_equal. unfold Qmax, GenericMinMax.gmax.
    destruct (x ?= y) eqn:C; try reflexivity.
    + apply Qeq_alt in C. rewrite C in E. by apply Qlt_irrefl in E.
    + apply Qgt_alt in C. exfalso. apply (Qlt_irrefl x). by apply Qlt_trans with y.
  - f_equal. unfold Qmax, GenericMinMax.gmax.
    destruct (x ?= y) eqn:C; try reflexivity.
    apply Qlt_alt in C. apply Qlt_bool_iff in C. congruence.
Qed.

(** ** The state monad *)

Lemma bind_run {S A B} (m : St S A) (f : A → St S B) s a s' :
  m s = (Ok a, s') → (m ≫= f) s = f a s'.
Proof. intros H. unfold mbind, St_bind. by rewrite H. Qed.
Lemma bind_raise {S A B} (m : St S A) (f : A → St S B) s e s' :
  m s = (Raise e, s') → (m ≫= f) s = (Raise e, s').
Proof. intros H. unfold mbind, St_bind. by rewrite H. Qed.

Lemma wp_bind {S A B} (m : St S A) (f : A → St S B) s Q :
  wp m s (λ a s', wp (f a) s' Q) → wp (m ≫= f) s Q.
Proof.
  unfold wp, mbind, St_bind. destruct (m s) as [[a|e] s']; [done | done].
Qed.
Lemma wp_ret {S A} (a : A) (s : S) Q : Q a s → wp (mret a) s Q.
Proof. done. Qed.
Lemma wp_mono {S A} (m : St S A) s (Q Q' : A → S → Prop) :
  wp m s Q → (∀ a s', Q a s' → Q' a s') → wp m s Q'.
Proof. unfold wp. destruct (m s) as [[a|e] s']; [eauto | done]. Qed.

(** ** Frames: cells and columns *)

Lemma set_col_len c s d : df_len (set_col c s d) = df_len d.
Proof. done. Qed.
Lemma set_cell_len c i x d : df_len (set_cell c i x d) = df_len d.
Proof. done. Qed.

Lemma set_col_wf c s d : df_wf d → length s = df_len d → df_wf (set_col c s d).
Proof.
  intros Hwf Hs c' s'. simpl. destruct (decide (c = c')) as [->|Hne].
  - rewrite lookup_insert_eq. by intros [= <-].
  - rewrite lookup_insert_ne by done. apply Hwf.
Qed.
Lemma set_cell_wf c i x d : df_wf d → df_wf (set_cell c i x d).
Proof.
  intros Hwf. apply set_col_wf; [done|]. rewrite length_insert.
  destruct (df_cols d !! c) as [s|] eqn:E; simpl.
  - by apply Hwf in E.
  - apply length_replicate.
Qed.

Lemma set_col_has c s d c' :
  is_Some (df_cols d !! c') → is_Some (df_cols (set_col c s d) !! c').
Proof.
  intros H. simpl. destruct (decide (c = c')) as [->|Hne].
  - rewrite lookup_insert_eq. eauto.
  - by rewrite lookup_insert_ne.
Qed.
Lemma set_col_has_eq c s d : is_Some (df_cols (set_col c s d) !! c).
Proof. simpl. rewrite lookup_insert_eq. eauto. Qed.
Lemma set_cell_has c i x d c' :
  is_Some (df_cols d !! c') → is_Some (df_cols (set_cell c i x d) !! c').
Proof. apply set_col_has. Qed.

Lemma column_set_col_eq c s d : column (set_col c s d) c = s.
Proof. unfold column. simpl. by rewrite lookup_insert_eq. Qed.
Lemma column_set_col_ne c s d c' : c ≠ c' → column (set_col c s d) c' = column d c'.
Proof. intros. unfold column. simpl. by rewrite lookup_insert_ne. Qed.

Lemma cell_column d c i : cell d c i = default NaN (column d c !! i).
Proof. unfold cell, column. by destruct (df_cols d !! c). Qed.

Lemma cell_set_cell_eq c i x d :
  df_wf d → (i < df_len d)%nat → cell (set_cell c i x d) c i = x.
Proof.
  intros Hwf Hi. unfold cell, set_cell. simpl. rewrite lookup_insert_eq. simpl.
  rewrite list_lookup_insert_eq; [done|].
  destruct (df_cols d !! c) as [s|] eqn:E; simpl.
  - apply Hwf in E. lia.
  - by rewrite length_replicate.
Qed.
Lemma cell_set_cell_ne c i x d c' j :
  c ≠ c' ∨ i ≠ j → cell (set_cell c i x d) c' j = cell d c' j.
Proof.
  intros H. unfold cell, set_cell. simpl.
  destruct (decide (c = c')) as [->|Hne].
  - destruct H as [?|Hij]; [done|]. rewrite lookup_insert_eq. simpl.
    rewrite list_lookup_insert_ne by done.
    destruct (df_cols d !! c') as [s|]; simpl; [done|].
    destruct (replicate (df_len d) NaN !! j) as [y|] eqn:E; [|done].
    by apply lookup_replicate in E as [-> _].
  - by rewrite lookup_insert_ne.
Qed.

(** ** Computations on one frame of the store *)

Lemma wpf_bind {A B} l (m : M A) (f : A → M B) d Q :
  wpf l m d (λ a d', wpf l (f a) d' Q) → wpf l (m ≫= f) d Q.
Proof.
  intros H h Hh. destruct (H h Hh) as (a & d' & Hm & Hf).
  destruct (Hf (<[l := d']> h)) as (b & d'' & Hfa & HQ); [apply lookup_insert_eq|].
  exists b, d''. split; [|done].
  rewrite (bind_run _ _ _ _ _ Hm), Hfa. by rewrite insert_insert_eq.
Qed.
Lemma wpf_ret {A} l (a : A) d (Q : A → DataFrame → Prop) : Q a d → wpf l (mret a) d Q.
Proof. intros HQ h Hh. exists a, d. split; [|done]. by rewrite insert_id. Qed.
Lemma wpf_mono {A} l (m : M A) d (Q Q' : A → DataFrame → Prop) :
  wpf l m d Q → (∀ a d', Q a d' → Q' a d') → wpf l m d Q'.
Proof. intros H HQ h Hh. destruct (H h Hh) as (a & d' & ? & ?). eauto. Qed.

Lemma wpf_when l (b : bool) (m : M unit) d Q :
  (b = true → wpf l m d Q) → (b = false → Q tt d) → wpf l (when b m) d Q.
Proof. destruct b; simpl; intros H1 H2; [by apply H1 | by apply wpf_ret, H2]. Qed.

Lemma wpf_len l d (Q : nat → DataFrame → Prop) : Q (df_len d) d → wpf l (len l) d Q.
Proof.
  intros HQ h Hh. exists (df_len d), d. split; [|done].
  unfold len, read_frame, mbind, St_bind. rewrite Hh. simpl. by rewrite insert_id.
Qed.
Lemma wpf_has_column l c d (Q : bool → DataFrame → Prop) :
  Q (bool_decide (is_Some (df_cols d !! c))) d → wpf l (has_column l c) d Q.
Proof.
  intros HQ h Hh. eexists _, d. split; [|exact HQ].
  unfold has_column, read_frame, mbind, St_bind. rewrite Hh. simpl. by rewrite insert_id.
Qed.
Lemma wpf_getitem l c d (Q : list float → DataFrame → Prop) :
  is_Some (df_cols d !! c) → Q (column d c) d → wpf l (getitem l c) d Q.
Proof.
  intros [s Hs] HQ h Hh. exists s, d. split.
  - unfold getitem, read_frame, mbind, St_bind. rewrite Hh, Hs. simpl. by rewrite insert_id.
  - unfold column in HQ. by rewrite Hs in HQ.
Qed.
Lemma wpf_setitem l c s d (Q : unit → DataFrame → Prop) :
  Q tt (set_col c s d) → wpf l (setitem l c s) d Q.
Proof.
  intros HQ h Hh. exists tt, (set_col c s d). split; [|done].
  unfold setitem, read_frame, write_frame, mbind, St_bind. by rewrite Hh.
Qed.
Lemma wpf_setitem_scalar l c x d (Q : unit → DataFrame → Prop) :
  Q tt (set_col c (replicate (df_len d) x) d) → wpf l (setitem_scalar l c x) d Q.
Proof.
  intros HQ h Hh. eexists tt, _. split; [|exact HQ].
  unfold setitem_scalar, read_frame, write_frame, mbind, St_bind. by rewrite Hh.
Qed.
Lemma wpf_loc_get l i c d (Q : float → DataFrame → Prop) :
  df_wf d → is_Some (df_cols d !! c) → (i < df_len d)%nat →
  Q (cell d c i) d → wpf l (loc_get l i c) d Q.
Proof.
  intros Hwf [s Hs] Hi HQ h Hh.
  assert (is_Some (s !! i)) as [x Hx].
  { apply lookup_lt_is_Some. apply Hwf in Hs. lia. }
  exists x, d. split.
  - unfold loc_get, read_frame, mbind, St_bind. rewrite Hh.
    rewrite bool_decide_eq_true_2 by done. rewrite Hs, Hx. simpl. by rewrite insert_id.
  - unfold cell in HQ. rewrite Hs in HQ. simpl in HQ. by rewrite Hx in HQ.
Qed.
Lemma wpf_loc_set l i c x d (Q : unit → DataFrame → Prop) :
  (i < df_len d)%nat → Q tt (set_cell c i x d) → wpf l (loc_set l i c x) d Q.
Proof.
  intros Hi HQ h Hh. eexists tt, _. split; [|exact HQ].
  unfold loc_set, read_frame, write_frame, mbind, St_bind. rewrite Hh.
  by rewrite bool_decide_eq_true_2 by done.
Qed.

Lemma wpf_for_each {T} l (xs : list T) (body : T → M unit)
    (g : T → DataFrame → DataFrame) (Inv : DataFrame → Prop) :
  (∀ x d, x ∈ xs → Inv d → wpf l (body x) d (λ _ d', d' = g x d ∧ Inv d')) →
  ∀ d, Inv d →
    wpf l (for_each xs body) d (λ _ d', d' = foldl (λ d x, g x d) d xs ∧ Inv d').
Proof.
  induction xs as [|x xs IH]; intros Hbody d Hd; simpl.
  - by apply wpf_ret.
  - apply wpf_bind. eapply wpf_mono.
    + apply Hbody; [left | done].
    + intros _ d' [-> Hd']. simpl. apply IH; [|done].
      intros y d0 Hy. apply Hbody. by right.
Qed.

(** Running a computation on the copy of a frame. *)
Lemma copy_run l h d :
  h !! l = Some d → copy l h = (Ok (fresh (dom h)), <[fresh (dom h) := d]> h).
Proof. intros Hh. unfold copy, read_frame, alloc, mbind, St_bind. by rewrite Hh. Qed.

Lemma fresh_lookup (h : gmap loc DataFrame) : h !! fresh (dom h) = None.
Proof. apply not_elem_of_dom, is_fresh. Qed.

Lemma wp_copy_then {A} l (k : loc → M A) h d (Q : A → gmap loc DataFrame → Prop) :
  h !! l = Some d →
  wpf (fresh (dom h)) (k (fresh (dom h))) d
    (λ a d', Q a (<[fresh (dom h) := d']> h)) →
  wp (copy l ≫= k) h Q.
Proof.
  intros Hh Hk. unfold wp. rewrite (bind_run _ _ _ _ _ (copy_run _ _ _ Hh)).
  destruct (Hk (<[fresh (dom h) := d]> h)) as (a & d' & Hrun & HQ).
  { apply lookup_insert_eq. }
  by rewrite Hrun, insert_insert_eq.
Qed.

Lemma wp_eq {S A} (m : St S A) s a0 s0 :
  wp m s (λ a s', a = a0 ∧ s' = s0) → m s = (Ok a0, s0).
Proof. unfold wp. destruct (m s) as [[a|e] s']; [by intros [-> ->] | done]. Qed.

(** ** [calculate_atr] computes [atr_frame] *)

Lemma calculate_atr_run l period h d :
  h !! l = Some d → has_ohlc d →
  calculate_atr l period h
  = (Ok (fresh (dom h)), <[fresh (dom h) := atr_frame period d]> h).
Proof.
  intros Hh (Hhi & Hlo & Hcl). apply wp_eq. unfold calculate_atr.
  eapply wp_copy_then; [exact Hh|].
  repeat (apply wpf_bind; apply wpf_getitem; [done|]).
  apply wpf_bind, wpf_setitem. by apply wpf_ret.
Qed.

(** ** The SuperTrend loop computes [st_scan] *)

Lemma st_ok_set_cell U L c i x d : st_ok U L d → st_ok U L (set_cell c i x d).
Proof.
  intros (Hwf & ? & ? & ? & ? & ?).
  repeat split; [by apply set_cell_wf | by apply set_cell_has ..].
Qed.

Lemma wpf_bind_post {A B} l (m : M A) (f : A → M B) d
    (R : A → DataFrame → Prop) (Q : B → DataFrame → Prop) :
  wpf l m d R → (∀ a d', R a d' → wpf l (f a) d' Q) → wpf l (m ≫= f) d Q.
Proof. intros Hm Hf. apply wpf_bind. eapply wpf_mono; [exact Hm|]. exact Hf. Qed.

Lemma wpf_if {A} l (b : bool) (m1 m2 : M A) d Q :
  (b = true → wpf l m1 d Q) → (b = false → wpf l m2 d Q) →
  wpf l (if b then m1 else m2) d Q.
Proof. destruct b; eauto. Qed.

Lemma rolling_mean_length w s : length (rolling_mean w s) = length s.
Proof. unfold rolling_mean. by rewrite length_fmap, length_seq. Qed.

Lemma shift_length s : length (shift s) = length s.
Proof.
  destruct s as [|x s]; [done|]. simpl. rewrite length_take, Nat.sub_0_r.
  simpl. f_equal. lia.
Qed.

Lemma true_range_length high low close n :
  length high = n → length low = n → length close = n →
  length (true_range high low close) = n.
Proof.
  intros Hh Hl Hc. unfold true_range, np_max_axis1, concat3, np_abs, series_sub.
  rewrite length_fmap, !length_zip_with, !length_fmap, !length_zip_with, shift_length.
  lia.
Qed.

Lemma series_add_length a b : length (series_add a b) = (length a `min` length b)%nat.
Proof. apply length_zip_with. Qed.
Lemma series_sub_length a b : length (series_sub a b) = (length a `min` length b)%nat.
Proof. apply length_zip_with. Qed.
Lemma series_scale_length k a : length (series_scale k a) = length a.
Proof. apply length_fmap. Qed.
Lemma series_div_scalar_length a k : length (series_div_scalar a k) = length a.
Proof. apply length_fmap. Qed.

Lemma column_length d c : df_wf d → is_Some (df_cols d !! c) → length (column d c) = df_len d.
Proof. intros Hwf [s Hs]. unfold column. rewrite Hs. simpl. by apply Hwf in Hs. Qed.

Lemma atr_frame_wf period d : df_wf d → has_ohlc d → df_wf (atr_frame period d).
Proof.
  intros Hwf (Hh & Hl & Hc). apply set_col_wf; [done|].
  rewrite rolling_mean_length.
  apply true_range_length; by apply column_length.
Qed.
Lemma atr_frame_has period d c :
  is_Some (df_cols d !! c) → is_Some (df_cols (atr_frame period d) !! c).
Proof. apply set_col_has. Qed.

Lemma st_init_ok U L multiplier a d :
  df_wf d → has_ohlc d → is_Some (df_cols d !! a) →
  st_ok U L (st_init U L multiplier a d) ∧ df_len (st_init U L multiplier a d) = df_len d.
Proof.
  intros Hwf (Hh & Hl & Hc) Ha. split; [|done].
  assert (length (series_div_scalar (series_add (column d "high") (column d "low")) (Num 2))
          = df_len d) as Hhl2.
  { rewrite series_div_scalar_length, series_add_length.
    rewrite !column_length by done. lia. }
  unfold st_init.
  set (d1 := set_col U _ d).
  assert (df_wf d1) as Hwf1.
  { apply set_col_wf; [done|].
    rewrite series_add_length, series_scale_length, Hhl2, column_length by done. lia. }
  set (d2 := set_col L _ d1).
  assert (df_wf d2) as Hwf2.
  { apply set_col_wf; [done|].
    rewrite series_sub_length, series_scale_length, Hhl2.
    rewrite column_length; [simpl; lia | done | by apply set_col_has]. }
  set (d3 := set_col "supertrend" _ d2).
  assert (df_wf d3) as Hwf3.
  { apply set_col_wf; [done|]. by rewrite length_replicate. }
  repeat split.
  - apply set_col_wf; [done|]. by rewrite length_replicate.
  - by repeat apply set_col_has.
  - do 3 apply set_col_has. apply set_col_has_eq.
  - do 2 apply set_col_has. apply set_col_has_eq.
  - apply set_col_has_eq.
  - apply set_col_has. apply set_col_has_eq.
Qed.

Lemma wpf_bind_when {B} l (b : bool) (m : M unit) (f : unit → M B) d d1
    (Q : B → DataFrame → Prop) :
  (b = true → wpf l m d (λ _ d', d' = d1)) →
  wpf l (f tt) (if b then d1 else d) Q →
  wpf l (when b m ≫= f) d Q.
Proof.
  intros Hm Hf. eapply wpf_bind_post with (R := λ _ d', d' = if b then d1 else d).
  - apply wpf_when; intros ->; [by apply Hm | done].
  - by intros [] d' ->.
Qed.

Lemma wpf_bind_set {B} l (m : M unit) (f : unit → M B) d d1
    (Q : B → DataFrame → Prop) :
  wpf l m d (λ _ d', d' = d1) → wpf l (f tt) d1 Q → wpf l (m ≫= f) d Q.
Proof.
  intros Hm Hf. eapply wpf_bind_post; [exact Hm|]. by intros [] d' ->.
Qed.

(** Symbolic execution of one loop iteration on a frame [d] with [st_ok]:
    the two band updates, the direction and the line. *)
Ltac st_get Hok :=
  apply wpf_bind; apply wpf_loc_get; [ apply Hok | apply Hok | lia | ].
Ltac st_set := apply wpf_loc_set; [lia|].
Ltac st_name U L d0 d1 Hok1 Hlen1 :=
  match goal with
  | |- wpf _ _ ?D _ =>
      set (d1 := D);
      assert (st_ok U L d1 ∧ df_len d1 = df_len d0) as [Hok1 Hlen1]
        by (subst d1;
            first [ by (split; [apply st_ok_set_cell|])
                  | match goal with
                    | |- context [if ?b then _ else _] => destruct b
                    end;
                    [split; [by apply st_ok_set_cell | done] | done] ]);
      clearbody d1
  end.
Ltac st_iteration U L d Hok :=
  let d1 := fresh "d1" in let Hok1 := fresh "Hok1" in let Hlen1 := fresh "Hlen1" in
  let d2 := fresh "d2" in let Hok2 := fresh "Hok2" in let Hlen2 := fresh "Hlen2" in
  let d3 := fresh "d3" in let Hok3 := fresh "Hok3" in let Hlen3 := fresh "Hlen3" in
  let Hb := fresh "Hb" in let Hb' := fresh "Hb" in
  unfold st_body;
  (* upper band *)
  st_get Hok; st_get Hok;
  eapply wpf_bind_when; [intros _; st_get Hok; st_get Hok; st_set; reflexivity|];
  st_name U L d d1 Hok1 Hlen1;
  (* lower band *)
  st_get Hok1; st_get Hok1;
  eapply wpf_bind_when; [intros _; st_get Hok1; st_get Hok1; st_set; reflexivity|];
  st_name U L d1 d2 Hok2 Hlen2;
  (* direction *)
  st_get Hok2; st_get Hok2;
  match goal with
  | |- wpf _ _ _ (λ _ d', d' = (if (cell ?D3 _ _ =? _)%F then _ else _) ∧ _) =>
      eapply (wpf_bind_set _ _ _ _ D3)
  end;
  [ apply wpf_if; intros Hb; rewrite Hb;
    [ st_set; reflexivity
    | st_get Hok2; st_get Hok2; apply wpf_if; intros Hb'; rewrite Hb';
      [ st_set; reflexivity | st_get Hok2; st_set; reflexivity ] ]
  | ];
  st_name U L d2 d3 Hok3 Hlen3;
  (* line *)
  st_get Hok3;
  apply wpf_if; intros Hb; rewrite Hb; st_get Hok3; st_set;
  (split; [reflexivity | split; [by apply st_ok_set_cell | simpl; lia]]).

Lemma strategy_calculate_supertrend_run self l h d :
  h !! l = Some d → df_wf d → has_ohlc d →
  SuperTrendStrategy._calculate_supertrend self l h
  = (Ok (fresh (dom h)), <[fresh (dom h) := strategy_supertrend_frame self d]> h).
Proof.
  intros Hh Hwf (Hhi & Hlo & Hcl). apply wp_eq.
  unfold SuperTrendStrategy._calculate_supertrend.
  eapply wp_copy_then; [exact Hh|].
  set (l1 := fresh (dom h)). clearbody l1.
  apply wpf_bind, wpf_has_column.
  eapply (wpf_bind_set _ _ _ _
    (if bool_decide (is_Some (df_cols d !! "atr")) then d
     else atr_frame (SuperTrendStrategy.period self) d)).
  { apply wpf_when; intros Hb.
    - repeat (apply wpf_bind; apply wpf_getitem; [done|]).
      apply wpf_setitem. apply negb_true_iff in Hb. by rewrite Hb.
    - apply negb_false_iff in Hb. by rewrite Hb. }
  unfold strategy_supertrend_frame.
  set (d0 := if bool_decide _ then d else _).
  assert (df_wf d0 ∧ has_ohlc d0 ∧ is_Some (df_cols d0 !! "atr")) as (Hwf0 & Ho0 & Ha0).
  { subst d0. case_bool_decide as Ha; [done|].
    split; [by apply atr_frame_wf|]. split; [|apply set_col_has_eq].
    repeat split; by apply atr_frame_has. }
  clearbody d0. destruct Ho0 as (Hhi0 & Hlo0 & Hcl0).
  do 3 (apply wpf_bind, wpf_getitem; [done|]).
  apply wpf_bind, wpf_setitem.
  apply wpf_bind, wpf_getitem; [by apply set_col_has|].
  apply wpf_bind, wpf_setitem.
  do 2 apply wpf_bind, wpf_setitem_scalar.
  apply wpf_bind, wpf_len.
  change (set_col "supertrend_direction" _ _)
    with (st_init "upperband" "lowerband" (SuperTrendStrategy.multiplier self) "atr" d0).
  destruct (st_init_ok "upperband" "lowerband" (SuperTrendStrategy.multiplier self) "atr" d0)
    as [Hok Hlen]; [done..|].
  unfold st_scan. set (di := st_init _ _ _ _ d0) in *. clearbody di.
  eapply wpf_bind_post.
  { unfold for_range.
    apply (wpf_for_each l1 _ _ (st_body "upperband" "lowerband")
             (λ d', st_ok "upperband" "lowerband" d' ∧ df_len d' = df_len di)); [|done].
    clear. intros i d Hi [Hok Hlen]. apply elem_of_seq in Hi.
    st_iteration "upperband" "lowerband" d Hok. }
  intros _ d' [-> _]. by apply wpf_ret.
Qed.

Lemma has_column_run l c h d :
  h !! l = Some d →
  has_column l c h = (Ok (bool_decide (is_Some (df_cols d !! c))), h).
Proof. intros Hh. unfold has_column, read_frame, mbind, St_bind. by rewrite Hh. Qed.

Lemma calculate_supertrend_run l period multiplier a h d :
  h !! l = Some d → df_wf d → has_ohlc d →
  ∃ l' h',
    calculate_supertrend l period multiplier a h = (Ok l', h')
    ∧ h' !! l' = Some (supertrend_frame period multiplier a d)
    ∧ h ⊆ h' ∧ h !! l' = None.
Proof.
  intros Hh Hwf Hohlc. unfold calculate_supertrend.
  rewrite (bind_run _ _ _ _ _ (copy_run _ _ _ Hh)).
  pose proof (fresh_lookup h) as Hl1.
  set (l1 := fresh (dom h)) in *. clearbody l1.
  assert ((<[l1 := d]> h) !! l1 = Some d) as Hh1 by apply lookup_insert_eq.
  assert (h ⊆ <[l1 := d]> h) as Hsub1 by (by apply insert_subseteq).
  set (h1 := <[l1 := d]> h) in *. clearbody h1.
  rewrite (bind_run _ _ _ _ _ (has_column_run _ a _ _ Hh1)).
  unfold supertrend_frame.
  set (b := bool_decide (is_Some (df_cols d !! a))).
  (* the frame and the ATR column the loop works with *)
  match goal with
  | |- ∃ l' h', (?br ≫= _) h1 = _ ∧ _ =>
      assert (∃ lX aX hX d0,
        br h1 = (Ok (lX, aX), hX) ∧ hX !! lX = Some d0 ∧ h ⊆ hX ∧ h !! lX = None
        ∧ (if b then (d, a) else (atr_frame period d, "atr")) = (d0, aX)
        ∧ df_wf d0 ∧ has_ohlc d0 ∧ is_Some (df_cols d0 !! aX))
        as (lX & aX & hX & d0 & Hbr & HhX & HsubX & HlX & Hd0 & Hwf0 & Ho0 & Ha0)
  end.
  { subst b. case_bool_decide as Hb; simpl.
    - by exists l1, a, h1, d.
    - exists (fresh (dom h1)), "atr", (<[fresh (dom h1) := atr_frame period d]> h1),
        (atr_frame period d).
      split; [by rewrite (bind_run _ _ _ _ _ (calculate_atr_run _ period _ _ Hh1 Hohlc))|].
      split; [apply lookup_insert_eq|].
      split; [etrans; [exact Hsub1 | apply insert_subseteq, fresh_lookup]|].
      split.
      { destruct (h !! fresh (dom h1)) as [x|] eqn:E; [|done].
        eapply lookup_weaken in E; [|exact Hsub1]. by rewrite fresh_lookup in E. }
      split; [done|]. split; [by apply atr_frame_wf|].
      split; [|apply set_col_has_eq].
      destruct Hohlc as (? & ? & ?). repeat split; by apply atr_frame_has. }
  rewrite (bind_run _ _ _ _ _ Hbr). rewrite Hd0. clear Hbr Hd0.
  destruct Ho0 as (Hhi0 & Hlo0 & Hcl0).
  match goal with
  | |- ∃ l' h', ?m hX = _ ∧ _ =>
      assert (wpf lX m d0 (λ l' d', l' = lX ∧
        d' = st_scan "supertrend_upperband" "supertrend_lowerband"
               (st_init "supertrend_upperband" "supertrend_lowerband" multiplier aX d0)))
        as Hwpf
  end.
  { do 3 (apply wpf_bind, wpf_getitem; [done|]).
    apply wpf_bind, wpf_setitem.
    apply wpf_bind, wpf_getitem; [by apply set_col_has|].
    apply wpf_bind, wpf_setitem.
    do 2 apply wpf_bind, wpf_setitem_scalar.
    apply wpf_bind, wpf_len.
    change (set_col "supertrend_direction" _ _)
      with (st_init "supertrend_upperband" "supertrend_lowerband" multiplier aX d0).
    destruct (st_init_ok "supertrend_upperband" "supertrend_lowerband" multiplier aX d0)
      as [Hok Hlen]; [done..|].
    unfold st_scan. set (di := st_init _ _ _ _ d0) in *. clearbody di.
    eapply wpf_bind_post.
    { unfold for_range.
      apply (wpf_for_each lX _ _ (st_body "supertrend_upperband" "supertrend_lowerband")
               (λ d', st_ok "supertrend_upperband" "supertrend_lowerband" d'
                      ∧ df_len d' = df_len di)); [|done].
      clear. intros i d Hi [Hok Hlen]. apply elem_of_seq in Hi.
      st_iteration "supertrend_upperband" "supertrend_lowerband" d Hok. }
    intros _ d' [-> _]. by apply wpf_ret. }
  destruct (Hwpf hX HhX) as (l' & d' & Hrun & -> & ->).
  eexists _, _. split; [exact Hrun|].
  split; [apply lookup_insert_eq|]. split; [|done].
  by apply insert_subseteq_r.
Qed.

(** ** One iteration, cell by cell *)

Lemma upd_wf (b : bool) c i x d :
  df_wf d → df_wf (if b then set_cell c i x d else d).
Proof. destruct b; [apply set_cell_wf | done]. Qed.
Lemma upd_len (b : bool) c i x d :
  df_len (if b then set_cell c i x d else d) = df_len d.
Proof. by destruct b. Qed.
Lemma cell_upd_eq (b : bool) c i x d :
  df_wf d → (i < df_len d)%nat →
  cell (if b then set_cell c i x d else d) c i = if b then x else cell d c i.
Proof. destruct b; [apply cell_set_cell_eq | done]. Qed.
Lemma cell_upd_ne (b : bool) c i x d c' j :
  c ≠ c' ∨ i ≠ j → cell (if b then set_cell c i x d else d) c' j = cell d c' j.
Proof. destruct b; [apply cell_set_cell_ne | done]. Qed.

Ltac frame_wf := by repeat first [apply set_cell_wf | apply upd_wf].
Ltac frame_lt := repeat first [rewrite upd_len | rewrite set_cell_len]; lia.
Ltac cell_ne := first [left; done | right; lia].
Ltac cell_simpl :=
  repeat first
    [ rewrite cell_set_cell_eq by first [frame_wf | frame_lt]
    | rewrite cell_upd_eq by first [frame_wf | frame_lt]
    | rewrite cell_set_cell_ne by cell_ne
    | rewrite cell_upd_ne by cell_ne ].

Lemma cell_at d c i : cell d c i = at_row (column d c) i.
Proof. apply cell_column. Qed.
Lemma cell_set_col_eq c s d i : cell (set_col c s d) c i = at_row s i.
Proof. by rewrite cell_at, column_set_col_eq. Qed.
Lemma cell_set_col_ne c s d c' i : c ≠ c' → cell (set_col c s d) c' i = cell d c' i.
Proof. intros. by rewrite !cell_at, column_set_col_ne. Qed.

Lemma at_row_series_add a b i :
  at_row (series_add a b) i = (at_row a i + at_row b i)%F.
Proof.
  unfold at_row, series_add. rewrite lookup_zip_with.
  destruct (a !! i) as [x|], (b !! i) as [y|]; simpl; try done. by destruct x.
Qed.
Lemma at_row_series_sub a b i :
  at_row (series_sub a b) i = (at_row a i - at_row b i)%F.
Proof.
  unfold at_row, series_sub. rewrite lookup_zip_with.
  destruct (a !! i) as [x|], (b !! i) as [y|]; simpl; try done. by destruct x.
Qed.
Lemma at_row_series_scale k a i :
  at_row (series_scale k a) i = (k * at_row a i)%F.
Proof.
  unfold at_row, series_scale. rewrite list_lookup_fmap.
  destruct (a !! i) as [x|]; simpl; [done|]. by destruct k.
Qed.
Lemma at_row_series_div_scalar a k i :
  at_row (series_div_scalar a k) i = (at_row a i / k)%F.
Proof.
  unfold at_row, series_div_scalar. rewrite list_lookup_fmap.
  by destruct (a !! i) as [x|].
Qed.
Lemma at_row_replicate n x i : (i < n)%nat → at_row (replicate n x) i = x.
Proof. intros Hi. unfold at_row. by rewrite lookup_replicate_2. Qed.

Lemma supertrend_recurrence_ext n close close' bu bu' bl bl' ub lb dir st :
  (∀ i, close i = close' i) → (∀ i, bu i = bu' i) → (∀ i, bl i = bl' i) →
  supertrend_recurrence n close bu bl ub lb dir st →
  supertrend_recurrence n close' bu' bl' ub lb dir st.
Proof.
  intros Hc Hu Hl (H0 & H1 & H2 & Hrec). unfold supertrend_recurrence.
  rewrite <- Hu, <- Hl. do 3 (split; [done|]).
  intros i Hi. rewrite <- !Hc, <- Hu, <- Hl. by apply Hrec.
Qed.

Section Iteration.
Variables U L : string.
Hypothesis names : band_names U L.

Lemma st_body_ok i d : st_ok U L d → st_ok U L (st_body U L i d).
Proof.
  intros Hok. unfold st_body.
  repeat match goal with
         | |- context [if ?b then _ else _] => destruct b
         end; by repeat apply st_ok_set_cell.
Qed.
Lemma st_body_len i d : df_len (st_body U L i d) = df_len d.
Proof.
  unfold st_body.
  repeat match goal with
         | |- context [if ?b then _ else _] => destruct b
         end; done.
Qed.

Lemma st_body_cells i d :
  st_ok U L d → (1 ≤ i < df_len d)%nat →
  cell (st_body U L i d) U i = upper_at U d i
  ∧ cell (st_body U L i d) L i = lower_at L d i
  ∧ cell (st_body U L i d) "supertrend_direction" i = direction_at U L d i
  ∧ cell (st_body U L i d) "supertrend" i = line_at U L d i.
Proof.
  pose proof names as (UL & U_close & U_dir & U_st & L_close & L_dir & L_st).
  intros (Hwf & _) Hi.
  unfold st_body, line_at, direction_at, upper_at, lower_at.
  cell_simpl.
  match goal with
  | |- context [if (?x =? Num 1)%F then set_cell _ _ _ _ else _] =>
      destruct (x =? Num 1)%F
  end; cell_simpl; done.
Qed.

Lemma st_body_other i d c j :
  j ≠ i ∨ (c ≠ U ∧ c ≠ L ∧ c ≠ "supertrend_direction" ∧ c ≠ "supertrend") →
  cell (st_body U L i d) c j = cell d c j.
Proof.
  pose proof names as (UL & U_close & U_dir & U_st & L_close & L_dir & L_st).
  intros H. unfold st_body.
  assert (∀ c', (c' = U ∨ c' = L ∨ c' = "supertrend_direction" ∨ c' = "supertrend") →
          ∀ x d0, cell (set_cell c' i x d0) c j = cell d0 c j) as Hne.
  { intros c' Hc' x d0. apply cell_set_cell_ne.
    destruct H as [?|(? & ? & ? & ?)]; [by right|]. left.
    destruct Hc' as [-> | [-> | [-> | ->]]]; done. }
  repeat match goal with
         | |- context [if ?b then _ else _] => destruct b
         end; rewrite ?Hne by tauto; done.
Qed.

Lemma st_body_column i d c :
  c ≠ U → c ≠ L → c ≠ "supertrend_direction" → c ≠ "supertrend" →
  df_cols (st_body U L i d) !! c = df_cols d !! c.
Proof.
  intros. unfold st_body.
  repeat match goal with
         | |- context [if ?b then _ else _] => destruct b
         end; simpl; by rewrite ?lookup_insert_ne by done.
Qed.

(** The cells of the initial frame. *)
Lemma st_init_cells multiplier a d i :
  a ≠ U → (i < df_len d)%nat →
  let d0 := st_init U L multiplier a d in
  cell d0 U i = basic_upper multiplier (cell d "high" i) (cell d "low" i) (cell d a i)
  ∧ cell d0 L i = basic_lower multiplier (cell d "high" i) (cell d "low" i) (cell d a i)
  ∧ cell d0 "supertrend_direction" i = Num 1
  ∧ cell d0 "supertrend" i = Num 0
  ∧ ∀ j, cell d0 "close" j = cell d "close" j.
Proof.
  pose proof names as (UL & U_close & U_dir & U_st & L_close & L_dir & L_st).
  intros HaU Hi d0. subst d0. unfold st_init, basic_upper, basic_lower.
  repeat split.
  - rewrite !cell_set_col_ne, cell_set_col_eq by done.
    by rewrite at_row_series_add, at_row_series_div_scalar, at_row_series_add,
      at_row_series_scale, !cell_at.
  - rewrite !cell_set_col_ne, cell_set_col_eq by done.
    rewrite at_row_series_sub, at_row_series_div_scalar, at_row_series_add,
      at_row_series_scale, !cell_at.
    by rewrite column_set_col_ne by done.
  - rewrite cell_set_col_eq. by apply at_row_replicate.
  - rewrite cell_set_col_ne, cell_set_col_eq by done. by apply at_row_replicate.
  - intros j. by rewrite !cell_set_col_ne by done.
Qed.

Lemma scan_to_S k d : scan_to U L (S k) d = st_body U L (S k) (scan_to U L k d).
Proof. unfold scan_to. by rewrite seq_S, foldl_app. Qed.

Lemma scan_to_ok k d : st_ok U L d → st_ok U L (scan_to U L k d).
Proof.
  intros Hok. induction k as [|k IH]; [done|].
  rewrite scan_to_S. by apply st_body_ok.
Qed.
Lemma scan_to_len k d : df_len (scan_to U L k d) = df_len d.
Proof.
  induction k as [|k IH]; [done|]. by rewrite scan_to_S, st_body_len.
Qed.
Lemma scan_to_column k d c :
  c ≠ U → c ≠ L → c ≠ "supertrend_direction" → c ≠ "supertrend" →
  df_cols (scan_to U L k d) !! c = df_cols d !! c.
Proof.
  intros. induction k as [|k IH]; [done|].
  by rewrite scan_to_S, st_body_column.
Qed.

(** Rows beyond [k] still hold their initial values ... *)
Lemma scan_to_beyond k d c j :
  (k < j ∨ j = 0)%nat → cell (scan_to U L k d) c j = cell d c j.
Proof.
  intros Hj. induction k as [|k IH]; [done|].
  rewrite scan_to_S, st_body_other by (left; lia). apply IH. lia.
Qed.
(** ... and rows up to [k] are never written again. *)
Lemma scan_to_stable k k' d c j :
  (j ≤ k ≤ k')%nat → cell (scan_to U L k' d) c j = cell (scan_to U L k d) c j.
Proof.
  intros [Hj Hk]. induction Hk as [|k' Hk IH]; [done|].
  rewrite scan_to_S, st_body_other by (left; lia). exact IH.
Qed.

Lemma st_scan_scan_to d : st_scan U L d = scan_to U L (df_len d - 1) d.
Proof. done. Qed.

Lemma st_scan_close d j : cell (st_scan U L d) "close" j = cell d "close" j.
Proof.
  pose proof names as (UL & U_close & U_dir & U_st & L_close & L_dir & L_st).
  rewrite st_scan_scan_to, !cell_column. unfold column.
  by rewrite scan_to_column.
Qed.

Lemma st_scan_row0 d c : cell (st_scan U L d) c 0 = cell d c 0.
Proof. rewrite st_scan_scan_to. apply scan_to_beyond. by right. Qed.

(** The recurrence of the finished scan: row [i] from the basic bands at
    [i] and the finished row [i - 1]. *)
Lemma st_scan_recurrence d i :
  st_ok U L d → (1 ≤ i < df_len d)%nat →
  let F := st_scan U L d in
  cell F U i =
    (if (cell d "close" (i - 1) <=? cell F U (i - 1))%F
     then py_min (cell d U i) (cell F U (i - 1)) else cell d U i)
  ∧ cell F L i =
    (if (cell d "close" (i - 1) >=? cell F L (i - 1))%F
     then py_max (cell d L i) (cell F L (i - 1)) else cell d L i)
  ∧ cell F "supertrend_direction" i =
    (if (cell d "close" i >? cell F U (i - 1))%F then Num 1
     else if (cell d "close" i <? cell F L (i - 1))%F then Num (-1)
     else cell F "supertrend_direction" (i - 1))
  ∧ cell F "supertrend" i =
    (if (cell F "supertrend_direction" i =? Num 1)%F
     then cell F L i else cell F U i).
Proof.
  pose proof names as (UL & U_close & U_dir & U_st & L_close & L_dir & L_st).
  intros Hok Hi F. subst F. rewrite st_scan_scan_to.
  set (n := (df_len d - 1)%nat).
  destruct i as [|k]; [lia|].
  assert (∀ c, cell (scan_to U L n d) c (S k) = cell (scan_to U L (S k) d) c (S k)) as Hrow
    by (intros c; apply scan_to_stable; lia).
  assert (∀ c, cell (scan_to U L n d) c k = cell (scan_to U L k d) c k) as Hprev
    by (intros c; apply scan_to_stable; lia).
  rewrite !Hrow. replace (S k - 1)%nat with k by lia. rewrite !Hprev.
  destruct (st_body_cells (S k) (scan_to U L k d)) as (HU & HL & HD & HS).
  { by apply scan_to_ok. }
  { rewrite scan_to_len. lia. }
  rewrite scan_to_S, HU, HL, HD, HS.
  unfold line_at, direction_at, upper_at, lower_at.
  replace (S k - 1)%nat with k by lia.
  assert (∀ c, cell (scan_to U L k d) c (S k) = cell d c (S k)) as Hnew
    by (intros c; apply scan_to_beyond; lia).
  assert (∀ j, cell (scan_to U L k d) "close" j = cell d "close" j) as Hclose.
  { intros j. rewrite !cell_column. unfold column. by rewrite scan_to_column. }
  by rewrite !Hnew, !Hclose.
Qed.

(** The finished scan of the initial frame satisfies the recurrence of the
    specification. *)
Lemma st_scan_init_recurrence multiplier a d :
  df_wf d → has_ohlc d → is_Some (df_cols d !! a) → a ≠ U →
  (1 ≤ df_len d)%nat →
  let F := st_scan U L (st_init U L multiplier a d) in
  supertrend_recurrence (df_len d) (cell d "close")
    (λ i, basic_upper multiplier (cell d "high" i) (cell d "low" i) (cell d a i))
    (λ i, basic_lower multiplier (cell d "high" i) (cell d "low" i) (cell d a i))
    (cell F U) (cell F L) (cell F "supertrend_direction") (cell F "supertrend").
Proof.
  intros Hwf Hohlc Ha HaU Hn F. subst F.
  destruct (st_init_ok U L multiplier a d) as [Hok Hlen]; [done..|].
  destruct (st_init_cells multiplier a d 0) as (HU0 & HL0 & HD0 & _ & _); [done|lia|].
  unfold supertrend_recurrence. rewrite !st_scan_row0.
  split; [done|]. split; [done|]. split; [done|].
  intros i Hi.
  destruct (st_scan_recurrence (st_init U L multiplier a d) i) as (HU & HL & HD & HS);
    [done | lia |].
  destruct (st_init_cells multiplier a d i) as (HUi & HLi & _ & _ & Hclose); [done|lia|].
  rewrite !Hclose, HUi in HU. rewrite !Hclose, HLi in HL. rewrite !Hclose in HD.
  done.
Qed.
End Iteration.

(** ** The two loops agree *)

Lemma indicator_names : band_names "supertrend_upperband" "supertrend_lowerband".
Proof. by repeat split. Qed.




Lemma column_ext d1 d2 c :
  df_wf d1 → df_wf d2 → df_len d1 = df_len d2 →
  is_Some (df_cols d1 !! c) → is_Some (df_cols d2 !! c) →
  (∀ j, (j < df_len d1)%nat → cell d1 c j = cell d2 c j) →
  df_cols d1 !! c = df_cols d2 !! c.
Proof.
  intros Hwf1 Hwf2 Hlen [s1 Hs1] [s2 Hs2] Hcell. rewrite Hs1, Hs2. f_equal.
  pose proof (Hwf1 _ _ Hs1) as Hl1. pose proof (Hwf2 _ _ Hs2) as Hl2.
  apply list_eq. intros j. destruct (decide (j < df_len d1)%nat) as [Hj|Hj].
  - specialize (Hcell j Hj). unfold cell in Hcell. rewrite Hs1, Hs2 in Hcell.
    simpl in Hcell.
    destruct (lookup_lt_is_Some_2 s1 j) as [x Hx]; [lia|].
    destruct (lookup_lt_is_Some_2 s2 j) as [y Hy]; [lia|].
    rewrite Hx, Hy in *. simpl in Hcell. by subst.
  - by rewrite !lookup_ge_None_2 by lia.
Qed.


(** ** The store only grows: existing frames are never written *)

Lemma keeps_bind {A B} h0 (m : M A) (f : A → M B) (Q : A → Prop) (R : B → Prop) :
  keeps h0 m Q → (∀ a, Q a → keeps h0 (f a) R) → keeps h0 (m ≫= f) R.
Proof.
  intros Hm Hf h Hh. specialize (Hm h Hh). unfold mbind, St_bind.
  destruct (m h) as [[a|e] h1]; [|done].
  destruct Hm as [Hh1 HQ]. exact (Hf a HQ h1 Hh1).
Qed.
Lemma keeps_ret {A} h0 (a : A) (Q : A → Prop) : Q a → keeps h0 (mret a) Q.
Proof. intros HQ h Hh. by split. Qed.
Lemma keeps_raise {A} h0 e (Q : A → Prop) : keeps h0 (raise e) Q.
Proof. by intros h Hh. Qed.
Lemma keeps_mono {A} h0 (m : M A) (Q Q' : A → Prop) :
  keeps h0 m Q → (∀ a, Q a → Q' a) → keeps h0 m Q'.
Proof.
  intros Hm HQ h Hh. specialize (Hm h Hh).
  destruct (m h) as [[a|e] h1]; [|done]. destruct Hm. split; auto.
Qed.

Lemma keeps_read_frame h0 l : keeps h0 (read_frame l) (λ _, True).
Proof. intros h Hh. unfold read_frame. by destruct (h !! l). Qed.
Lemma keeps_write_frame h0 l d :
  h0 !! l = None → keeps h0 (write_frame l d) (λ _, True).
Proof. intros Hl h Hh. split; [|done]. by apply insert_subseteq_r. Qed.
Lemma keeps_alloc h0 d : keeps h0 (alloc d) (λ l', h0 !! l' = None).
Proof.
  intros h Hh. unfold alloc.
  assert (h0 !! fresh (dom h) = None) as Hf.
  { destruct (h0 !! fresh (dom h)) as [x|] eqn:E; [|done].
    eapply lookup_weaken in E; [|exact Hh]. by rewrite fresh_lookup in E. }
  split; [|done]. by apply insert_subseteq_r.
Qed.

Lemma keeps_copy h0 l : keeps h0 (copy l) (λ l', h0 !! l' = None).
Proof.
  eapply keeps_bind; [apply keeps_read_frame|]. intros d _. apply keeps_alloc.
Qed.
Lemma keeps_len h0 l : keeps h0 (len l) (λ _, True).
Proof.
  eapply keeps_bind; [apply keeps_read_frame|]. intros d _. by apply keeps_ret.
Qed.
Lemma keeps_has_column h0 l c : keeps h0 (has_column l c) (λ _, True).
Proof.
  eapply keeps_bind; [apply keeps_read_frame|]. intros d _. by apply keeps_ret.
Qed.
Lemma keeps_getitem h0 l c : keeps h0 (getitem l c) (λ _, True).
Proof.
  eapply keeps_bind; [apply keeps_read_frame|]. intros d _.
  destruct (df_cols d !! c); [by apply keeps_ret | apply keeps_raise].
Qed.
Lemma keeps_loc_get h0 l i c : keeps h0 (loc_get l i c) (λ _, True).
Proof.
  eapply keeps_bind; [apply keeps_read_frame|]. intros d _.
  case_bool_decide; [|apply keeps_raise].
  destruct (df_cols d !! c) as [s|]; [|apply keeps_raise].
  destruct (s !! i); [by apply keeps_ret | apply keeps_raise].
Qed.
Lemma keeps_setitem h0 l c s :
  h0 !! l = None → keeps h0 (setitem l c s) (λ _, True).
Proof.
  intros Hl. eapply keeps_bind; [apply keeps_read_frame|]. intros d _.
  by apply keeps_write_frame.
Qed.
Lemma keeps_setitem_scalar h0 l c x :
  h0 !! l = None → keeps h0 (setitem_scalar l c x) (λ _, True).
Proof.
  intros Hl. eapply keeps_bind; [apply keeps_read_frame|]. intros d _.
  by apply keeps_write_frame.
Qed.
Lemma keeps_loc_set h0 l i c x :
  h0 !! l = None → keeps h0 (loc_set l i c x) (λ _, True).
Proof.
  intros Hl. eapply keeps_bind; [apply keeps_read_frame|]. intros d _.
  case_bool_decide; [by apply keeps_write_frame | apply keeps_raise].
Qed.
Lemma keeps_when h0 (b : bool) (m : M unit) :
  keeps h0 m (λ _, True) → keeps h0 (when b m) (λ _, True).
Proof. destruct b; [done | intros _; by apply keeps_ret]. Qed.
Lemma keeps_for_each {T} h0 (xs : list T) (body : T → M unit) :
  (∀ x, keeps h0 (body x) (λ _, True)) → keeps h0 (for_each xs body) (λ _, True).
Proof.
  intros Hbody. induction xs as [|x xs IH]; simpl; [by apply keeps_ret|].
  eapply keeps_bind; [apply Hbody|]. by intros _ _.
Qed.

(** Every step of a program that works on a frame [l] outside [h0]. *)
Ltac keeps_step :=
  first
    [ apply keeps_getitem | apply keeps_loc_get | apply keeps_len
    | apply keeps_has_column
    | by apply keeps_setitem | by apply keeps_setitem_scalar | by apply keeps_loc_set
    | by apply keeps_ret
    | apply keeps_when
    | apply keeps_for_each; intros ?
    | eapply keeps_bind; [|intros ? _]
    | match goal with
      | |- keeps _ (if ?b then _ else _) _ => destruct b
      end ].
Ltac keeps_auto := repeat keeps_step.

Lemma calculate_atr_keeps h0 l period :
  keeps h0 (calculate_atr l period) (λ l', h0 !! l' = None).
Proof.
  unfold calculate_atr.
  eapply keeps_bind; [apply keeps_copy|]. intros df Hdf.
  do 6 (eapply keeps_bind; [apply keeps_getitem|]; intros ? _).
  eapply keeps_bind; [by apply keeps_setitem|]. intros _ _. by apply keeps_ret.
Qed.

Lemma calculate_supertrend_keeps h0 l period multiplier atr_column :
  keeps h0 (calculate_supertrend l period multiplier atr_column) (λ l', h0 !! l' = None).
Proof.
  unfold calculate_supertrend.
  eapply keeps_bind; [apply keeps_copy|]. intros df Hdf.
  eapply keeps_bind; [apply keeps_has_column|]. intros present _.
  eapply (keeps_bind _ _ _ (λ p, h0 !! p.1 = None)).
  { destruct present; simpl; [by apply keeps_ret|].
    eapply keeps_bind; [apply calculate_atr_keeps|]. intros df' Hdf'.
    by apply keeps_ret. }
  intros [df' a] Hdf'. simpl in Hdf'.
  do 3 (eapply keeps_bind; [apply keeps_getitem|]; intros ? _).
  eapply keeps_bind; [by apply keeps_setitem|]; intros _ _.
  eapply keeps_bind; [apply keeps_getitem|]; intros ? _.
  eapply keeps_bind; [by apply keeps_setitem|]; intros _ _.
  do 2 (eapply keeps_bind; [by apply keeps_setitem_scalar|]; intros _ _).
  eapply keeps_bind; [apply keeps_len|]; intros n _.
  eapply keeps_bind; [|intros _ _; by apply keeps_ret].
  apply keeps_for_each. intros i. keeps_auto.
Qed.

Lemma strategy_calculate_supertrend_keeps h0 self l :
  keeps h0 (SuperTrendStrategy._calculate_supertrend self l) (λ l', h0 !! l' = None).
Proof.
  unfold SuperTrendStrategy._calculate_supertrend.
  eapply keeps_bind; [apply keeps_copy|]. intros df Hdf.
  eapply keeps_bind; [apply keeps_has_column|]. intros present _.
  eapply keeps_bind; [apply keeps_when; keeps_auto|]. intros _ _.
  do 3 (eapply keeps_bind; [apply keeps_getitem|]; intros ? _).
  eapply keeps_bind; [by apply keeps_setitem|]; intros _ _.
  eapply keeps_bind; [apply keeps_getitem|]; intros ? _.
  eapply keeps_bind; [by apply keeps_setitem|]; intros _ _.
  do 2 (eapply keeps_bind; [by apply keeps_setitem_scalar|]; intros _ _).
  eapply keeps_bind; [apply keeps_len|]; intros n _.
  eapply keeps_bind; [|intros _ _; by apply keeps_ret].
  apply keeps_for_each. intros i. keeps_auto.
Qed.

(** ** True range and rolling mean *)

Lemma shift_lookup_0 s : s ≠ [] → shift s !! 0%nat = Some NaN.
Proof. by destruct s. Qed.
Lemma shift_lookup_S s j : (S j < length s)%nat → shift s !! S j = s !! j.
Proof.
  intros Hj. destruct s as [|x s]; [simpl in Hj; lia|].
  change (shift (x :: s) !! S j) with (take (length (x :: s) - 1) (x :: s) !! j).
  apply lookup_take_lt. simpl in *. lia.
Qed.

Lemma true_range_lookup high low close i hi lo sc :
  high !! i = Some hi → low !! i = Some lo → shift close !! i = Some sc →
  true_range high low close !! i
  = Some (row_max [(hi - lo)%F; fabs (hi - sc)%F; fabs (lo - sc)%F]).
Proof.
  intros Hh Hl Hs. unfold true_range, np_max_axis1, concat3, np_abs, series_sub.
  rewrite list_lookup_fmap, !lookup_zip_with, !list_lookup_fmap, !lookup_zip_with.
  by rewrite Hh, Hl, Hs.
Qed.

Lemma fsum_Num (w : list Q) : fsum (Num <$> w) = Num (Qsum w).
Proof.
  induction w as [|x w IH]; [done|].
  change (fsum (Num <$> x :: w)) with (Num x + fsum (Num <$> w))%F.
  by rewrite IH.
Qed.
Lemma Qsum_nonneg (w : list Q) : Forall (λ x, 0 <= x) w → 0 <= Qsum w.
Proof.
  induction 1 as [|x w Hx _ IH]; simpl; [apply Qle_refl|].
  change 0 with (0 + 0). by apply Qplus_le_compat.
Qed.
Lemma filter_is_num_Num (w : list Q) :
  filter (λ x, is_num x = true) (Num <$> w) = Num <$> w.
Proof.
  induction w as [|x w IH]; [done|].
  rewrite fmap_cons, filter_cons_True by done. by rewrite IH.
Qed.
Lemma window_fmap {A B} (f : A → B) w (s : list A) i :
  window w (f <$> s) i = f <$> window w s i.
Proof. unfold window. by rewrite fmap_drop, fmap_take. Qed.
Lemma window_length {A} w (s : list A) i :
  (i < length s)%nat → length (window w s i) = (w `min` S i)%nat.
Proof. intros Hi. unfold window. rewrite length_drop, length_take. lia. Qed.

Lemma rolling_mean_lookup w s i :
  (i < length s)%nat → rolling_mean w s !! i = Some (window_mean w (window w s i)).
Proof.
  intros Hi. unfold rolling_mean.
  by rewrite list_lookup_fmap, lookup_seq_lt.
Qed.

Lemma inject_Z_nat_nonzero n : (0 < n)%nat → Qeq_bool (inject_Z (Z.of_nat n)) 0 = false.
Proof.
  intros Hn. apply not_true_iff_false. rewrite Qeq_bool_iff.
  unfold Qeq, inject_Z. simpl. lia.
Qed.

(** The rolling mean of a series of numbers. *)
Lemma rolling_mean_Num w (q : list Q) i :
  (i < length q)%nat →
  rolling_mean w (Num <$> q) !! i
  = Some (if (w <=? S i)%nat && (0 <? w)%nat
          then Num (Qsum (window w q i) / inject_Z (Z.of_nat w))
          else NaN).
Proof.
  intros Hi. rewrite rolling_mean_lookup by by rewrite length_fmap.
  f_equal. unfold window_mean.
  rewrite window_fmap, filter_is_num_Num, length_fmap, window_length by done.
  destruct (Nat.leb_spec w (S i)) as [Hw|Hw].
  - rewrite Nat.min_l by done. rewrite Nat.leb_refl. simpl.
    destruct (Nat.ltb_spec 0 w) as [Hp|Hp]; [|done].
    rewrite fsum_Num. simpl. by rewrite inject_Z_nat_nonzero.
  - rewrite Nat.min_r by lia. simpl.
    destruct (Nat.leb_spec w (S i)) as [?|_]; [lia|done].
Qed.

Lemma rolling_mean_undefined w s i :
  (i < w - 1)%nat → (i < length s)%nat → rolling_mean w s !! i = Some NaN.
Proof.
  intros Hw Hi. rewrite rolling_mean_lookup by done. f_equal.
  unfold window_mean.
  pose proof (length_filter (λ x, is_num x = true) (window w s i)) as Hf.
  rewrite window_length in Hf by done.
  destruct (Nat.leb_spec w (length (filter (λ x, is_num x = true) (window w s i))));
    [lia | done].
Qed.

Lemma bars_ordered_lookup high low i hi lo :
  bars_ordered high low = true → high !! i = Some hi → low !! i = Some lo →
  ∃ a b, hi = Num a ∧ lo = Num b ∧ b <= a.
Proof.
  intros Hord Hh Hl. unfold bars_ordered in Hord.
  rewrite forallb_forall in Hord.
  assert (zip high low !! i = Some (hi, lo)) as Hz.
  { by rewrite lookup_zip_with, Hh, Hl. }
  apply list_elem_of_lookup_2, list_elem_of_In, Hord in Hz. simpl in Hz.
  destruct (fle_true _ _ Hz) as (b & a & -> & -> & Hle). eauto.
Qed.

(** One entry of the true range column. *)
Lemma true_range_entry high low close i a b :
  high !! i = Some (Num a) → low !! i = Some (Num b) → b <= a →
  (i < length close)%nat →
  ∃ q, true_range high low close !! i = Some (Num q) ∧ 0 <= q
    ∧ match i with
      | O => q = true_range_spec a b None
      | S j => ∀ pc, close !! j = Some (Num pc) → q = true_range_spec a b (Some pc)
      end.
Proof.
  intros Hh Hl Hab Hi.
  assert (is_Some (shift close !! i)) as [sc Hsc].
  { apply lookup_lt_is_Some. by rewrite shift_length. }
  rewrite (true_range_lookup _ _ _ _ _ _ _ Hh Hl Hsc).
  assert (0 <= a - b) as Hnn by lra.
  destruct i as [|j].
  - rewrite shift_lookup_0 in Hsc by (intros ->; simpl in Hi; lia).
    injection Hsc as <-. simpl. eauto.
  - rewrite shift_lookup_S in Hsc by done.
    destruct sc as [pc|]; simpl.
    + eexists. split; [done|]. split.
      * eapply Qle_trans; [exact Hnn | apply Q.le_max_l].
      * intros pc' Hpc. rewrite Hsc in Hpc. by injection Hpc as ->.
    + eexists. split; [done|]. split; [done|].
      intros pc Hpc. rewrite Hsc in Hpc. discriminate.
Qed.

(** Under [bars_ordered], the true range column holds non-negative numbers. *)
Lemma true_range_Num high low close n :
  length high = n → length low = n → length close = n →
  bars_ordered high low = true →
  ∃ tr : list Q,
    true_range high low close = Num <$> tr ∧ length tr = n
    ∧ Forall (λ q, 0 <= q) tr
    ∧ ∀ i a b, high !! i = Some (Num a) → low !! i = Some (Num b) →
        match i with
        | O => tr !! i = Some (true_range_spec a b None)
        | S j => ∀ pc, close !! j = Some (Num pc) →
                   tr !! i = Some (true_range_spec a b (Some pc))
        end.
Proof.
  intros Hh Hl Hc Hord.
  assert (∀ i, (i < n)%nat → ∃ a b q,
            high !! i = Some (Num a) ∧ low !! i = Some (Num b)
            ∧ true_range high low close !! i = Some (Num q) ∧ 0 <= q
            ∧ match i with
              | O => q = true_range_spec a b None
              | S j => ∀ pc, close !! j = Some (Num pc) → q = true_range_spec a b (Some pc)
              end) as Hentry.
  { intros i Hi.
    destruct (lookup_lt_is_Some_2 high i) as [hi Hhi]; [lia|].
    destruct (lookup_lt_is_Some_2 low i) as [lo Hlo]; [lia|].
    destruct (bars_ordered_lookup _ _ _ _ _ Hord Hhi Hlo) as (a & b & -> & -> & Hab).
    destruct (true_range_entry high low close i a b) as (q & Hq & Hnn & Hspec);
      [done | done | done | lia |].
    by exists a, b, q. }
  exists ((λ x, match x with Num q => q | NaN => 0 end) <$> true_range high low close).
  assert (length (true_range high low close) = n) as Hlen
    by by apply true_range_length.
  split; [|split; [by rewrite length_fmap|split]].
  - apply list_eq. intros i. rewrite !list_lookup_fmap.
    destruct (decide (i < n)%nat) as [Hi|Hi].
    + destruct (Hentry i Hi) as (a & b & q & _ & _ & -> & _). done.
    + by rewrite lookup_ge_None_2 by lia.
  - apply Forall_lookup. intros i q. rewrite list_lookup_fmap.
    intros Hq. destruct (true_range high low close !! i) as [x|] eqn:E; [|done].
    assert (i < n)%nat as Hi by (apply lookup_lt_Some in E; lia).
    destruct (Hentry i Hi) as (a & b & q' & _ & _ & E' & Hnn & _).
    rewrite E in E'. injection E' as ->. simpl in Hq. by injection Hq as <-.
  - intros i a b Hhi Hlo.
    assert (i < n)%nat as Hi by (apply lookup_lt_Some in Hhi; lia).
    destruct (Hentry i Hi) as (a' & b' & q & Hhi' & Hlo' & E & _ & Hspec).
    rewrite Hhi in Hhi'. rewrite Hlo in Hlo'.
    injection Hhi' as <-. injection Hlo' as <-.
    rewrite list_lookup_fmap, E. simpl.
    destruct i as [|j]; [by rewrite Hspec|].
    intros pc Hpc. by rewrite (Hspec pc Hpc).
Qed.

(** Checking the shape of a concrete frame by computation. *)
Lemma df_wf_check d :
  bool_decide (map_Forall (λ _ (s : list float), length s = df_len d) (df_cols d)) = true →
  df_wf d.
Proof. intros H. apply bool_decide_eq_true_1 in H. exact H. Qed.

Lemma Qdiv_nonneg x y : 0 <= x → 0 < y → 0 <= x / y.
Proof.
  intros Hx Hy. unfold Qdiv. apply Qmult_le_0_compat; [done|].
  apply Qinv_le_0_compat. by apply Qlt_le_weak.
Qed.

(** ** Position sizing *)


Lemma fadd_Num x y : (Num x + Num y)%F = Num (x + y).
Proof. done. Qed.
Lemma fsub_Num x y : (Num x - Num y)%F = Num (x - y).
Proof. done. Qed.
Lemma fmul_Num x y : (Num x * Num y)%F = Num (x * y).
Proof. done. Qed.

Lemma fdiv_Num x y : ¬ y == 0 → (Num x / Num y)%F = Num (x / y).
Proof.
  intros Hy. simpl. destruct (Qeq_bool y 0) eqn:E; [|done].
  by apply Qeq_bool_iff in E.
Qed.

Lemma fle_Num_false x y : (Num x <=? Num y)%F = false ↔ y < x.
Proof.
  rewrite <- not_true_iff_false, fle_Num. split; [apply Qnot_le_lt | apply Qlt_not_le].
Qed.
Lemma flt_Num_false x y : (Num x <? Num y)%F = false ↔ y <= x.
Proof.
  rewrite <- not_true_iff_false, flt_Num. split; [apply Qnot_lt_le | apply Qle_not_lt].
Qed.



(** ** Signals of the trend-following strategy *)

Lemma result_bind_ok {A B} (m : result A) (f : A → result B) b :
  m ≫= f = Ok b → ∃ a, m = Ok a ∧ f a = Ok b.
Proof. destruct m as [a|e]; [eauto | done]. Qed.

(** Every signal [generate_signals] returns was built by
    [_create_buy_signal] from the last bar of the primary frame (enriched
    with the SuperTrend columns if it came without), after [_validate_entry]
    accepted that bar. *)
Lemma generate_signals_inv self data sigs sig :
  SuperTrendStrategy.generate_signals self data = Ok sigs → sig ∈ sigs →
  ∃ primary latest,
    iloc_neg primary 1 = Ok latest
    ∧ SuperTrendStrategy._validate_entry self latest primary (data !! "daily") = Ok true
    ∧ SuperTrendStrategy._create_buy_signal self latest primary = Ok sig
    ∧ sigs = [sig].
Proof.
  unfold SuperTrendStrategy.generate_signals. intros Hgen Hin.
  match type of Hgen with
  | match ?p with _ => _ end = _ => destruct p as [primary0|]
  end; [|injection Hgen as <-; by apply elem_of_nil in Hin].
  destruct (df_empty primary0); [injection Hgen as <-; by apply elem_of_nil in Hin|].
  apply result_bind_ok in Hgen as (primary & _ & Hgen).
  apply result_bind_ok in Hgen as (latest & Hlatest & Hgen).
  case_bool_decide; [|injection Hgen as <-; by apply elem_of_nil in Hin].
  apply result_bind_ok in Hgen as (previous & _ & Hgen).
  apply result_bind_ok in Hgen as (prev_dir & _ & Hgen).
  apply result_bind_ok in Hgen as (turned & _ & Hgen).
  destruct turned; [|injection Hgen as <-; by apply elem_of_nil in Hin].
  apply result_bind_ok in Hgen as (valid & Hvalid & Hgen).
  destruct valid; [|injection Hgen as <-; by apply elem_of_nil in Hin].
  apply result_bind_ok in Hgen as (signal & Hsignal & Hgen).
  injection Hgen as <-. simpl in Hin. apply list_elem_of_singleton in Hin as ->.
  by exists primary, latest.
Qed.


Lemma create_buy_signal_confidence self latest primary sig :
  SuperTrendStrategy._create_buy_signal self latest primary = Ok sig →
  SuperTrendStrategy._calculate_confidence self latest primary = Ok (confidence sig)
  ∧ signal_type sig = BUY ∧ row_getitem latest "close" = Ok (price sig).
Proof.
  unfold SuperTrendStrategy._create_buy_signal. intros H.
  apply result_bind_ok in H as (conf & Hconf & H).
  apply result_bind_ok in H as (c1 & Hc1 & H).
  apply result_bind_ok in H as (c2 & Hc2 & H).
  apply result_bind_ok in H as (c3 & Hc3 & H).
  apply result_bind_ok in H as (c4 & Hc4 & H).
  injection H as <-. simpl. by rewrite Hconf, Hc4.
Qed.


(** ** The engine *)

Section EngineLemmas.
Context {W : Type} (C : Collaborators W).
Variable config : EngineConfig.
Variable strategies : list Strategy.
Variable P : Event → Prop.

Lemma emits_ret {A} (a : A) : emits (W := W) P (mret a).
Proof. intros s. exists []. by rewrite app_nil_r. Qed.
Lemma emits_lift {A} (r : result A) : emits (W := W) P (lift r).
Proof. intros s. exists []. by rewrite app_nil_r. Qed.
Lemma emits_get_results : emits (W := W) P get_results.
Proof. intros s. exists []. by rewrite app_nil_r. Qed.
Lemma emits_update_results f : emits (W := W) P (update_results f).
Proof. intros s. exists []. by rewrite app_nil_r. Qed.
Lemma emits_call {A} ev (f : W → result A * W) : P ev → emits P (call ev f).
Proof.
  intros Hev s. exists [ev]. unfold call. destruct (f (world s)). simpl.
  split; [done|]. by apply Forall_singleton.
Qed.
Lemma emits_note ev : P ev → emits (W := W) P (note ev).
Proof. intros Hev s. exists [ev]. split; [done|]. by apply Forall_singleton. Qed.

Lemma emits_bind {A B} (m : St (EngineState W) A) (f : A → St (EngineState W) B) :
  emits P m → (∀ a, emits P (f a)) → emits P (m ≫= f).
Proof.
  intros Hm Hf s. destruct (Hm s) as (evs & Htr & Hevs).
  unfold mbind, St_bind. destruct (m s) as [[a|e] s1]; simpl in *.
  - destruct (Hf a s1) as (evs' & Htr' & Hevs'). exists (evs ++ evs').
    split; [by rewrite Htr', Htr, app_assoc | by apply Forall_app].
  - by exists evs.
Qed.
Lemma emits_try_except {A} (m : St (EngineState W) A) (handler : exn → St (EngineState W) A) :
  emits P m → (∀ e, emits P (handler e)) → emits P (try_except m handler).
Proof.
  intros Hm Hh s. destruct (Hm s) as (evs & Htr & Hevs).
  unfold try_except. destruct (m s) as [[a|e] s1]; simpl in *.
  - by exists evs.
  - destruct (Hh e s1) as (evs' & Htr' & Hevs'). exists (evs ++ evs').
    split; [by rewrite Htr', Htr, app_assoc | by apply Forall_app].
Qed.
Lemma emits_for_each {T} (xs : list T) (body : T → St (EngineState W) unit) :
  (∀ x, emits P (body x)) → emits P (for_each xs body).
Proof.
  intros Hbody. induction xs as [|x xs IH]; simpl; [apply emits_ret|].
  apply emits_bind; [apply Hbody | by intros _].
Qed.
Lemma emits_foldl {T A} (step : St (EngineState W) A → T → St (EngineState W) A)
    (init : St (EngineState W) A) (xs : list T) :
  emits P init → (∀ acc x, emits P acc → emits P (step acc x)) →
  emits P (foldl step init xs).
Proof.
  intros Hinit Hstep. revert init Hinit.
  induction xs as [|x xs IH]; intros init Hinit; simpl; [done|].
  apply IH. by apply Hstep.
Qed.

Lemma emits_get_symbol_data symbol :
  (∀ tf, P (EvGetHistoricalData symbol tf)) → emits P (_get_symbol_data C symbol).
Proof.
  intros HP. unfold _get_symbol_data.
  apply emits_try_except; [|intros; apply emits_ret].
  repeat (apply emits_bind; [by apply emits_call | intros ?]).
  apply emits_ret.
Qed.
End EngineLemmas.

(** Symbolic step for [emits] goals. *)
Ltac emits_step :=
  first
    [ apply emits_ret | apply emits_lift | apply emits_get_results
    | apply emits_update_results
    | apply emits_call; done | apply emits_note; done
    | apply emits_get_symbol_data; done
    | apply emits_try_except; [|intros ?]
    | apply emits_for_each; intros ?
    | apply emits_bind; [|intros ?]
    | match goal with
      | |- emits _ (if ?b then _ else _) => destruct b
      | |- emits _ (match ?x with _ => _ end) => destruct x
      end ].

Section EngineFacts.
Context {W : Type} (C : Collaborators W).
Variable config : EngineConfig.
Variable strategies : list Strategy.

(** The guard of [_check_entry_signals] and [_check_exit_conditions]
    never lets a bundle through: without a 15-minute frame it skips the
    symbol, with one it raises. *)
Lemma no_primary_data_never_false data : no_primary_data data ≠ Ok false.
Proof.
  unfold no_primary_data. case_bool_decide; [done|].
  by destruct (data !! "15min").
Qed.

Lemma validate_signal_emits P signal data :
  P EvCanOpenPosition → P EvGetAvailableCapital →
  emits P (_validate_signal C signal data).
Proof. intros. unfold _validate_signal. repeat emits_step. Qed.

Lemma execute_buy_signal_emits P signal data :
  P EvGetAvailableCapital →
  (∀ n, P (EvCalculatePositionSize n)) →
  (∀ s q p o, P (EvPlaceBuyOrder s q p o)) → (∀ p, P (EvAddPosition p)) →
  emits P (_execute_buy_signal C config strategies signal data).
Proof. intros. unfold _execute_buy_signal. repeat emits_step. Qed.

Lemma execute_sell_signal_emits P symbol position reason :
  P (EvGetCurrentPrice symbol) →
  (∀ s q p o, P (EvPlaceSellOrder s q p o)) → (∀ s p r, P (EvClosePosition s p r)) →
  emits P (_execute_sell_signal C config symbol position reason).
Proof. intros. unfold _execute_sell_signal. repeat emits_step. Qed.

(** Neither branch of a symbol's processing asks for a position. *)
Lemma check_entry_signals_emits symbol :
  emits (λ ev, is_get_position ev = false)
    (_check_entry_signals C config strategies symbol).
Proof.
  unfold _check_entry_signals.
  apply emits_bind; [by apply emits_get_symbol_data | intros data].
  apply emits_bind; [apply emits_lift | intros skip].
  destruct skip; [apply emits_ret|].
  apply emits_bind.
  { apply emits_foldl; [apply emits_ret|]. intros acc strategy Hacc.
    apply emits_bind; [done | intros all_signals]. repeat emits_step. }
  intros all_signals. apply emits_for_each. intros signal.
  case_bool_decide; [|apply emits_ret].
  apply emits_bind; [apply emits_update_results | intros _].
  apply emits_bind; [by apply validate_signal_emits | intros valid].
  destruct valid; simpl; [|apply emits_ret].
  apply emits_bind; [by apply execute_buy_signal_emits | intros success].
  destruct success; apply emits_update_results.
Qed.

Lemma check_exit_conditions_emits symbol position :
  emits (λ ev, is_get_position ev = false)
    (_check_exit_conditions C config strategies symbol position).
Proof.
  unfold _check_exit_conditions.
  apply emits_bind; [by apply emits_get_symbol_data | intros data].
  apply emits_bind; [apply emits_lift | intros skip].
  destruct skip; [apply emits_ret|].
  apply emits_bind; [apply emits_lift | intros frame].
  apply emits_bind; [apply emits_lift | intros current_data].
  apply emits_bind; [apply emits_lift | intros [strategy|]]; [|apply emits_ret].
  apply emits_bind; [by apply emits_note | intros _].
  destruct (should_exit strategy position current_data) as [exit reason].
  destruct exit; [|apply emits_ret].
  apply emits_bind; [by apply execute_sell_signal_emits | intros success].
  destruct success; [apply emits_update_results | apply emits_ret].
Qed.

(** A loop whose body always returns and announces its item first visits
    every item, in order. *)
Lemma for_each_visits {T} (xs : list T) (body : T → St (EngineState W) unit)
    (ev_of : T → Event) :
  (∀ x, is_get_position (ev_of x) = true) →
  (∀ x s, ∃ s' evs,
      body x s = (Ok tt, s') ∧ trace s' = trace s ++ ev_of x :: evs
      ∧ Forall (λ ev, is_get_position ev = false) evs) →
  ∀ s, ∃ s' evs,
    for_each xs body s = (Ok tt, s') ∧ trace s' = trace s ++ evs
    ∧ filter (λ ev, is_get_position ev = true) evs = ev_of <$> xs.
Proof.
  intros Hev Hbody. induction xs as [|x xs IH]; intros s.
  - exists s, []. by rewrite app_nil_r.
  - destruct (Hbody x s) as (s1 & evs1 & Hrun1 & Htr1 & Hevs1).
    destruct (IH s1) as (s2 & evs2 & Hrun2 & Htr2 & Hevs2).
    exists s2, (ev_of x :: evs1 ++ evs2). split; [|split].
    + simpl. by rewrite (bind_run _ _ _ _ _ Hrun1).
    + rewrite Htr2, Htr1, <- app_assoc. done.
    + rewrite filter_cons_True by apply Hev. rewrite filter_app, Hevs2. f_equal.
      assert (filter (λ ev, is_get_position ev = true) evs1 = []) as ->; [|done].
      clear -Hevs1. induction Hevs1 as [|ev evs Hev _ IH]; [done|].
      rewrite filter_cons_False by (by rewrite Hev). exact IH.
Qed.
End EngineFacts.

Section EngineNeverEvaluates.
Context {W : Type} (C : Collaborators W).
Variable config : EngineConfig.
Variable strategies : list Strategy.

(** Because of that guard, the two per-symbol procedures only fetch data:
    they end (by skipping the symbol or by raising) before any strategy is
    asked for signals or for an exit decision. *)
Lemma check_exit_conditions_only_fetches symbol position s :
  ∃ evs,
    trace (_check_exit_conditions C config strategies symbol position s).2
    = trace s ++ evs
    ∧ Forall (λ ev, ∃ tf, ev = EvGetHistoricalData symbol tf) evs.
Proof.
  destruct (emits_get_symbol_data C (λ ev, ∃ tf, ev = EvGetHistoricalData symbol tf)
              symbol (λ tf, ex_intro _ tf eq_refl) s) as (evs & Htr & Hevs).
  exists evs. split; [|done].
  unfold _check_exit_conditions, mbind, St_bind, lift.
  destruct (_get_symbol_data C symbol s) as [[data|e] s1]; simpl in *; [|done].
  pose proof (no_primary_data_never_false data) as Hguard.
  destruct (no_primary_data data) as [[|]|e]; done.
Qed.

Lemma check_entry_signals_only_fetches symbol s :
  ∃ evs,
    trace (_check_entry_signals C config strategies symbol s).2 = trace s ++ evs
    ∧ Forall (λ ev, ∃ tf, ev = EvGetHistoricalData symbol tf) evs.
Proof.
  destruct (emits_get_symbol_data C (λ ev, ∃ tf, ev = EvGetHistoricalData symbol tf)
              symbol (λ tf, ex_intro _ tf eq_refl) s) as (evs & Htr & Hevs).
  exists evs. split; [|done].
  unfold _check_entry_signals, mbind, St_bind, lift.
  destruct (_get_symbol_data C symbol s) as [[data|e] s1]; simpl in *; [|done].
  pose proof (no_primary_data_never_false data) as Hguard.
  destruct (no_primary_data data) as [[|]|e]; done.
Qed.
End EngineNeverEvaluates.

(** The strategies the engine loads are named [SuperTrend] or [MACD_RSI], so
    the first word of the reason of a MACD/RSI signal names none of them. *)
Lemma load_strategies_names config :
  Forall (λ strategy, strategy_name strategy = "SuperTrend"
                      ∨ strategy_name strategy = "MACD_RSI") (_load_strategies config).
Proof.
  unfold _load_strategies.
  set (named := λ strategy, strategy_name strategy = "SuperTrend"
                            ∨ strategy_name strategy = "MACD_RSI").
  set (step := λ (strategies : list Strategy) (strategy_name : string), _).
  assert (∀ names acc, Forall named acc → Forall named (foldl step acc names)) as Hfold.
  { induction names as [|n ns IH]; intros acc Hacc; [done|].
    cbn [foldl]. apply IH. unfold step.
    repeat case_match; try done; apply Forall_app; (split; [done|]);
      apply Forall_singleton; [by left | by right]. }
  by apply Hfold.
Qed.

Lemma get_strategy_by_name_MACD config :
  _get_strategy_by_name (_load_strategies config) "MACD" = None.
Proof.
  unfold _get_strategy_by_name.
  destruct (list_find _ _) as [[i strategy]|] eqn:Hfind; [|done].
  apply list_find_Some in Hfind as (Hin & Hname & _).
  pose proof (load_strategies_names config) as Hall.
  rewrite Forall_lookup in Hall. destruct (Hall _ _ Hin) as [H|H];
    rewrite H in Hname; by vm_compute in Hname.
Qed.

(** ** Totality of the trend-following [generate_signals] *)

Lemma returns_bind {A B} (m : result A) (f : A → result B) (P : A → Prop) :
  (∃ a, m = Ok a ∧ P a) → (∀ a, P a → returns (f a)) → returns (m ≫= f).
Proof. intros (a & -> & Ha) Hf. by apply Hf. Qed.

Lemma iloc_row d i :
  df_wf d → (i < df_len d)%nat →
  ∃ r, iloc d i = Ok r ∧ ∀ c, is_Some (df_cols d !! c) → is_Some (r !! c).
Proof.
  intros Hwf Hi. unfold iloc. rewrite bool_decide_eq_true_2 by done.
  eexists. split; [done|]. intros c [s Hs].
  rewrite lookup_omap, Hs. simpl. apply lookup_lt_is_Some. rewrite (Hwf _ _ Hs). done.
Qed.

Lemma iloc_neg_row d k :
  df_wf d → (1 ≤ k ≤ df_len d)%nat →
  ∃ r, iloc_neg d k = Ok r ∧ ∀ c, is_Some (df_cols d !! c) → is_Some (r !! c).
Proof.
  intros Hwf Hk. unfold iloc_neg. rewrite bool_decide_eq_true_2 by lia.
  apply iloc_row; [done | lia].
Qed.

Lemma row_getitem_returns r c : is_Some (r !! c) → returns (row_getitem r c).
Proof. intros [x Hx]. exists x. unfold row_getitem. by rewrite Hx. Qed.

Lemma series_last_returns s : (0 < length s)%nat → returns (series_last s).
Proof.
  intros Hs. unfold series_last.
  destruct (last s) as [x|] eqn:Hlast; [by exists x|].
  apply last_None in Hlast as ->. simpl in Hs. lia.
Qed.

Lemma ewm_mean_length span s : length (ewm_mean span s) = length s.
Proof.
  destruct s as [|x rest]; [done|]. simpl. f_equal.
  generalize x, (Num 1).
  induction rest as [|y rest IH]; intros w0 x0; [done|].
  simpl. repeat case_match; simpl; by rewrite IH.
Qed.

Lemma check_volume_confirmation_returns data threshold :
  df_wf data → returns (BaseStrategy.check_volume_confirmation data threshold).
Proof.
  intros Hwf. unfold BaseStrategy.check_volume_confirmation.
  destruct (negb (df_has data "volume")) eqn:Hhas; [by eexists|].
  case_bool_decide as Hlen; [by eexists|]. cbn [orb].
  apply negb_false_iff, bool_decide_eq_true_1 in Hhas as [volume Hvol].
  unfold df_col. rewrite Hvol. cbn.
  pose proof (Hwf _ _ Hvol) as Hlenv.
  destruct (series_last_returns (rolling_mean 20 volume)) as [avg ->].
  { rewrite rolling_mean_length. lia. }
  destruct (series_last_returns volume) as [cur ->]; [lia|].
  by eexists.
Qed.

Lemma check_daily_trend_returns daily :
  df_wf daily → is_Some (df_cols daily !! "close") →
  returns (BaseStrategy.check_daily_trend daily).
Proof.
  intros Hwf Hclose. unfold BaseStrategy.check_daily_trend.
  destruct (df_empty daily); [by eexists|].
  case_bool_decide as Hlen; [by eexists|]. cbn [orb].
  destruct (iloc_neg_row daily 1 Hwf ltac:(lia)) as (latest & -> & Hrow). cbn.
  destruct (Hrow "close" Hclose) as [c Hc].
  destruct Hclose as [closes Hcloses].
  unfold row_getitem, df_col. rewrite Hc, Hcloses.
  destruct (row_has latest "ema200") eqn:Hema.
  - apply bool_decide_eq_true_1 in Hema as [e ->]. by eexists.
  - cbn. destruct (series_last_returns (ewm_mean 200 closes)) as [ema ->].
    { rewrite ewm_mean_length, (Hwf _ _ Hcloses). lia. }
    by eexists.
Qed.

Lemma calculate_confidence_returns self latest data :
  df_wf data → is_Some (df_cols data !! "close") → is_Some (latest !! "close") →
  returns (SuperTrendStrategy._calculate_confidence self latest data).
Proof.
  intros Hwf [closes Hcloses] [c Hc]. unfold SuperTrendStrategy._calculate_confidence.
  destruct (check_volume_confirmation_returns data
              (SuperTrendStrategy.volume_threshold self) Hwf) as [vol ->].
  unfold df_col. rewrite Hcloses.
  assert (∀ k, row_has latest k = true → ∃ x, row_getitem latest k = Ok x) as Hget.
  { intros k Hk. apply bool_decide_eq_true_1 in Hk as [x Hx].
    exists x. unfold row_getitem. by rewrite Hx. }
  assert (row_getitem latest "close" = Ok c) as Hclose
    by (unfold row_getitem; by rewrite Hc).
  rewrite Hclose.
  destruct (row_has latest "supertrend") eqn:Hst;
    [destruct (Hget _ Hst) as [st ->]|];
    (destruct (row_has latest "rsi_14") eqn:Hrsi;
       [destruct (Hget _ Hrsi) as [rsi ->]|]);
    cbn; repeat case_match; by eexists.
Qed.

Lemma validate_entry_returns self latest primary daily :
  df_wf primary → is_Some (latest !! "close") →
  (∀ d, daily = Some d → df_wf d ∧ is_Some (df_cols d !! "close")) →
  returns (SuperTrendStrategy._validate_entry self latest primary daily).
Proof.
  intros Hwf [c Hc] Hdaily. unfold SuperTrendStrategy._validate_entry.
  assert (row_getitem latest "close" = Ok c) as ->
    by (unfold row_getitem; by rewrite Hc).
  destruct (check_volume_confirmation_returns primary
              (SuperTrendStrategy.volume_threshold self) Hwf) as [vol ->].
  assert (returns (match daily with
                   | Some daily =>
                       if SuperTrendStrategy.daily_trend_filter self && negb (df_empty daily)
                       then ok ← BaseStrategy.check_daily_trend daily; Ok ok
                       else Ok true
                   | None => Ok true
                   end)) as Htrend.
  { destruct daily as [d|]; [|by eexists].
    destruct (Hdaily d eq_refl) as [Hwfd Hcl].
    destruct (_ && _); [|by eexists].
    destruct (check_daily_trend_returns d Hwfd Hcl) as [b ->]. by eexists. }
  set (trend := match daily with Some _ => _ | None => _ end) in *. clearbody trend.
  assert (returns (below ←
      (if row_has latest "supertrend"
       then st ← row_getitem latest "supertrend"; Ok (c <=? st)%F
       else Ok false); Ok below)) as [below Hbelow].
  { destruct (row_has latest "supertrend") eqn:Hst; [|by eexists].
    apply bool_decide_eq_true_1 in Hst as [st Hst].
    unfold row_getitem. rewrite Hst. by eexists. }
  cbn in Hbelow |- *.
  destruct (if row_has latest "supertrend" then _ else _) as [b|e]; [|done].
  cbn. destruct b; [by eexists|].
  destruct (SuperTrendStrategy.volume_confirmation self), vol; cbn;
    first [by eexists | exact Htrend].
Qed.

Lemma create_buy_signal_returns self latest data :
  df_wf data → is_Some (df_cols data !! "close") → is_Some (latest !! "close") →
  returns (SuperTrendStrategy._create_buy_signal self latest data).
Proof.
  intros Hwf Hcloses Hclose. unfold SuperTrendStrategy._create_buy_signal.
  destruct (calculate_confidence_returns self latest data Hwf Hcloses Hclose) as [q ->].
  destruct Hclose as [c Hc]. unfold row_getitem. rewrite Hc. by eexists.
Qed.

Lemma strategy_supertrend_frame_ok self d :
  df_wf d → has_ohlc d →
  st_ok "upperband" "lowerband" (strategy_supertrend_frame self d)
  ∧ df_len (strategy_supertrend_frame self d) = df_len d.
Proof.
  intros Hwf Hohlc. unfold strategy_supertrend_frame.
  set (d0 := if bool_decide _ then d else _).
  assert (df_wf d0 ∧ has_ohlc d0 ∧ is_Some (df_cols d0 !! "atr") ∧ df_len d0 = df_len d)
    as (Hwf0 & Hohlc0 & Hatr & Hlen0).
  { subst d0. case_bool_decide as Hatr; [done|].
    destruct Hohlc as (Hh & Hl & Hc).
    split; [by apply atr_frame_wf|].
    split; [by repeat split; apply atr_frame_has|].
    split; [|done]. unfold atr_frame, set_col. simpl. rewrite lookup_insert_eq. by eexists. }
  destruct (st_init_ok "upperband" "lowerband" (SuperTrendStrategy.multiplier self) "atr" d0)
    as [Hok Hlen]; [done..|].
  rewrite st_scan_scan_to.
  split; [by apply scan_to_ok|].
  by rewrite !scan_to_len, Hlen.
Qed.

Lemma call_on_copy_calculate_supertrend self d :
  df_wf d → has_ohlc d →
  call_on_copy (SuperTrendStrategy._calculate_supertrend self) d
  = Ok (strategy_supertrend_frame self d).
Proof.
  intros Hwf Hohlc. unfold call_on_copy.
  rewrite (strategy_calculate_supertrend_run self 1%positive {[1%positive := d]} d)
    by (done || apply lookup_singleton_eq).
  by rewrite lookup_insert_eq.
Qed.

(** On a bundle of well-formed frames with high, low and close columns the
    trend-following [generate_signals] returns a list of signals. *)
Lemma supertrend_generate_signals_returns self data :
  map_Forall (λ _ d, df_wf d ∧ has_ohlc d) data →
  returns (SuperTrendStrategy.generate_signals self data).
Proof.
  intros Hdata. unfold SuperTrendStrategy.generate_signals.
  set (primary := match data !! "15min" with Some _ => _ | None => _ end).
  assert (∀ d, primary = Some d → df_wf d ∧ has_ohlc d) as Hprimary.
  { intros d. subst primary. repeat case_match; intros Hd; simplify_eq;
      by eapply (Hdata _ d). }
  destruct primary as [d|]; [|by eexists].
  destruct (Hprimary d eq_refl) as [Hwf Hohlc].
  destruct (df_empty d) eqn:Hempty; [by eexists|].
  assert (1 ≤ df_len d)%nat as Hlen.
  { unfold df_empty in Hempty. apply orb_false_iff in Hempty as [Hempty _].
    apply bool_decide_eq_false_1 in Hempty. lia. }
  assert (∃ d', (if negb (df_has d "supertrend_direction")
                 then call_on_copy (SuperTrendStrategy._calculate_supertrend self) d
                 else Ok d) = Ok d'
                ∧ df_wf d' ∧ df_len d' = df_len d
                ∧ is_Some (df_cols d' !! "close")
                ∧ is_Some (df_cols d' !! "supertrend_direction"))
    as (d' & -> & Hwf' & Hlen' & Hclose & Hdir).
  { destruct (df_has d "supertrend_direction") eqn:Hhas; cbn [negb].
    - exists d. apply bool_decide_eq_true_1 in Hhas.
      by destruct Hohlc as (_ & _ & ?).
    - rewrite call_on_copy_calculate_supertrend by done.
      destruct (strategy_supertrend_frame_ok self d Hwf Hohlc)
        as [(? & ? & _ & _ & ? & _) ?].
      by eexists. }
  cbn.
  destruct (iloc_neg_row d' 1 Hwf' ltac:(lia)) as (latest & -> & Hlatest). cbn.
  case_bool_decide as Hlen2; [|by eexists].
  destruct (iloc_neg_row d' 2 Hwf' ltac:(lia)) as (previous & -> & Hprevious). cbn.
  destruct (row_getitem_returns previous "supertrend_direction" (Hprevious _ Hdir))
    as [prev_dir ->].
  destruct (row_getitem_returns latest "supertrend_direction" (Hlatest _ Hdir))
    as [dir ->].
  cbn.
  assert (returns (valid ← SuperTrendStrategy._validate_entry self latest d' (data !! "daily");
                   if (valid : bool)
                   then signal ← SuperTrendStrategy._create_buy_signal self latest d';
                        Ok ([] ++ [signal])
                   else Ok [])) as Hrest.
  { destruct (validate_entry_returns self latest d' (data !! "daily")) as [valid ->];
      [done | by apply Hlatest | |].
    { intros daily Hdaily. destruct (Hdata _ _ Hdaily) as [? (_ & _ & ?)]. done. }
    cbn. destruct valid; [|by eexists].
    destruct (create_buy_signal_returns self latest d') as [signal ->];
      [done | done | by apply Hlatest |]. by eexists. }
  destruct (prev_dir <=? Num 0)%F; cbn; [|by eexists].
  match goal with |- returns (if ?b then _ else _) => destruct b end; [exact Hrest | by eexists].
Qed.

(** ** More on the frame [calculate_supertrend] returns *)

Lemma supertrend_frame_view period multiplier a d :
  df_wf d → has_ohlc d →
  ∃ d0 a0,
    supertrend_frame period multiplier a d
    = st_scan "supertrend_upperband" "supertrend_lowerband"
        (st_init "supertrend_upperband" "supertrend_lowerband" multiplier a0 d0)
    ∧ df_wf d0 ∧ has_ohlc d0 ∧ is_Some (df_cols d0 !! a0) ∧ df_len d0 = df_len d
    ∧ (∀ c, c ≠ "atr" → df_cols d0 !! c = df_cols d !! c)
    ∧ column d0 a0 = atr_source period a d
    ∧ (a0 = a ∨ a0 = "atr").
Proof.
  intros Hwf Hohlc. unfold supertrend_frame, atr_source.
  case_bool_decide as Ha.
  - exists d, a. split; [done|]. split; [done|]. split; [done|]. split; [done|].
    split; [done|]. split; [done|]. split; [done|]. by left.
  - exists (atr_frame period d), "atr".
    destruct Hohlc as (Hh & Hl & Hc).
    split; [done|]. split; [by apply atr_frame_wf|].
    split; [by repeat split; apply atr_frame_has|].
    split; [apply set_col_has_eq|]. split; [done|].
    split.
    { intros c Hc'. unfold atr_frame, set_col. simpl. by rewrite lookup_insert_ne. }
    split; [|by right].
    unfold atr_frame. by rewrite column_set_col_eq.
Qed.

Lemma st_init_direction U L multiplier a d i :
  (i < df_len d)%nat →
  cell (st_init U L multiplier a d) "supertrend_direction" i = Num 1.
Proof.
  intros Hi. unfold st_init. rewrite cell_set_col_eq. by apply at_row_replicate.
Qed.

Lemma st_scan_direction_sign d i :
  st_ok "supertrend_upperband" "supertrend_lowerband" d →
  (∀ j, (j < df_len d)%nat → cell d "supertrend_direction" j = Num 1) →
  (i < df_len d)%nat →
  let F := st_scan "supertrend_upperband" "supertrend_lowerband" d in
  cell F "supertrend_direction" i = Num 1 ∨ cell F "supertrend_direction" i = Num (-1).
Proof.
  intros Hok Hinit Hi F. subst F.
  induction i as [|i IH].
  - left. rewrite (st_scan_row0 _ _ indicator_names). apply Hinit. lia.
  - destruct (st_scan_recurrence _ _ indicator_names d (S i) Hok ltac:(lia))
      as (_ & _ & -> & _).
    replace (S i - 1)%nat with i by lia.
    repeat case_match; [by left | by right | apply IH; lia].
Qed.

Lemma cell_lookup d c s i :
  df_wf d → df_cols d !! c = Some s → (i < df_len d)%nat → s !! i = Some (cell d c i).
Proof.
  intros Hwf Hs Hi. unfold cell. rewrite Hs. simpl.
  destruct (lookup_lt_is_Some_2 s i) as [x Hx]; [by rewrite (Hwf _ _ Hs)|].
  by rewrite Hx.
Qed.

Lemma column_Forall d c s (P : float → Prop) :
  df_wf d → df_cols d !! c = Some s →
  (∀ i, (i < df_len d)%nat → P (cell d c i)) → Forall P s.
Proof.
  intros Hwf Hs HP. apply Forall_lookup. intros i x Hx.
  assert (i < df_len d)%nat as Hi.
  { rewrite <- (Hwf _ _ Hs). by eapply lookup_lt_Some. }
  specialize (HP i Hi). rewrite (cell_lookup d c s i Hwf Hs Hi) in Hx. by injection Hx as <-.
Qed.

Lemma st_init_line U L multiplier a d i :
  U ≠ "supertrend" → L ≠ "supertrend" → (i < df_len d)%nat →
  cell (st_init U L multiplier a d) "supertrend" i = Num 0.
Proof.
  intros HU HL Hi. unfold st_init.
  rewrite cell_set_col_ne, cell_set_col_eq by done. by apply at_row_replicate.
Qed.

(** The frame of [calculate_supertrend]: its shape and its rows. *)
Lemma supertrend_frame_ok period multiplier a d :
  df_wf d → has_ohlc d →
  let F := supertrend_frame period multiplier a d in
  st_ok "supertrend_upperband" "supertrend_lowerband" F
  ∧ df_len F = df_len d
  ∧ (∀ j, cell F "close" j = cell d "close" j)
  ∧ (∀ i, (i < df_len d)%nat →
       cell F "supertrend_direction" i = Num 1
       ∨ cell F "supertrend_direction" i = Num (-1))
  ∧ (0 < df_len d → cell F "supertrend" 0 = Num 0)%nat.
Proof.
  intros Hwf Hohlc F. subst F.
  destruct (supertrend_frame_view period multiplier a d Hwf Hohlc)
    as (d0 & a0 & -> & Hwf0 & Hohlc0 & Ha0 & Hlen0 & Hsame & _ & _).
  destruct (st_init_ok "supertrend_upperband" "supertrend_lowerband" multiplier a0 d0)
    as [Hok Hlen]; [done..|].
  split; [rewrite st_scan_scan_to; by apply scan_to_ok|].
  split; [by rewrite st_scan_scan_to, scan_to_len, Hlen|].
  split.
  { intros j. rewrite (st_scan_close _ _ indicator_names).
    unfold st_init. rewrite !cell_set_col_ne by done.
    unfold cell. by rewrite Hsame. }
  split.
  { intros i Hi. apply st_scan_direction_sign; [done| |lia].
    intros j Hj. apply st_init_direction. lia. }
  intros Hn. rewrite (st_scan_row0 _ _ indicator_names).
  apply st_init_line; [done..|lia].
Qed.

Lemma supertrend_frame_recurrence period multiplier a d :
  df_wf d → has_ohlc d → a ≠ "supertrend_upperband" → (1 ≤ df_len d)%nat →
  let F := supertrend_frame period multiplier a d in
  supertrend_recurrence (df_len d) (cell d "close")
    (λ i, basic_upper multiplier (cell d "high" i) (cell d "low" i)
            (at_row (atr_source period a d) i))
    (λ i, basic_lower multiplier (cell d "high" i) (cell d "low" i)
            (at_row (atr_source period a d) i))
    (cell F "supertrend_upperband") (cell F "supertrend_lowerband")
    (cell F "supertrend_direction") (cell F "supertrend").
Proof.
  intros Hwf Hohlc Ha Hn F. subst F.
  destruct (supertrend_frame_view period multiplier a d Hwf Hohlc)
    as (d0 & a0 & -> & Hwf0 & Hohlc0 & Ha0 & Hlen0 & Hsame & Hatr & Hname).
  assert (a0 ≠ "supertrend_upperband") as Ha0' by (by destruct Hname as [-> | ->]).
  rewrite <- Hlen0.
  pose proof (st_scan_init_recurrence "supertrend_upperband" "supertrend_lowerband"
                indicator_names multiplier a0 d0 Hwf0 Hohlc0 Ha0 Ha0' ltac:(lia)) as Hrec.
  simpl in Hrec.
  eapply supertrend_recurrence_ext; [| | | exact Hrec].
  - intros i. simpl. unfold cell. by rewrite (Hsame "close").
  - intros i. simpl. rewrite <- Hatr, <- cell_at. unfold cell.
    by rewrite (Hsame "high"), (Hsame "low").
  - intros i. simpl. rewrite <- Hatr, <- cell_at. unfold cell.
    by rewrite (Hsame "high"), (Hsame "low").
Qed.

(** While the ATR is undefined the bands are undefined and the direction
    stays at its initial +1. *)
Lemma recurrence_warm_up n close bu bl ub lb dir st k :
  supertrend_recurrence n close bu bl ub lb dir st →
  (∀ j, (j < k)%nat → bu j = NaN ∧ bl j = NaN) →
  ∀ i, (i < n)%nat → (i ≤ k)%nat →
    dir i = Num 1
    ∧ ((i < k)%nat → ub i = NaN ∧ lb i = NaN)
    ∧ ((1 ≤ i < k)%nat → st i = NaN).
Proof.
  intros (Hd0 & Hu0 & Hl0 & Hrec) Hnan.
  induction i as [|i IH]; intros Hi Hk.
  - split; [done|]. split; [|lia]. intros H0. rewrite Hu0, Hl0. by apply Hnan.
  - destruct IH as (Hdir & Hbands & _); [lia..|].
    destruct Hbands as [Hub Hlb]; [lia|].
    destruct (Hrec (S i)) as (HU & HL & HD & HS); [lia|].
    replace (S i - 1)%nat with i in * by lia.
    rewrite Hub in HU, HD. rewrite Hlb in HL, HD.
    assert (∀ x, (x <=? NaN)%F = false) as Hle by (by intros []).
    assert (∀ x, (x >=? NaN)%F = false) as Hge by (by intros []).
    assert (∀ x, (x >? NaN)%F = false) as Hgt by (by intros []).
    assert (∀ x, (x <? NaN)%F = false) as Hlt by (by intros []).
    rewrite Hle in HU. rewrite Hge in HL. rewrite Hgt, Hlt, Hdir in HD.
    split; [done|].
    assert ((S i < k)%nat → ub (S i) = NaN ∧ lb (S i) = NaN) as Hb.
    { intros HSk. rewrite HU, HL. by apply Hnan. }
    split; [done|]. intros HSk. destruct Hb as [? Hlb']; [lia|].
    rewrite HS, HD. simpl. done.
Qed.

Lemma basic_bands_NaN multiplier high low :
  basic_upper multiplier high low NaN = NaN ∧ basic_lower multiplier high low NaN = NaN.
Proof.
  unfold basic_upper, basic_lower.
  split; destruct ((high + low) / Num 2)%F, multiplier; done.
Qed.

(** Once a close is inside a band, the band only tightens. *)
Lemma recurrence_ratchet n close bu bl ub lb dir st i :
  supertrend_recurrence n close bu bl ub lb dir st → (1 ≤ i < n)%nat →
  (∀ c x y, close (i - 1)%nat = Num c → ub i = Num x → ub (i - 1)%nat = Num y →
     c <= y → x <= y)
  ∧ (∀ c x y, close (i - 1)%nat = Num c → lb i = Num x → lb (i - 1)%nat = Num y →
       y <= c → y <= x).
Proof.
  intros (_ & _ & _ & Hrec) Hi. destruct (Hrec i Hi) as (HU & HL & _ & _).
  split; intros c x y Hc Hx Hy Hcy.
  - rewrite Hc, Hy in HU.
    assert ((Num c <=? Num y)%F = true) as Hle by (by apply fle_Num).
    rewrite Hle in HU. rewrite Hx in HU. unfold py_min in HU.
    destruct (bu i) as [z|]; [|done].
    destruct (Num y <? Num z)%F eqn:E.
    + injection HU as ->. apply Qle_refl.
    + injection HU as ->. by apply flt_Num_false in E.
  - rewrite Hc, Hy in HL.
    assert ((Num c >=? Num y)%F = true) as Hge by (by apply fle_Num).
    rewrite Hge in HL. rewrite Hx in HL. unfold py_max in HL.
    destruct (bl i) as [z|]; [|done].
    destruct (Num y >? Num z)%F eqn:E.
    + injection HL as ->. apply Qle_refl.
    + injection HL as ->. by apply flt_Num_false in E.
Qed.

(** ** The queries of the indicator module *)

Lemma tail_int_lookup (n : Z) (s : Series) (k : nat) :
  (1 ≤ k)%nat → (Z.of_nat k ≤ n)%Z → (n ≤ Z.of_nat (length s))%Z →
  series_iloc_neg (tail_int n s) k = series_iloc_neg s k.
Proof.
  intros Hk Hkn Hn. unfold tail_int.
  destruct (Z.eqb_spec n 0) as [?|_]; [lia|].
  destruct (Z.ltb_spec 0 n) as [_|?]; [|lia].
  unfold series_iloc_neg. rewrite length_drop.
  assert (Z.to_nat n ≤ length s)%nat as Hn' by lia.
  assert (k ≤ Z.to_nat n)%nat as Hk' by lia.
  rewrite (bool_decide_eq_true_2 (k ≤ length s - _)%nat) by lia.
  rewrite (bool_decide_eq_true_2 (k ≤ length s)%nat) by lia.
  rewrite lookup_drop.
  by replace (length s - Z.to_nat n + (length s - (length s - Z.to_nat n) - k))%nat
    with (length s - k)%nat by lia.
Qed.

Lemma series_iloc_neg_lookup (s : Series) (k : nat) x :
  (1 ≤ k ≤ length s)%nat → s !! (length s - k)%nat = Some x →
  series_iloc_neg s k = Ok x.
Proof.
  intros Hk Hx. unfold series_iloc_neg.
  rewrite bool_decide_eq_true_2 by lia. by rewrite Hx.
Qed.

Lemma tail_int_nonempty (n : Z) (s : Series) :
  (1 ≤ n)%Z → (n ≤ Z.of_nat (length s))%Z →
  ∃ x rest, tail_int n s = x :: rest.
Proof.
  intros Hn Hlen. unfold tail_int.
  destruct (Z.eqb_spec n 0) as [?|_]; [lia|].
  destruct (Z.ltb_spec 0 n) as [_|?]; [|lia].
  destruct (drop (length s - Z.to_nat n) s) as [|x rest] eqn:E; [|by eauto].
  apply (f_equal length) in E. rewrite length_drop in E. simpl in E. lia.
Qed.

Lemma bullish_xor_bearish df directions :
  df_wf df → df_cols df !! "supertrend_direction" = Some directions →
  (1 ≤ df_len df)%nat →
  Forall (λ x, x = Num 1 ∨ x = Num (-1)) directions →
  ∃ b : bool,
    is_supertrend_bullish df 1 = Ok b ∧ is_supertrend_bearish df 1 = Ok (negb b)
    ∧ (b = true ↔ last directions = Some (Num 1)).
Proof.
  intros Hwf Hdirs Hn Hsign. pose proof (Hwf _ _ Hdirs) as Hlen.
  unfold is_supertrend_bullish, is_supertrend_bearish, df_has, df_col.
  rewrite Hdirs, bool_decide_eq_true_2 by eauto. cbn [negb orb mbind result_bind].
  destruct (Z.ltb_spec (Z.of_nat (df_len df)) 1) as [?|_]; [lia|].
  unfold tail_int. change (1 =? 0)%Z with false. change (0 <? 1)%Z with true.
  cbv iota. change (Z.to_nat 1) with 1%nat.
  destruct (last directions) as [x|] eqn:Hlast.
  2: { apply last_None in Hlast. subst. simpl in Hlen. lia. }
  assert (drop (length directions - 1) directions = [x]) as ->.
  { rewrite last_lookup in Hlast.
    replace (Init.Nat.pred (length directions)) with (length directions - 1)%nat
      in Hlast by lia.
    apply list_eq. intros [|i].
    - rewrite lookup_drop, Nat.add_0_r. done.
    - rewrite lookup_drop. simpl. apply lookup_ge_None_2. lia. }
  assert (x ∈ directions) as Hin.
  { rewrite last_lookup in Hlast. by eapply list_elem_of_lookup_2. }
  rewrite Forall_forall in Hsign. destruct (Hsign x Hin) as [-> | ->].
  - exists true. by repeat split.
  - exists false. repeat split; [done|]. intros H. by injection H.
Qed.

Lemma get_supertrend_stop_loss_run d direction :
  df_wf d → (1 ≤ df_len d)%nat → is_Some (df_cols d !! "supertrend") →
  get_supertrend_stop_loss d direction = Ok (cell d "supertrend" (df_len d - 1)).
Proof.
  intros Hwf Hlen [s Hs]. unfold get_supertrend_stop_loss, df_has.
  rewrite bool_decide_eq_true_2 by eauto. cbn [negb orb].
  destruct (Nat.eqb_spec (df_len d) 0) as [?|_]; [lia|].
  unfold iloc_neg, iloc.
  rewrite (bool_decide_eq_true_2 (1 ≤ df_len d)%nat) by lia.
  rewrite (bool_decide_eq_true_2 (df_len d - 1 < df_len d)%nat) by lia.
  cbn [mbind result_bind]. unfold row_getitem. rewrite lookup_omap, Hs.
  cbn [mbind option_bind]. rewrite (cell_lookup d _ s (df_len d - 1) Hwf Hs) by lia.
  by destruct (String.eqb direction "long").
Qed.

(** ** More on the strategies *)

Lemma fadd_if_Num (b : bool) (q x : Q) :
  (if b then (Num q + Num x)%F else Num q) = Num (if b then q + x else q).
Proof. by destruct b. Qed.

Ltac boost_stage H :=
  repeat first
    [ apply result_bind_ok in H as (? & ? & H)
    | match type of H with
      | (if ?b then _ else _) = Ok _ => destruct b
      end ];
  injection H as <-; rewrite ?fadd_Num;
  eexists; (split; [reflexivity|]); lra.
Ltac range_goal :=
  repeat match goal with
         | |- context [if ?b then _ else _] => destruct b
         end;
  rewrite ?fadd_Num; eexists; (split; [reflexivity|]); lra.

(** The confidence either strategy computes is a number between 0.5 and
    1. *)
Lemma supertrend_confidence_range (self : SuperTrendStrategy.t) (latest : Row)
    (data : DataFrame) (conf : float) :
  SuperTrendStrategy._calculate_confidence self latest data = Ok conf →
  ∃ q, conf = Num q ∧ 0.5 <= q ∧ q <= 1 ∧ (conf <? Num 0.5)%F = false.
Proof.
  unfold SuperTrendStrategy._calculate_confidence. intros H.
  apply result_bind_ok in H as (c1 & H1 & H).
  assert (∃ q1, c1 = Num q1 ∧ 0.5 <= q1) as (q1 & -> & Hq1) by boost_stage H1.
  apply result_bind_ok in H as (vol & _ & H).
  set (c1' := if vol then _ else _) in *.
  assert (∃ q1', c1' = Num q1' ∧ 0.5 <= q1') as (q1' & Hc1' & Hq1').
  { subst c1'. destruct vol; rewrite ?fadd_Num; eexists; (split; [reflexivity|]); lra. }
  rewrite Hc1' in *. clear c1' Hc1'.
  apply result_bind_ok in H as (c2 & H2 & H).
  assert (∃ q2, c2 = Num q2 ∧ 0.5 <= q2) as (q2 & -> & Hq2) by boost_stage H2.
  apply result_bind_ok in H as (c3 & H3 & H).
  assert (∃ q3, c3 = Num q3 ∧ 0.5 <= q3) as (q3 & -> & Hq3) by boost_stage H3.
  injection H as <-.
  unfold py_min.
  destruct (Num 1.0 <? Num q3)%F eqn:E.
  - exists 1.0. split; [done|]. split; [lra|]. split; [lra|]. by apply flt_Num_false.
  - apply flt_Num_false in E. exists q3. split; [done|]. split; [done|].
    split; [lra|]. by apply flt_Num_false.
Qed.

Lemma macd_confidence_range (self : MacdRsiStrategy.t) (latest : Row)
    (data : DataFrame) (conf : float) :
  MacdRsiStrategy._calculate_confidence self latest data = Ok conf →
  ∃ q, conf = Num q ∧ 0.5 <= q ∧ q <= 1 ∧ (conf <? Num 0.5)%F = false.
Proof.
  unfold MacdRsiStrategy._calculate_confidence. intros H.
  apply result_bind_ok in H as (c3 & H3 & H).
  assert (∃ q3, c3 = Num q3 ∧ 0.5 <= q3) as (q3 & -> & Hq3).
  { repeat first
      [ apply result_bind_ok in H3 as (? & ? & H3)
      | match type of H3 with
        | (if ?b then _ else _) = Ok _ => destruct b
        end ];
    injection H3 as <-; clear; range_goal. }
  apply result_bind_ok in H as (vol & _ & H).
  injection H as <-.
  set (c4 := if vol then _ else _).
  assert (∃ q4, c4 = Num q4 ∧ 0.5 <= q4) as (q4 & -> & Hq4).
  { subst c4. destruct vol; rewrite ?fadd_Num; eexists; (split; [reflexivity|]); lra. }
  unfold py_min.
  destruct (Num 1.0 <? Num q4)%F eqn:E.
  - exists 1.0. split; [done|]. split; [lra|]. split; [lra|]. by apply flt_Num_false.
  - apply flt_Num_false in E. exists q4. split; [done|]. split; [done|].
    split; [lra|]. by apply flt_Num_false.
Qed.

(** What a returned list of the MACD/RSI strategy was built from. *)
Lemma macd_generate_signals_inv self data sigs :
  MacdRsiStrategy.generate_signals self data = Ok sigs →
  data !! "15min" = None
  ∧ (sigs = []
     ∨ ∃ sig primary latest,
         sigs = [sig] ∧ data !! "primary" = Some primary
         ∧ iloc_neg primary 1 = Ok latest
         ∧ MacdRsiStrategy._check_entry_conditions self latest primary (data !! "daily")
           = Ok true
         ∧ MacdRsiStrategy._create_buy_signal self latest primary = Ok sig).
Proof.
  unfold MacdRsiStrategy.generate_signals. intros Hgen.
  destruct (data !! "15min") as [d|] eqn:H15; [done|].
  split; [done|]. cbn [mbind result_bind] in Hgen.
  destruct (data !! "primary") as [primary|] eqn:Hp; [|injection Hgen as <-; by left].
  destruct (df_empty primary); [injection Hgen as <-; by left|].
  apply result_bind_ok in Hgen as (latest & Hlatest & Hgen).
  apply result_bind_ok in Hgen as (enter & Henter & Hgen).
  destruct enter; [|injection Hgen as <-; by left].
  apply result_bind_ok in Hgen as (sig & Hsig & Hgen).
  injection Hgen as <-. right. by exists sig, primary, latest.
Qed.

Lemma macd_create_buy_signal_fields self latest primary sig :
  MacdRsiStrategy._create_buy_signal self latest primary = Ok sig →
  MacdRsiStrategy._calculate_confidence self latest primary = Ok (confidence sig)
  ∧ signal_type sig = BUY
  ∧ reason sig = "MACD positive, RSI in range, above BB lower"
  ∧ latest !! "close" = Some (price sig).
Proof.
  unfold MacdRsiStrategy._create_buy_signal. intros Hsig.
  apply result_bind_ok in Hsig as (conf & Hconf & Hsig).
  apply result_bind_ok in Hsig as (c1 & Hc1 & Hsig).
  apply result_bind_ok in Hsig as (c2 & Hc2 & Hsig).
  apply result_bind_ok in Hsig as (c3 & Hc3 & Hsig).
  apply result_bind_ok in Hsig as (c4 & Hc4 & Hsig).
  injection Hsig as <-. simpl. repeat split; [done|].
  unfold row_getitem in Hc4. by destruct (latest !! "close"); simplify_eq.
Qed.

(** ** More on the engine *)

Section ResultLemmas.
Context {W : Type} (C : Collaborators W).
Variable config : EngineConfig.
Variable strategies : list Strategy.

Lemma keeps_results_ret {A} (a : A) : keeps_results (W := W) (mret a).
Proof. done. Qed.
Lemma keeps_results_lift {A} (r : result A) : keeps_results (W := W) (lift r).
Proof. done. Qed.
Lemma keeps_results_call {A} ev (f : W → result A * W) : keeps_results (call ev f).
Proof. intros s. unfold call. by destruct (f (world s)). Qed.
Lemma keeps_results_note ev : keeps_results (W := W) (note ev).
Proof. done. Qed.
Lemma keeps_results_bind {A B} (m : St (EngineState W) A)
    (f : A → St (EngineState W) B) :
  keeps_results m → (∀ a, keeps_results (f a)) → keeps_results (m ≫= f).
Proof.
  intros Hm Hf s. specialize (Hm s). unfold mbind, St_bind.
  destruct (m s) as [[a|e] s1]; simpl in *; [|done]. by rewrite Hf.
Qed.
Lemma keeps_results_try_except {A} (m : St (EngineState W) A)
    (handler : exn → St (EngineState W) A) :
  keeps_results m → (∀ e, keeps_results (handler e)) →
  keeps_results (try_except m handler).
Proof.
  intros Hm Hh s. specialize (Hm s). unfold try_except.
  destruct (m s) as [[a|e] s1]; simpl in *; [done|]. by rewrite Hh.
Qed.

Lemma get_symbol_data_keeps_results symbol :
  keeps_results (_get_symbol_data C symbol).
Proof.
  unfold _get_symbol_data.
  apply keeps_results_try_except; [|intros; apply keeps_results_ret].
  repeat (apply keeps_results_bind; [apply keeps_results_call | intros ?]).
  apply keeps_results_ret.
Qed.

(** Both per-symbol procedures end where [_get_symbol_data] ends. *)
Lemma check_exit_conditions_stops symbol position s :
  ∃ r, _check_exit_conditions C config strategies symbol position s
       = (r, (_get_symbol_data C symbol s).2).
Proof.
  unfold _check_exit_conditions, mbind, St_bind, lift.
  destruct (_get_symbol_data C symbol s) as [[data|e] s1]; simpl; [|by eexists].
  pose proof (no_primary_data_never_false data) as Hguard.
  destruct (no_primary_data data) as [[|]|e]; [by eexists | done | by eexists].
Qed.
Lemma check_entry_signals_stops symbol s :
  ∃ r, _check_entry_signals C config strategies symbol s
       = (r, (_get_symbol_data C symbol s).2).
Proof.
  unfold _check_entry_signals, mbind, St_bind, lift.
  destruct (_get_symbol_data C symbol s) as [[data|e] s1]; simpl; [|by eexists].
  pose proof (no_primary_data_never_false data) as Hguard.
  destruct (no_primary_data data) as [[|]|e]; [by eexists | done | by eexists].
Qed.

Lemma quiet_result_append_error n msg r :
  quiet_result n r → quiet_result n (append_error msg r).
Proof. by intros (? & ? & ? & ? & ?). Qed.

Lemma process_symbols_quiet n symbols s :
  quiet_result n (results s) →
  ∃ s' evs,
    for_each symbols (λ symbol,
      try_except (
        position ← call (EvGetPosition symbol) (get_position C symbol);
        match position with
        | Some position => _check_exit_conditions C config strategies symbol position
        | None => _check_entry_signals C config strategies symbol
        end)
        (λ e, update_results (append_error (symbol +:+ ": " +:+ exn_str e)))) s
    = (Ok tt, s')
    ∧ trace s' = trace s ++ evs ∧ Forall quiet_event evs
    ∧ quiet_result n (results s').
Proof.
  revert s. induction symbols as [|symbol symbols IH]; intros s Hq.
  { exists s, []. by rewrite app_nil_r. }
  cbn [for_each]. unfold mbind at 1, St_bind at 1.
  assert (∃ s1 evs1,
            try_except (
              position ← call (EvGetPosition symbol) (get_position C symbol);
              match position with
              | Some position =>
                  _check_exit_conditions C config strategies symbol position
              | None => _check_entry_signals C config strategies symbol
              end)
              (λ e, update_results (append_error (symbol +:+ ": " +:+ exn_str e))) s
            = (Ok tt, s1)
            ∧ trace s1 = trace s ++ evs1 ∧ Forall quiet_event evs1
            ∧ quiet_result n (results s1)) as (s1 & evs1 & -> & Htr1 & Hevs1 & Hq1).
  { unfold try_except, mbind, St_bind, call.
    destruct (get_position C symbol (world s)) as [[position|e] w1].
    2: { eexists _, [EvGetPosition symbol]. split; [done|]. split; [done|].
         split; [|by apply quiet_result_append_error].
         apply Forall_singleton. right. left. by eexists. }
    set (s0 := mkEngineState w1 (trace s ++ [EvGetPosition symbol]) (results s)).
    assert (∃ r, match position with
                 | Some position =>
                     _check_exit_conditions C config strategies symbol position
                 | None => _check_entry_signals C config strategies symbol
                 end s0 = (r, (_get_symbol_data C symbol s0).2)) as [r ->].
    { destruct position;
        [apply check_exit_conditions_stops | apply check_entry_signals_stops]. }
    destruct (emits_get_symbol_data C is_fetch symbol
                ltac:(by intros; eexists _, _) s0) as (evs & Htr & Hevs).
    pose proof (get_symbol_data_keeps_results symbol s0) as Hres.
    destruct (_get_symbol_data C symbol s0) as [rd s1]. simpl in *.
    assert (Forall quiet_event (EvGetPosition symbol :: evs)) as Hall.
    { constructor; [right; left; by eexists|].
      eapply Forall_impl; [done|]. intros ev Hev. by right; right. }
    destruct r as [[]|e].
    - exists s1, (EvGetPosition symbol :: evs). split; [done|].
      split; [by rewrite Htr, <- app_assoc|]. split; [done|]. by rewrite Hres.
    - eexists _, (EvGetPosition symbol :: evs). split; [done|]. simpl.
      split; [by rewrite Htr, <- app_assoc|]. split; [done|].
      apply quiet_result_append_error. by rewrite Hres. }
  destruct (IH s1 Hq1) as (s' & evs & -> & Htr & Hevs & Hq').
  exists s', (evs1 ++ evs). split; [done|].
  split; [by rewrite Htr, Htr1, app_assoc|]. split; [by apply Forall_app|done].
Qed.
End ResultLemmas.

Ltac in_events H :=
  repeat (apply elem_of_cons in H as [H|H]; [try discriminate H|]);
  try (by apply elem_of_nil in H).





(** ** Several SuperTrends on one frame *)

(** The recurrence has one solution. *)
Lemma recurrence_unique n close bu bl ub lb dir st ub' lb' dir' st' :
  supertrend_recurrence n close bu bl ub lb dir st →
  supertrend_recurrence n close bu bl ub' lb' dir' st' →
  ∀ i, (i < n)%nat →
    ub i = ub' i ∧ lb i = lb' i ∧ dir i = dir' i ∧ ((1 ≤ i)%nat → st i = st' i).
Proof.
  intros (Hd & Hu & Hl & Hrec) (Hd' & Hu' & Hl' & Hrec').
  induction i as [|i IH]; intros Hi.
  - rewrite Hd, Hu, Hl, Hd', Hu', Hl'. repeat split. lia.
  - destruct IH as (IHu & IHl & IHd & _); [lia|].
    destruct (Hrec (S i)) as (HU & HL & HD & HS); [lia|].
    destruct (Hrec' (S i)) as (HU' & HL' & HD' & HS'); [lia|].
    replace (S i - 1)%nat with i in * by lia.
    rewrite IHu in HU, HD. rewrite IHl in HL, HD. rewrite IHd in HD.
    rewrite <- HU' in HU. rewrite <- HL' in HL. rewrite <- HD' in HD.
    rewrite HD, HU, HL in HS. rewrite <- HS' in HS. done.
Qed.

Lemma supertrend_frame_ext period multiplier d1 d2 :
  df_wf d1 → df_wf d2 → has_ohlc d1 → same_bars d1 d2 →
  df_cols (supertrend_frame period multiplier "atr" d1) !! "supertrend"
  = df_cols (supertrend_frame period multiplier "atr" d2) !! "supertrend"
  ∧ df_cols (supertrend_frame period multiplier "atr" d1) !! "supertrend_direction"
    = df_cols (supertrend_frame period multiplier "atr" d2) !! "supertrend_direction".
Proof.
  intros Hwf1 Hwf2 Hohlc1 [Hlen Hsame].
  assert (df_cols d1 !! "high" = df_cols d2 !! "high") as Hhigh
    by (apply Hsame; repeat constructor).
  assert (df_cols d1 !! "low" = df_cols d2 !! "low") as Hlow
    by (apply Hsame; repeat constructor).
  assert (df_cols d1 !! "close" = df_cols d2 !! "close") as Hclose
    by (apply Hsame; repeat constructor).
  assert (df_cols d1 !! "atr" = df_cols d2 !! "atr") as Hatr
    by (apply Hsame; repeat constructor).
  assert (has_ohlc d2) as Hohlc2.
  { unfold has_ohlc in *. by rewrite <- Hhigh, <- Hlow, <- Hclose. }
  destruct (supertrend_frame_ok period multiplier "atr" d1 Hwf1 Hohlc1)
    as ((HwfF1 & _ & _ & _ & Hdir1 & Hst1) & HlenF1 & _ & _ & Hline1).
  destruct (supertrend_frame_ok period multiplier "atr" d2 Hwf2 Hohlc2)
    as ((HwfF2 & _ & _ & _ & Hdir2 & Hst2) & HlenF2 & _ & _ & Hline2).
  assert (∀ i, (i < df_len d1)%nat →
            cell (supertrend_frame period multiplier "atr" d1) "supertrend_direction" i
            = cell (supertrend_frame period multiplier "atr" d2) "supertrend_direction" i
            ∧ cell (supertrend_frame period multiplier "atr" d1) "supertrend" i
              = cell (supertrend_frame period multiplier "atr" d2) "supertrend" i)
    as Hcells.
  { intros i Hi.
    pose proof (supertrend_frame_recurrence period multiplier "atr" d1 Hwf1 Hohlc1
                  ltac:(done) ltac:(lia)) as Hrec1.
    pose proof (supertrend_frame_recurrence period multiplier "atr" d2 Hwf2 Hohlc2
                  ltac:(done) ltac:(lia)) as Hrec2.
    cbv zeta in Hrec1, Hrec2. rewrite <- Hlen in Hrec2.
    assert (atr_source period "atr" d2 = atr_source period "atr" d1) as Hsrc.
    { unfold atr_source, column. by rewrite Hhigh, Hlow, Hclose, Hatr. }
    eapply (supertrend_recurrence_ext _ _ (cell d1 "close")) in Hrec2.
    2: { intros j. unfold cell. by rewrite Hclose. }
    2: { intros j. cbv beta. rewrite Hsrc. unfold cell. rewrite <- Hhigh, <- Hlow.
         reflexivity. }
    2: { intros j. cbv beta. rewrite Hsrc. unfold cell. rewrite <- Hhigh, <- Hlow.
         reflexivity. }
    destruct (recurrence_unique _ _ _ _ _ _ _ _ _ _ _ _ Hrec1 Hrec2 i Hi)
      as (_ & _ & Hd & Hs).
    split; [done|]. destruct i as [|i]; [|apply Hs; lia].
    rewrite Hline1, Hline2 by lia. done. }
  split; (apply column_ext; [done|done|congruence|done|done|]);
    intros j Hj; apply Hcells; lia.
Qed.

Lemma getitem_run l c h d s :
  h !! l = Some d → df_cols d !! c = Some s → getitem l c h = (Ok s, h).
Proof. intros Hh Hc. unfold getitem, read_frame, mbind, St_bind. by rewrite Hh, Hc. Qed.
Lemma setitem_run l c s h d :
  h !! l = Some d → setitem l c s h = (Ok tt, <[l := set_col c s d]> h).
Proof. intros Hh. unfold setitem, read_frame, write_frame, mbind, St_bind. by rewrite Hh. Qed.

Lemma suffixed_not_bar x c :
  c ∈ ["high"; "low"; "close"; "atr"] →
  "supertrend" +:+ x ≠ c.
Proof.
  intros Hc Heq. subst c. 
  repeat (apply elem_of_cons in Hc as [Hc|Hc]; [discriminate Hc|]).
  by apply elem_of_nil in Hc.
Qed.

Lemma same_bars_set_col d dk x s :
  same_bars d dk → same_bars d (set_col ("supertrend" +:+ x) s dk).
Proof.
  intros [Hlen Hsame]. split; [by rewrite set_col_len|].
  intros c Hc. rewrite (Hsame c Hc). unfold set_col. simpl.
  symmetry. apply lookup_insert_ne. by apply suffixed_not_bar.
Qed.

Lemma multiple_step l1 d dk config h :
  h !! l1 = Some dk → df_wf d → has_ohlc d → df_wf dk → same_bars d dk →
  ∃ h', multiple_body l1 config h = (Ok tt, h')
    ∧ h' !! l1 = Some (add_supertrend d dk config)
    ∧ df_wf (add_supertrend d dk config)
    ∧ same_bars d (add_supertrend d dk config)
    ∧ ∀ l2, l2 ≠ l1 → is_Some (h !! l2) → h' !! l2 = h !! l2.
Proof.
  intros Hh Hwf Hohlc Hwfk Hsame. destruct config as [period multiplier].
  assert (has_ohlc dk) as Hohlck.
  { destruct Hsame as [_ Hs]. unfold has_ohlc in *.
    rewrite <- !Hs by repeat constructor. done. }
  destruct (calculate_supertrend_run l1 period (Num (inject_Z multiplier)) "atr" h dk
              Hh Hwfk Hohlck) as (lt & h1 & Hrun & Hlt & Hsub & Hnew).
  assert (lt ≠ l1) as Hne by (intros ->; by rewrite Hh in Hnew).
  destruct (supertrend_frame_ext period (Num (inject_Z multiplier)) d dk
              Hwf Hwfk Hohlc Hsame) as [Hst Hdir].
  destruct (supertrend_frame_ok period (Num (inject_Z multiplier)) "atr" d Hwf Hohlc)
    as ((HwfF & _ & _ & _ & [sd Hsd] & [ss Hss]) & HlenF & _).
  assert (length ss = df_len d ∧ length sd = df_len d) as [Hlss Hlsd].
  { rewrite <- HlenF. split; eapply HwfF; eauto. }
  unfold add_supertrend, column. cbn [fst snd]. rewrite Hss, Hsd. cbn [default id].
  rewrite Hst in Hss. rewrite Hdir in Hsd.
  set (n1 := "supertrend" +:+ supertrend_suffix period multiplier).
  set (n2 := "supertrend_direction" +:+ supertrend_suffix period multiplier).
  exists (<[l1 := set_col n2 sd (set_col n1 ss dk)]> (<[l1 := set_col n1 ss dk]> h1)).
  split; [|split; [|split; [|split]]].
  - unfold multiple_body. cbv zeta. fold n1 n2.
    rewrite (bind_run _ _ _ _ _ Hrun).
    rewrite (bind_run _ _ _ _ _ (getitem_run _ _ _ _ _ Hlt Hss)).
    assert (h1 !! l1 = Some dk) as Hh1 by (eapply lookup_weaken; eauto).
    rewrite (bind_run _ _ _ _ _ (setitem_run _ n1 ss _ _ Hh1)).
    erewrite bind_run.
    2: { eapply getitem_run; [|exact Hsd]. by rewrite lookup_insert_ne. }
    erewrite setitem_run; [done|]. apply lookup_insert_eq.
  - apply lookup_insert_eq.
  - destruct Hsame as [Hlen _].
    apply set_col_wf; [apply set_col_wf; [done|congruence]|].
    rewrite set_col_len. congruence.
  - subst n2. change ("supertrend_direction" +:+ ?x) with ("supertrend" +:+ ("_direction" +:+ x)).
    by do 2 apply same_bars_set_col.
  - intros l2 Hl2 [x Hx]. rewrite !lookup_insert_ne by done.
    rewrite Hx. eapply lookup_weaken; eauto.
Qed.

Lemma multiple_loop l1 d configs :
  df_wf d → has_ohlc d →
  ∀ dk h, h !! l1 = Some dk → df_wf dk → same_bars d dk →
  ∃ h', for_each configs (multiple_body l1) h = (Ok tt, h')
    ∧ h' !! l1 = Some (foldl (add_supertrend d) dk configs)
    ∧ df_wf (foldl (add_supertrend d) dk configs)
    ∧ ∀ l2, l2 ≠ l1 → is_Some (h !! l2) → h' !! l2 = h !! l2.
Proof.
  intros Hwf Hohlc. induction configs as [|config configs IH]; intros dk h Hh Hwfk Hsame.
  - exists h. by repeat split.
  - destruct (multiple_step l1 d dk config h Hh Hwf Hohlc Hwfk Hsame)
      as (h1 & Hrun & Hh1 & Hwf1 & Hsame1 & Hother1).
    destruct (IH _ h1 Hh1 Hwf1 Hsame1) as (h' & Hrun' & Hh' & Hwf' & Hother').
    exists h'. split; [|split; [done|split; [done|]]].
    + cbn [for_each]. by rewrite (bind_run _ _ _ _ _ Hrun).
    + intros l2 Hl2 Hsome. rewrite Hother' by (by rewrite ?Hother1). by apply Hother1.
Qed.

Lemma add_supertrend_len d dk config : df_len (add_supertrend d dk config) = df_len dk.
Proof. done. Qed.

Lemma foldl_add_supertrend_len d configs :
  ∀ dk, df_len (foldl (add_supertrend d) dk configs) = df_len dk.
Proof. induction configs as [|c cs IH]; intros dk; [done|]. simpl. by rewrite IH. Qed.

Lemma foldl_add_supertrend_other d configs c :
  c ∉ multiple_names configs →
  ∀ dk, df_cols (foldl (add_supertrend d) dk configs) !! c = df_cols dk !! c.
Proof.
  induction configs as [|[p m] cs IH]; intros Hc dk; [done|].
  simpl in Hc. apply not_elem_of_cons in Hc as [Hc1 Hc].
  apply not_elem_of_cons in Hc as [Hc2 Hc].
  cbn [foldl]. rewrite IH by done. unfold add_supertrend, set_col. cbn.
  by rewrite !lookup_insert_ne.
Qed.

Lemma pretty_N_char_digit x : is_digit (pretty_N_char x) = true.
Proof. unfold pretty_N_char. by repeat case_match. Qed.

Lemma pretty_N_go_digits x : ∀ s, all_digits s = true → all_digits (pretty_N_go x s) = true.
Proof.
  induction (N.lt_wf_0 x) as [x _ IH]; intros s Hs.
  assert (x = 0 ∨ 0 < x)%N as [->|?] by lia.
  - by rewrite pretty_N_go_0.
  - rewrite pretty_N_go_step by done. apply IH; [by apply N.div_lt|].
    cbn [all_digits]. by rewrite pretty_N_char_digit.
Qed.

Lemma pretty_nat_digits (n : nat) : all_digits (pretty n) = true.
Proof.
  unfold pretty, pretty_nat, pretty, pretty_N. case_decide; [done|].
  by apply pretty_N_go_digits.
Qed.

Lemma digits_split a a' b b' :
  all_digits a = true → all_digits a' = true →
  a +:+ "_" +:+ b = a' +:+ "_" +:+ b' → a = a' ∧ b = b'.
Proof.
  revert a'. induction a as [|c a IH]; intros [|c' a'] Ha Ha' Heq; simplify_eq/=; [done|].
  apply andb_prop in Ha as [_ Ha]. apply andb_prop in Ha' as [_ Ha'].
  match goal with H : _ +:+ _ = _ |- _ => destruct (IH a' Ha Ha' H) as [-> ->] end. done.
Qed.

Lemma supertrend_suffix_inj p m p' m' :
  supertrend_suffix p m = supertrend_suffix p' m' → p = p' ∧ m = m'.
Proof.
  unfold supertrend_suffix. intros Heq. injection Heq as Heq.
  apply digits_split in Heq as [Hp Hm]; try apply pretty_nat_digits.
  split; [by apply (inj pretty) | by apply (inj pretty)].
Qed.

Lemma supertrend_names_differ p m p' m' :
  "supertrend" +:+ supertrend_suffix p m
  ≠ "supertrend_direction" +:+ supertrend_suffix p' m'.
Proof.
  unfold supertrend_suffix. intros Heq. cbn in Heq. injection Heq as Heq.
  pose proof (pretty_nat_digits p) as Hd. destruct (pretty p); cbn in *; [done|].
  injection Heq as -> _. done.
Qed.

Lemma foldl_add_supertrend_config d p m configs :
  ∀ dk,
    (p, m) ∈ configs
    ∨ (df_cols dk !! ("supertrend" +:+ supertrend_suffix p m)
       = Some (column (supertrend_frame p (Num (inject_Z m)) "atr" d) "supertrend")
       ∧ df_cols dk !! ("supertrend_direction" +:+ supertrend_suffix p m)
         = Some (column (supertrend_frame p (Num (inject_Z m)) "atr" d)
                   "supertrend_direction")) →
    df_cols (foldl (add_supertrend d) dk configs) !! ("supertrend" +:+ supertrend_suffix p m)
    = Some (column (supertrend_frame p (Num (inject_Z m)) "atr" d) "supertrend")
    ∧ df_cols (foldl (add_supertrend d) dk configs)
        !! ("supertrend_direction" +:+ supertrend_suffix p m)
      = Some (column (supertrend_frame p (Num (inject_Z m)) "atr" d) "supertrend_direction").
Proof.
  induction configs as [|[p0 m0] cs IH]; intros dk Hin.
  - destruct Hin as [Hin|Hin]; [by apply elem_of_nil in Hin | done].
  - cbn [foldl]. apply IH.
    destruct (decide ((p0, m0) = (p, m))) as [Heq|Hne].
    + right. injection Heq as -> ->. unfold add_supertrend, set_col. cbn.
      rewrite lookup_insert_ne by apply not_eq_sym, supertrend_names_differ.
      by rewrite !lookup_insert_eq.
    + destruct Hin as [Hin|[H1 H2]].
      { apply elem_of_cons in Hin as [Hin|Hin]; [by symmetry in Hin | by left]. }
      right. unfold add_supertrend, set_col. cbn.
      assert (supertrend_suffix p0 m0 ≠ supertrend_suffix p m) as Hsuf.
      { intros Hs. apply supertrend_suffix_inj in Hs as [-> ->]. done. }
      rewrite !lookup_insert_ne; [done|..];
        first [ apply supertrend_names_differ
              | apply not_eq_sym, supertrend_names_differ
              | by intros ?%(inj (String.app _)) ].
Qed.

Lemma calculate_multiple_supertrends_run l h d configs :
  h !! l = Some d → df_wf d → has_ohlc d →
  ∃ h',
    calculate_multiple_supertrends l configs h = (Ok (fresh (dom h)), h')
    ∧ h' !! fresh (dom h)
      = Some (foldl (add_supertrend d) d (default default_configs configs))
    ∧ df_wf (foldl (add_supertrend d) d (default default_configs configs))
    ∧ h' !! l = Some d.
Proof.
  intros Hh Hwf Hohlc. unfold calculate_multiple_supertrends.
  rewrite (bind_run _ _ _ _ _ (copy_run _ _ _ Hh)).
  destruct (multiple_loop (fresh (dom h)) d (default default_configs configs) Hwf Hohlc
              d (<[fresh (dom h) := d]> h))
    as (h' & Hrun & Hh' & Hwf' & Hother); [apply lookup_insert_eq | done | by split |].
  exists h'. split; [|split; [done|split; [done|]]].
  - change (for_each _ _) with
      (for_each (default default_configs configs) (multiple_body (fresh (dom h)))).
    by rewrite (bind_run _ _ _ _ _ Hrun).
  - assert (l ≠ fresh (dom h)) as Hne by (intros ->; by rewrite fresh_lookup in Hh).
    rewrite Hother; [by rewrite lookup_insert_ne | done |].
    by rewrite lookup_insert_ne.
Qed.

(** ** The confluence of several SuperTrends *)

Lemma mapM_ok {A B} (f : A → result B) (g : A → B) (l : list A) :
  (∀ x, x ∈ l → f x = Ok (g x)) → mapM f l = Ok (g <$> l).
Proof.
  induction l as [|x l IH]; intros Hf; [done|].
  cbn [mapM]. rewrite (Hf x) by left. cbn. rewrite IH; [done|].
  intros y Hy. apply Hf. by right.
Qed.

Lemma length_filter_fmap {A B} (g : A → B) (P : B → Prop) `{∀ x, Decision (P x)}
    (l : list A) :
  length (filter P (g <$> l)) = length (filter (λ x, P (g x)) l).
Proof.
  induction l as [|x l IH]; [done|]. cbn [fmap list_fmap].
  rewrite !filter_cons. repeat case_decide; simpl; congruence.
Qed.

Lemma elem_of_keys (d : DataFrame) c :
  c ∈ (map_to_list (df_cols d)).*1 ↔ is_Some (df_cols d !! c).
Proof.
  rewrite list_elem_of_fmap. split.
  - intros ([c' s] & -> & Hin). apply elem_of_map_to_list in Hin. by exists s.
  - intros [s Hs]. exists (c, s). split; [done|]. by apply elem_of_map_to_list.
Qed.

Lemma get_supertrend_confluence_run d :
  df_wf d → (1 ≤ df_len d)%nat →
  get_supertrend_confluence d
  = Ok (length (filter (λ c, (cell d c (df_len d - 1) >? Num 0)%F = true)
                  (direction_columns d)),
        length (filter (λ c, (cell d c (df_len d - 1) <? Num 0)%F = true)
                  (direction_columns d))).
Proof.
  intros Hwf Hlen. unfold get_supertrend_confluence.
  destruct (Nat.eqb_spec (df_len d) 0) as [?|_]; [lia|].
  unfold iloc_neg, iloc.
  rewrite (bool_decide_eq_true_2 (1 ≤ df_len d)%nat) by lia.
  rewrite (bool_decide_eq_true_2 (df_len d - 1 < df_len d)%nat) by lia.
  cbn [mbind result_bind]. fold (direction_columns d).
  case_bool_decide as Hnil; [by rewrite Hnil|].
  rewrite (mapM_ok _ (λ c, cell d c (df_len d - 1))).
  2: { intros c Hc. apply list_elem_of_filter in Hc as [_ Hc].
       apply elem_of_keys in Hc as [s Hs]. unfold row_getitem.
       rewrite lookup_omap, Hs. simpl.
       by rewrite (cell_lookup d c s (df_len d - 1) Hwf Hs) by lia. }
  cbn [mbind result_bind]. by rewrite !length_filter_fmap.
Qed.

Lemma count_signs {A} (f : A → float) (l : list A) :
  (length (filter (λ c, (f c >? Num 0)%F = true) l)
   + length (filter (λ c, (f c <? Num 0)%F = true) l) ≤ length l)%nat
  ∧ ((∀ c, c ∈ l → ∃ q, f c = Num q ∧ ¬ q == 0) →
     (length (filter (λ c, (f c >? Num 0)%F = true) l)
      + length (filter (λ c, (f c <? Num 0)%F = true) l) = length l)%nat).
Proof.
  induction l as [|x l [IH1 IH2]]; [done|].
  assert ((f x >? Num 0)%F = true → (f x <? Num 0)%F = true → False) as Hex.
  { unfold fgt. destruct (f x) as [q|]; [|done].
    rewrite !flt_Num. lra. }
  split.
  - rewrite !filter_cons. repeat case_decide; cbn [length]; try lia. by destruct Hex.
  - intros Hall. specialize (IH2 (λ c Hc, Hall c (list_elem_of_further _ _ _ Hc))).
    destruct (Hall x ltac:(left)) as (q & Hq & Hq0).
    rewrite !filter_cons. repeat case_decide; cbn [length]; try lia.
    + by destruct Hex.
    + exfalso. unfold fgt in *. rewrite Hq in *.
      repeat match goal with H : ¬ _ = true |- _ => rewrite flt_Num in H end.
      lra.
Qed.

Lemma contains_lacks c sub s : lacks c s = true → contains s (String c sub) = false.
Proof.
  induction s as [|a s IH]; intros Hs; [done|].
  cbn [lacks] in Hs. apply andb_prop in Hs as [Ha Hs].
  cbn [contains String.prefix]. rewrite (IH Hs), orb_false_r.
  destruct (ascii_dec c a) as [->|?]; [|done].
  by rewrite Ascii.eqb_refl in Ha.
Qed.

Lemma lacks_app c s1 s2 : lacks c s1 = true → lacks c s2 = true → lacks c (s1 +:+ s2) = true.
Proof.
  induction s1 as [|a s1 IH]; intros H1 H2; [done|].
  cbn [lacks String.append] in *. apply andb_prop in H1 as [Ha H1].
  apply andb_true_intro. split; [done | by apply IH].
Qed.

Lemma digits_lack_s s : all_digits s = true → lacks "s" s = true.
Proof.
  induction s as [|a s IH]; intros Hs; [done|].
  cbn [lacks all_digits] in *. apply andb_prop in Hs as [Ha Hs]. rewrite (IH Hs), andb_true_r.
  unfold is_digit in Ha. apply bool_decide_eq_true_1 in Ha.
  repeat (apply elem_of_cons in Ha as [->|Ha]; [done|]). by apply elem_of_nil in Ha.
Qed.

Lemma pretty_positive_digits (m : positive) : all_digits (pretty m) = true.
Proof.
  unfold pretty, pretty_positive, pretty, pretty_N. case_decide; [done|].
  by apply pretty_N_go_digits.
Qed.

Lemma pretty_Z_lacks_s (m : Z) : lacks "s" (pretty m) = true.
Proof.
  destruct m as [|m|m]; [done| |].
  - change (pretty (Z.pos m)) with (pretty m). apply digits_lack_s, pretty_positive_digits.
  - change (pretty (Z.neg m)) with ("-" +:+ pretty m).
    apply lacks_app; [done|]. apply digits_lack_s, pretty_positive_digits.
Qed.

Lemma prefix_cons_ne a s1 b s2 : a ≠ b → String.prefix (String a s1) (String b s2) = false.
Proof. intros Hne. cbn [String.prefix]. by destruct (ascii_dec a b). Qed.
Lemma prefix_app a s1 s2 : String.prefix (a +:+ s1) (a +:+ s2) = String.prefix s1 s2.
Proof.
  induction a as [|c a IH]; [done|].
  change (String c a +:+ ?x) with (String c (a +:+ x)).
  cbn [String.prefix]. by destruct (ascii_dec c c).
Qed.

Lemma line_name_not_direction p m :
  contains ("supertrend" +:+ supertrend_suffix p m) "supertrend_direction" = false.
Proof.
  unfold supertrend_suffix.
  assert (lacks "s" (pretty p +:+ "_" +:+ pretty m) = true) as Hl.
  { apply lacks_app; [apply digits_lack_s, pretty_nat_digits|].
    apply (lacks_app _ "_"); [done | apply pretty_Z_lacks_s]. }
  assert (String.prefix "direction" (pretty p +:+ "_" +:+ pretty m) = false) as Hd.
  { pose proof (pretty_nat_digits p) as Hd.
    destruct (pretty p) as [|a r]; [by apply prefix_cons_ne|].
    change (String a r +:+ ?x) with (String a (r +:+ x)).
    apply prefix_cons_ne. intros <-. by vm_compute in Hd. }
  set (tail := pretty p +:+ "_" +:+ pretty m) in *.
  change ("supertrend" +:+ "_" +:+ tail) with (String "s" ("upertrend_" +:+ tail)).
  cbn [contains]. rewrite contains_lacks by (by apply lacks_app).
  change (String "s" ("upertrend_" +:+ tail)) with ("supertrend_" +:+ tail).
  change "supertrend_direction" with ("supertrend_" +:+ "direction").
  by rewrite prefix_app, Hd.
Qed.

Lemma direction_name_is_direction x :
  contains ("supertrend_direction" +:+ x) "supertrend_direction" = true.
Proof.
  destruct x as [|a x].
  - reflexivity.
  - change "supertrend_direction" with ("supertrend_direction" +:+ "") at 2.
    change ("supertrend_direction" +:+ String a x)
      with (String "s" ("upertrend_direction" +:+ String a x)).
    cbn [contains].
    change (String "s" ("upertrend_direction" +:+ String a x))
      with ("supertrend_direction" +:+ String a x).
    by rewrite prefix_app.
Qed.

Lemma elem_of_multiple_names c configs :
  c ∈ multiple_names configs
  ↔ ∃ p m, (p, m) ∈ configs
      ∧ (c = "supertrend" +:+ supertrend_suffix p m
         ∨ c = "supertrend_direction" +:+ supertrend_suffix p m).
Proof.
  induction configs as [|[p0 m0] cs IH].
  - split; [by intros ?%elem_of_nil | by intros (? & ? & ?%elem_of_nil & _)].
  - cbn [multiple_names flat_map app]. fold (multiple_names cs).
    rewrite !elem_of_cons, IH. split.
    + intros [->|[->|(p & m & Hin & Hc)]].
      * exists p0, m0. split; [by left | by left].
      * exists p0, m0. split; [by left | by right].
      * exists p, m. split; [by right | done].
    + intros (p & m & Hin & Hc). apply elem_of_cons in Hin as [Heq|Hin].
      * injection Heq as -> ->. destruct Hc as [->| ->]; auto.
      * right. right. by exists p, m.
Qed.

Lemma direction_columns_multiple d configs :
  direction_columns d = [] → NoDup configs →
  direction_columns (foldl (add_supertrend d) d configs)
  ≡ₚ (λ c, "supertrend_direction" +:+ supertrend_suffix c.1 c.2) <$> configs.
Proof.
  intros Hnone Hnd. apply NoDup_Permutation.
  - apply NoDup_filter, NoDup_fst_map_to_list.
  - apply NoDup_fmap_2_strong; [|done].
    intros [p m] [p' m'] _ _ Heq. cbn [fst snd] in Heq.
    apply (inj (String.append _)) in Heq. by apply supertrend_suffix_inj in Heq as [-> ->].
  - intros c. unfold direction_columns at 1. rewrite list_elem_of_filter, elem_of_keys.
    rewrite list_elem_of_fmap. split.
    + intros [Hc Hsome].
      destruct (decide (c ∈ multiple_names configs)) as [Hin|Hout].
      * apply elem_of_multiple_names in Hin as (p & m & Hin & [-> | ->]).
        { by rewrite line_name_not_direction in Hc. }
        by exists (p, m).
      * rewrite foldl_add_supertrend_other in Hsome by done.
        assert (c ∈ direction_columns d) as Hd.
        { unfold direction_columns. by rewrite list_elem_of_filter, elem_of_keys. }
        rewrite Hnone in Hd. by apply elem_of_nil in Hd.
    + intros ([p m] & -> & Hin). cbn [fst snd]. split.
      * apply direction_name_is_direction.
      * destruct (foldl_add_supertrend_config d p m configs d (or_introl Hin)) as [_ ->].
        done.
Qed.

(** ** The signals the engine validates *)

Lemma supertrend_signal_has_no_size self latest primary sig :
  SuperTrendStrategy._create_buy_signal self latest primary = Ok sig →
  position_size sig = None.
Proof.
  unfold SuperTrendStrategy._create_buy_signal. intros H.
  repeat (apply result_bind_ok in H as (? & _ & H)).
  by injection H as <-.
Qed.

Lemma macd_signal_has_no_size self latest primary sig :
  MacdRsiStrategy._create_buy_signal self latest primary = Ok sig →
  position_size sig = None.
Proof.
  unfold MacdRsiStrategy._create_buy_signal. intros H.
  repeat (apply result_bind_ok in H as (? & _ & H)).
  by injection H as <-.
Qed.

Lemma generated_signal_has_no_size strategy data sigs sig :
  generate_signals strategy data = Ok sigs → sig ∈ sigs → position_size sig = None.
Proof.
  intros Hgen Hin. destruct strategy as [self|self]; cbn [generate_signals] in Hgen.
  - destruct (generate_signals_inv self data sigs sig Hgen Hin)
      as (primary & latest & _ & _ & Hsig & _).
    by eapply supertrend_signal_has_no_size.
  - destruct (macd_generate_signals_inv self data sigs Hgen) as [_ [-> | Hsigs]];
      [by apply elem_of_nil in Hin|].
    destruct Hsigs as (sig' & primary & latest & -> & _ & _ & _ & Hsig).
    apply list_elem_of_singleton in Hin as ->.
    by eapply macd_signal_has_no_size.
Qed.

Lemma generated_signal_confidence strategy data sigs sig :
  generate_signals strategy data = Ok sigs → sig ∈ sigs →
  (confidence sig <? Num 0.5)%F = false.
Proof.
  intros Hgen Hin. destruct strategy as [self|self]; cbn [generate_signals] in Hgen.
  - destruct (generate_signals_inv self data sigs sig Hgen Hin)
      as (primary & latest & _ & _ & Hsig & _).
    destruct (create_buy_signal_confidence self latest primary sig Hsig)
      as (Hconf & _).
    by destruct (supertrend_confidence_range self latest primary _ Hconf)
      as (q & _ & _ & _ & ?).
  - destruct (macd_generate_signals_inv self data sigs Hgen) as [_ [-> | Hsigs]];
      [by apply elem_of_nil in Hin|].
    destruct Hsigs as (sig' & primary & latest & -> & _ & _ & _ & Hsig).
    apply list_elem_of_singleton in Hin as ->.
    destruct (macd_create_buy_signal_fields self latest primary sig' Hsig)
      as (Hconf & _).
    by destruct (macd_confidence_range self latest primary _ Hconf)
      as (q & _ & _ & _ & ?).
Qed.

Lemma fgt_mul_one a b : ((a * Num (inject_Z 1)) >? b)%F = (a >? b)%F.
Proof.
  destruct a as [x|], b as [y|]; try done.
  unfold fgt, flt, Qlt_bool. cbn [fmul]. f_equal.
  apply eq_true_iff_eq. rewrite !Qle_bool_iff.
  assert (x * inject_Z 1 == x) as -> by (unfold inject_Z; ring). done.
Qed.

(** * The claims *)

(** C8. For bars with high, low and close columns and high >= low,
    [calculate_atr] returns a new frame whose [atr] column is the rolling
    mean over [period] bars of the true range, where the true range of a bar
    is max(high - low, |high - prevClose|, |low - prevClose|) (high - low for
    the first bar, which has no previous close); the first [period - 1]
    entries are [NaN] (undefined, not zero), and every entry that is a
    number is >= 0. *)
Theorem calculate_atr_true_range_mean (h : gmap loc DataFrame) (l : loc)
    (d : DataFrame) (period : nat) (high low close : Series) :
  h !! l = Some d → df_wf d →
  df_cols d !! "high" = Some high → df_cols d !! "low" = Some low →
  df_cols d !! "close" = Some close →
  bars_ordered high low = true →
  ∃ (l' : loc) (d' : DataFrame) (tr : list Q) (atr : Series),
    calculate_atr l period h = (Ok l', <[l' := d']> h)
    ∧ df_cols d' !! "atr" = Some atr
    ∧ length tr = df_len d ∧ length atr = df_len d
    ∧ (∀ i a b, high !! i = Some (Num a) → low !! i = Some (Num b) →
         match i with
         | O => tr !! i = Some (true_range_spec a b None)
         | S j => ∀ pc, close !! j = Some (Num pc) →
                    tr !! i = Some (true_range_spec a b (Some pc))
         end)
    ∧ (∀ i, (0 < period)%nat → (period - 1 ≤ i < df_len d)%nat →
         length (window period tr i) = period
         ∧ atr !! i = Some (Num (Qsum (window period tr i) / inject_Z (Z.of_nat period))))
    ∧ (∀ i, (i < period - 1)%nat → (i < df_len d)%nat → atr !! i = Some NaN)
    ∧ (∀ i x, atr !! i = Some (Num x) → 0 <= x).
Proof.
  intros Hh Hwf Hhi Hlo Hcl Hord.
  assert (has_ohlc d) as Hohlc by (unfold has_ohlc; rewrite Hhi, Hlo, Hcl; eauto).
  destruct (true_range_Num high low close (df_len d)) as (tr & Htr & Hlen & Hnn & Hspec);
    [by apply Hwf in Hhi | by apply Hwf in Hlo | by apply Hwf in Hcl | done |].
  exists (fresh (dom h)), (atr_frame period d), tr, (rolling_mean period (Num <$> tr)).
  split; [by apply calculate_atr_run|].
  split.
  { unfold atr_frame, column. rewrite Hhi, Hlo, Hcl. simpl.
    by rewrite lookup_insert_eq, Htr. }
  split; [done|]. split; [by rewrite rolling_mean_length, length_fmap|].
  split; [done|]. split; [|split].
  - intros i Hp Hi. split; [rewrite window_length by lia; lia|].
    rewrite rolling_mean_Num by lia.
    destruct (Nat.leb_spec period (S i)) as [_|?]; [|lia].
    by destruct (Nat.ltb_spec 0 period) as [_|?]; [|lia].
  - intros i Hp Hi. apply rolling_mean_undefined; [done|].
    rewrite length_fmap. lia.
  - intros i x Hx.
    assert (i < length tr)%nat as Hi.
    { apply lookup_lt_Some in Hx. by rewrite rolling_mean_length, length_fmap in Hx. }
    rewrite rolling_mean_Num in Hx by done.
    destruct ((period <=? S i)%nat && (0 <? period)%nat) eqn:E; [|by injection Hx].
    injection Hx as <-. apply andb_true_iff in E as [_ Hp%Nat.ltb_lt].
    apply Qdiv_nonneg.
    + apply Qsum_nonneg. unfold window. by apply Forall_drop, Forall_take.
    + unfold Qlt, inject_Z. simpl. lia.
Qed.

Lemma calculate_atr_true_range_mean_witness :
  let d := mkDF 3 (<["high" := [Num 10; Num 12; Num 11]]>
                  (<["low" := [Num 9; Num 10; Num 8]]>
                  (<["close" := [Num 9.5; Num 11; Num 9]]> ∅))) in
  ∃ (l' : loc) (d' : DataFrame) (tr : list Q) (atr : Series),
    calculate_atr 1%positive 2 {[ 1%positive := d ]} = (Ok l', <[l' := d']> {[ 1%positive := d ]})
    ∧ df_cols d' !! "atr" = Some atr
    ∧ length tr = 3%nat ∧ length atr = 3%nat
    ∧ (∀ i a b, [Num 10; Num 12; Num 11] !! i = Some (Num a) →
         [Num 9; Num 10; Num 8] !! i = Some (Num b) →
         match i with
         | O => tr !! i = Some (true_range_spec a b None)
         | S j => ∀ pc, [Num 9.5; Num 11; Num 9] !! j = Some (Num pc) →
                    tr !! i = Some (true_range_spec a b (Some pc))
         end)
    ∧ (∀ i, (0 < 2)%nat → (2 - 1 ≤ i < 3)%nat →
         length (window 2 tr i) = 2%nat
         ∧ atr !! i = Some (Num (Qsum (window 2 tr i) / inject_Z (Z.of_nat 2))))
    ∧ (∀ i, (i < 2 - 1)%nat → (i < 3)%nat → atr !! i = Some NaN)
    ∧ (∀ i x, atr !! i = Some (Num x) → 0 <= x).
Proof.
  intros d.
  apply (calculate_atr_true_range_mean {[ 1%positive := d ]} 1%positive d 2
           [Num 10; Num 12; Num 11] [Num 9; Num 10; Num 8] [Num 9.5; Num 11; Num 9]).
  - reflexivity.
  - apply df_wf_check. vm_compute. reflexivity.
  - reflexivity.
  - reflexivity.
  - reflexivity.
  - reflexivity.
Defined.

(** C10. [calculate_atr] and [calculate_supertrend] work on a copy: whether
    they return or raise, every frame of the store they are started in, the
    argument included, is afterwards what it was before, and a returned
    frame is a new object. *)
Theorem indicators_leave_input_unchanged (h : gmap loc DataFrame) (l : loc)
    (period : nat) (multiplier : float) (atr_column : string) :
  match calculate_atr l period h with
  | (Ok l', h') => h ⊆ h' ∧ h' !! l = h !! l ∧ h !! l' = None ∧ l' ≠ l
  | (Raise _, h') => h ⊆ h' ∧ h' !! l = h !! l
  end
  ∧ match calculate_supertrend l period multiplier atr_column h with
    | (Ok l', h') => h ⊆ h' ∧ h' !! l = h !! l ∧ h !! l' = None ∧ l' ≠ l
    | (Raise _, h') => h ⊆ h' ∧ h' !! l = h !! l
    end.
Proof.
  assert (∀ m : M loc, keeps h m (λ l', h !! l' = None) →
            (h !! l = None → m h = (Raise StoreError, h)) →
            match m h with
            | (Ok l', h') => h ⊆ h' ∧ h' !! l = h !! l ∧ h !! l' = None ∧ l' ≠ l
            | (Raise _, h') => h ⊆ h' ∧ h' !! l = h !! l
            end) as Hgen.
  { intros m Hkeeps Hnone. specialize (Hkeeps h (reflexivity h)).
    destruct (h !! l) as [d|] eqn:Hl.
    - destruct (m h) as [[l'|e] h'].
      + destruct Hkeeps as [Hsub Hnew]. repeat split; [done| |done|].
        * by apply (lookup_weaken _ _ _ _ Hl).
        * intros ->. congruence.
      + split; [done|]. by apply (lookup_weaken _ _ _ _ Hl).
    - rewrite Hnone by done. by rewrite Hl. }
  split; apply Hgen.
  - apply calculate_atr_keeps.
  - intros Hl. unfold calculate_atr, copy, read_frame, mbind, St_bind. by rewrite Hl.
  - apply calculate_supertrend_keeps.
  - intros Hl. unfold calculate_supertrend, copy, read_frame, mbind, St_bind. by rewrite Hl.
Qed.

(** C1. On a frame with at least one bar, [calculate_supertrend] returns a
    frame whose band, direction and line columns satisfy the recurrence of
    the specification: the direction of the first bar is +1 and its bands
    are the basic bands; for every later bar [i] the upper band is
    min(basicUpper[i], upperBand[i-1]) when close[i-1] <= upperBand[i-1] and
    basicUpper[i] otherwise (dually for the lower band), the direction is +1
    when close[i] > upperBand[i-1], -1 when close[i] < lowerBand[i-1] and
    direction[i-1] otherwise, and the line is the lower band when the
    direction is +1 and the upper band otherwise.  The program is the single
    loop [for i in range(1, len(df))]. *)
Theorem calculate_supertrend_forward_scan (h : gmap loc DataFrame) (l : loc)
    (d : DataFrame) (period : nat) (multiplier : float) (atr_column : string) :
  h !! l = Some d → df_wf d → has_ohlc d → (1 ≤ df_len d)%nat →
  atr_column ≠ "supertrend_upperband" →
  ∃ (l' : loc) (h' : gmap loc DataFrame) (d' : DataFrame),
    calculate_supertrend l period multiplier atr_column h = (Ok l', h')
    ∧ h' !! l' = Some d' ∧ df_len d' = df_len d
    ∧ supertrend_recurrence (df_len d) (cell d "close")
        (λ i, basic_upper multiplier (cell d "high" i) (cell d "low" i)
                (at_row (atr_source period atr_column d) i))
        (λ i, basic_lower multiplier (cell d "high" i) (cell d "low" i)
                (at_row (atr_source period atr_column d) i))
        (cell d' "supertrend_upperband") (cell d' "supertrend_lowerband")
        (cell d' "supertrend_direction") (cell d' "supertrend").
Proof.
  intros Hh Hwf Hohlc Hn Ha.
  destruct (calculate_supertrend_run l period multiplier atr_column h d)
    as (l' & h' & Hrun & Hl' & _); [done..|].
  exists l', h', (supertrend_frame period multiplier atr_column d).
  split; [done|]. split; [done|].
  unfold supertrend_frame, atr_source.
  case_bool_decide as Hpresent.
  - split.
    { rewrite st_scan_scan_to, scan_to_len. by apply st_init_ok. }
    eapply supertrend_recurrence_ext;
      [| | | by apply (st_scan_init_recurrence
                         "supertrend_upperband" "supertrend_lowerband")];
      intros i; simpl; by rewrite ?cell_at.
  - assert (has_ohlc (atr_frame period d)) as Hohlc'.
    { destruct Hohlc as (? & ? & ?). repeat split; by apply atr_frame_has. }
    split.
    { by rewrite st_scan_scan_to, scan_to_len. }
    change (df_len d) with (df_len (atr_frame period d)).
    eapply supertrend_recurrence_ext;
      [| | | apply (st_scan_init_recurrence "supertrend_upperband" "supertrend_lowerband");
             first [done | by apply atr_frame_wf | apply set_col_has_eq]];
      intros i; simpl; unfold atr_frame;
      by rewrite ?cell_set_col_eq, ?cell_set_col_ne by done.
Qed.

Lemma calculate_supertrend_forward_scan_witness :
  let d := mkDF 3 (<["high" := [Num 10; Num 12; Num 11]]>
                  (<["low" := [Num 9; Num 10; Num 8]]>
                  (<["close" := [Num 9.5; Num 11; Num 9]]> ∅))) in
  ∃ (l' : loc) (h' : gmap loc DataFrame) (d' : DataFrame),
    calculate_supertrend 1%positive 2 (Num 1) "atr" {[ 1%positive := d ]} = (Ok l', h')
    ∧ h' !! l' = Some d' ∧ df_len d' = 3%nat
    ∧ supertrend_recurrence 3 (cell d "close")
        (λ i, basic_upper (Num 1) (cell d "high" i) (cell d "low" i)
                (at_row (atr_source 2 "atr" d) i))
        (λ i, basic_lower (Num 1) (cell d "high" i) (cell d "low" i)
                (at_row (atr_source 2 "atr" d) i))
        (cell d' "supertrend_upperband") (cell d' "supertrend_lowerband")
        (cell d' "supertrend_direction") (cell d' "supertrend").
Proof.
  intros d.
  apply (calculate_supertrend_forward_scan {[ 1%positive := d ]} 1%positive d 2 (Num 1) "atr").
  - reflexivity.
  - apply df_wf_check. vm_compute. reflexivity.
  - unfold has_ohlc. repeat split; eexists; reflexivity.
  - simpl. lia.
  - discriminate.
Defined.






(** C6. For a position with a positive entry price and a bar with a positive
    close, the trend-following [should_exit] goes through its exit
    conditions in the fixed order (1) supertrend direction <= 0, (2) close
    below the supertrend line, (3) close <= stop-loss, (4) close >=
    take-profit, (5) trailing stop (when enabled) once the unrealized gain
    has reached the activation threshold, the trailing level being the
    current supertrend line or else entry + atr * stopMultiplier * 0.5; it
    returns (True, reason) for the first condition that holds and
    (False, "") when none holds. *)
Theorem should_exit_first_rule (self : SuperTrendStrategy.t) (position : Position)
    (current_data : Row) (entry close : Q) :
  pos_entry_price position = Some (Num entry) →
  current_data !! "close" = Some (Num close) →
  0 < entry → 0 < close →
  SuperTrendStrategy.should_exit self position current_data
  = first_exit (exit_rules self position (Num entry) (Num close) current_data).
Proof.
  intros He Hc Hentry Hclose.
  unfold SuperTrendStrategy.should_exit, exit_rules, trailing_level,
    SuperTrendStrategy._calculate_trailing_stop, row_get, row_has, level_reached,
    opt_truthy.
  rewrite He, Hc. cbn [default from_option id option_map].
  assert ((Num entry <=? Num 0)%F = false) as -> by by apply fle_Num_false.
  assert ((Num close <=? Num 0)%F = false) as -> by by apply fle_Num_false.
  cbn [orb].
  destruct (current_data !! "supertrend_direction") as [dir|]; cbn [default from_option id option_map].
  all: rewrite ?bool_decide_eq_true_2 by eauto.
  all: rewrite ?bool_decide_eq_false_2 by (by intros [? ?]).
  all: cbn [andb when_rule first_exit].
  1: destruct (dir <=? Num 0)%F; cbn [when_rule first_exit]; [done|].
  all: destruct (current_data !! "supertrend") as [line|]; cbn [default from_option id option_map].
  all: rewrite ?bool_decide_eq_true_2 by eauto.
  all: rewrite ?bool_decide_eq_false_2 by (by intros [? ?]).
  all: cbn [andb when_rule first_exit].
  all: try (destruct (Num close <? line)%F; cbn [when_rule first_exit]; [done|]).
  all: destruct (pos_stop_loss_price position) as [sl|]; cbn [default from_option id option_map].
  all: try (destruct (truthy sl && (Num close <=? sl)%F) eqn:Esl;
            cbn [when_rule first_exit]; [done|]).
  all: destruct (pos_take_profit_price position) as [tp|]; cbn [default from_option id option_map].
  all: try (destruct (truthy tp && (Num close >=? tp)%F);
            cbn [when_rule first_exit]; [done|]).
  all: cbn [andb when_rule first_exit].
  all: destruct (SuperTrendStrategy.trailing_stop_enabled self); cbn [andb]; [|done].
  all: destruct (_ >=? SuperTrendStrategy.trailing_stop_activation self)%F;
         cbn [andb]; [|done].
  all: try (destruct (truthy line && (Num close <=? line)%F); done).
  all: destruct (default (Num 0) (current_data !! "atr") >? Num 0)%F; cbn [default from_option id option_map].
  all: try (match goal with
            | |- context [truthy ?x && ?y] => destruct (truthy x && y)
            end; done).
  all: try rewrite Esl.
  all: done.
Qed.

Lemma should_exit_first_rule_witness :
  let self := SuperTrendStrategy.__init__ empty_config in
  let position :=
    mkPosition "RELIANCE" 8 (Some (Num 100)) (Some "SuperTrend")
      (Some (Num 96)) (Some (Num 110)) "order-1" in
  let current_data : Row :=
    <["close" := Num 95]> (<["supertrend" := Num 90]>
      (<["supertrend_direction" := Num 1]> ∅)) in
  SuperTrendStrategy.should_exit self position current_data
  = first_exit (exit_rules self position (Num 100) (Num 95) current_data).
Proof.
  intros self position current_data.
  apply (should_exit_first_rule self position current_data 100 95).
  - reflexivity.
  - reflexivity.
  - reflexivity.
  - reflexivity.
Defined.

(** The third rule decides the example above. *)
Example should_exit_stop_loss :
  SuperTrendStrategy.should_exit (SuperTrendStrategy.__init__ empty_config)
    (mkPosition "RELIANCE" 8 (Some (Num 100)) (Some "SuperTrend")
       (Some (Num 96)) (Some (Num 110)) "order-1")
    (<["close" := Num 95]> (<["supertrend" := Num 90]>
       (<["supertrend_direction" := Num 1]> ∅)))
  = (true, "Stop loss hit at 96.00").
Proof. vm_compute. reflexivity. Qed.



(** The signal of the example has the price of its bar and confidence 1. *)
Example full_confidence_signal_values :
  price full_confidence_signal = Num 110
  ∧ ∃ q, confidence full_confidence_signal = Num q ∧ q == 1.
Proof. split; [reflexivity|]. eexists. split; reflexivity. Qed.

(** In IEEE 754 binary64, too, the sum 0.5 + 0.1 + 0.15 + 0.15 + 0.10 in the
    order of the code is the double 1.0. *)
Lemma confidence_sum_binary64 :
  confidence_sum_b64 = S754_finite false 4503599627370496 (-52)
  ∧ SFcompare confidence_sum_b64 (b64 1 1) = Some Eq.
Proof. vm_compute. split; reflexivity. Qed.

(** C7. If the risk manager denies trading, [execute_cycle] stops before any
    symbol is processed: the only thing it does to its collaborators is the
    call of [can_trade] (no data is fetched, no strategy is invoked, no
    position is created or closed), and the result has 0 signals, 0 orders
    placed, 0 orders failed and 0 positions exited.  It is the only check
    that stops the cycle: if trading is allowed the cycle returns after it
    has asked for the position of every symbol, in order, whatever happens
    while a symbol is processed. *)
Theorem execute_cycle_gate {W : Type} (C : Collaborators W) (config : EngineConfig)
    (strategies : list Strategy) (symbols : list string) (s : EngineState W)
    (allowed : bool) (w' : W) :
  can_trade C (world s) = (Ok allowed, w') →
  ∃ (r : CycleResult) (s' : EngineState W),
    execute_cycle C config strategies symbols s = (Ok r, s')
    ∧ if allowed then
        ∃ evs, trace s' = trace s ++ EvCanTrade :: evs
          ∧ filter (λ ev, is_get_position ev = true) evs = EvGetPosition <$> symbols
      else
        r = blocked_result symbols
        ∧ s' = mkEngineState w' (trace s ++ [EvCanTrade]) (blocked_result symbols).
Proof.
  intros Hgate. unfold execute_cycle, mbind, St_bind, update_results, call.
  cbn [world trace results]. rewrite Hgate.
  destruct allowed; cbn [negb].
  - set (s1 := mkEngineState w' (trace s ++ [EvCanTrade]) _).
    match goal with
    | |- context [for_each symbols ?body] =>
        destruct (for_each_visits symbols body EvGetPosition ltac:(done)) with (s := s1)
          as (s2 & evs & Hrun & Htr & Hevs)
    end.
    { intros symbol s0. unfold try_except, mbind, St_bind, call.
      destruct (get_position C symbol (world s0)) as [[position|e] w1].
      - set (s0' := mkEngineState w1 (trace s0 ++ [EvGetPosition symbol]) (results s0)).
        assert (∃ m : St (EngineState W) unit,
                  emits (λ ev, is_get_position ev = false) m
                  ∧ m = match position with
                        | Some position =>
                            _check_exit_conditions C config strategies symbol position
                        | None => _check_entry_signals C config strategies symbol
                        end) as (m & Hemits & <-).
        { eexists. split; [|done].
          destruct position;
            [apply check_exit_conditions_emits | apply check_entry_signals_emits]. }
        destruct (Hemits s0') as (evs & Htr & Hevs).
        destruct (m s0') as [[[]|e] s0'']; simpl in Htr.
        + exists s0'', evs. split; [done|]. split; [|done].
          by rewrite Htr, <- app_assoc.
        + eexists _, evs. split; [done|]. split; [|done].
          simpl. by rewrite Htr, <- app_assoc.
      - eexists _, []. split; [done|]. by split. }
    rewrite Hrun. eexists _, s2. split; [done|].
    exists evs. split; [|done]. rewrite Htr. unfold s1. cbn [trace].
    by rewrite <- app_assoc.
  - by eexists _, _.
Qed.

Lemma execute_cycle_gate_witness :
  ∃ (r : CycleResult) (s' : EngineState unit),
    execute_cycle (example_collaborators false None) example_config
      (_load_strategies example_config) ["RELIANCE"; "TCS"] example_state = (Ok r, s')
    ∧ r = blocked_result ["RELIANCE"; "TCS"]
    ∧ s' = mkEngineState tt ([] ++ [EvCanTrade]) (blocked_result ["RELIANCE"; "TCS"]).
Proof.
  apply (execute_cycle_gate (example_collaborators false None) example_config
           (_load_strategies example_config) ["RELIANCE"; "TCS"] example_state false tt).
  reflexivity.
Defined.

(** C4. [MacdRsiStrategy.generate_signals] is not total: on every bundle that
    holds a 15-minute frame, well-formed or not, it raises the [ValueError] of
    the truth value of a frame ([data.get('15min') or data.get('primary')])
    instead of returning a list of signals. *)
Theorem macd_generate_signals_raises (self : MacdRsiStrategy.t)
    (data : gmap string DataFrame) (d : DataFrame) :
  data !! "15min" = Some d →
  ∃ msg, MacdRsiStrategy.generate_signals self data = Raise (ValueError msg).
Proof.
  intros Hd. unfold MacdRsiStrategy.generate_signals. rewrite Hd. eauto.
Qed.

Lemma macd_generate_signals_raises_witness :
  ∃ msg, MacdRsiStrategy.generate_signals (MacdRsiStrategy.__init__ empty_config)
           backtest_bundle = Raise (ValueError msg).
Proof.
  apply (macd_generate_signals_raises (MacdRsiStrategy.__init__ empty_config)
           backtest_bundle macd_frame).
  reflexivity.
Defined.

(** The frames of that bundle are well formed and have the OHLCV columns;
    the trend-following strategy returns the empty list on it. *)
Example backtest_bundle_well_formed :
  map_Forall (λ _ d, df_wf d ∧ Forall (λ c, is_Some (df_cols d !! c))
                                  ["open"; "high"; "low"; "close"; "volume"])
    backtest_bundle
  ∧ SuperTrendStrategy.generate_signals (SuperTrendStrategy.__init__ empty_config)
      backtest_bundle = Ok [].
Proof.
  split; [|by vm_compute].
  assert (df_wf macd_frame ∧ Forall (λ c, is_Some (df_cols macd_frame !! c))
                                ["open"; "high"; "low"; "close"; "volume"]) as Hframe.
  { split; [by apply df_wf_check | by repeat constructor]. }
  unfold backtest_bundle. repeat (apply map_Forall_insert_2; [done|]).
  apply map_Forall_empty.
Qed.

(** C2. A BUY signal of the MACD/RSI strategy is not sized by that strategy,
    and the position is not tagged with its name: the engine looks the
    strategy up by the first word of the reason of the signal, [MACD], which
    names no loaded strategy ([MACD_RSI]).  With a capital of 100000, a close
    of 100 and an ATR of 2 the engine buys the 200 shares of its fallback
    rule instead of the 178 shares of the strategy, records the position
    under [MACD], and when it later checks that position it calls the
    [should_exit] of no strategy. *)
Theorem macd_signal_not_handled_by_its_strategy :
  let strategies := _load_strategies example_config in
  let C := example_collaborators true (Some macd_frame) in
  ∃ (macd : MacdRsiStrategy.t) (signal : Signal) (position : Position)
    (s1 s2 : EngineState unit) (r : result unit),
    strategies = [SuperTrend (SuperTrendStrategy.__init__
                    (with_global_config empty_config (Num 0.01) (Num 0.20)));
                  MacdRsi macd]
    ∧ MacdRsiStrategy.generate_signals macd {["primary" := macd_frame]} = Ok [signal]
    ∧ _execute_buy_signal C example_config strategies signal engine_bundle example_state
      = (Ok true, s1)
    ∧ trace s1 = [EvGetAvailableCapital;
                  EvPlaceBuyOrder "UNKNOWN" 200 (Num 100) "MARKET";
                  EvAddPosition position]
    ∧ pos_qty position = 200%Z
    ∧ pos_strategy position = Some "MACD"
    ∧ MacdRsiStrategy.calculate_position_size macd "UNKNOWN" (Num 100) (Num 2) (Num 100000)
      = Ok 178%Z
    ∧ _get_strategy_by_name strategies "MACD" = None
    ∧ _check_exit_conditions C example_config strategies "UNKNOWN" position example_state
      = (r, s2)
    ∧ Forall (λ ev, is_strategy_event ev = false) (trace s2).
Proof.
  intros strategies C.
  eexists _, _, _, _, _, _.
  split; [by vm_compute|]. split; [by vm_compute|].
  split; [by vm_compute|]. split; [done|]. split; [done|]. split; [done|].
  split; [by vm_compute|]. split; [by vm_compute|].
  split; [by vm_compute|]. by repeat constructor.
Qed.

(** * Further properties of the indicator module *)

(** X1. Every entry of the [supertrend_direction] column that
    [calculate_supertrend] returns is +1 or -1, whatever the prices, the
    period, the multiplier and the ATR column are. *)
Theorem supertrend_direction_is_sign (h : gmap loc DataFrame) (l : loc) (d : DataFrame)
    (period : nat) (multiplier : float) (atr_column : string) :
  h !! l = Some d → df_wf d → has_ohlc d →
  ∃ (l' : loc) (h' : gmap loc DataFrame) (d' : DataFrame) (directions : Series),
    calculate_supertrend l period multiplier atr_column h = (Ok l', h')
    ∧ h' !! l' = Some d'
    ∧ df_cols d' !! "supertrend_direction" = Some directions
    ∧ length directions = df_len d
    ∧ Forall (λ x, x = Num 1 ∨ x = Num (-1)) directions.
Proof.
  intros Hh Hwf Hohlc.
  destruct (calculate_supertrend_run l period multiplier atr_column h d)
    as (l' & h' & Hrun & Hl' & _); [done..|].
  destruct (supertrend_frame_ok period multiplier atr_column d Hwf Hohlc)
    as ((HwfF & _ & _ & _ & [directions Hdirs] & _) & Hlen & _ & Hsign & _).
  exists l', h', (supertrend_frame period multiplier atr_column d), directions.
  split; [done|]. split; [done|]. split; [done|].
  split; [by rewrite (HwfF _ _ Hdirs)|].
  apply (column_Forall _ _ _ _ HwfF Hdirs). intros i Hi. apply Hsign. lia.
Qed.

Lemma supertrend_direction_is_sign_witness :
  ∃ (l' : loc) (h' : gmap loc DataFrame) (d' : DataFrame) (directions : Series),
    calculate_supertrend 1%positive 2 (Num 1) "atr" {[ 1%positive := example_bars ]}
    = (Ok l', h')
    ∧ h' !! l' = Some d'
    ∧ df_cols d' !! "supertrend_direction" = Some directions
    ∧ length directions = df_len example_bars
    ∧ Forall (λ x, x = Num 1 ∨ x = Num (-1)) directions.
Proof.
  apply (supertrend_direction_is_sign {[ 1%positive := example_bars ]} 1%positive
           example_bars 2 (Num 1) "atr").
  - reflexivity.
  - apply df_wf_check. vm_compute. reflexivity.
  - unfold has_ohlc. repeat split; eexists; reflexivity.
Defined.

(** X2. Warm-up.  When the frame has no [atr] column, the ATR of the first
    [period - 1] bars is undefined, and [calculate_supertrend] reports a
    direction of +1 for each of the first [period] bars whatever the prices
    are; the line is 0 on the first bar and undefined ([NaN]) on the other
    bars before bar [period - 1]. *)
Theorem supertrend_warm_up (h : gmap loc DataFrame) (l : loc) (d : DataFrame)
    (period : nat) (multiplier : float) :
  h !! l = Some d → df_wf d → has_ohlc d → df_cols d !! "atr" = None →
  ∃ (l' : loc) (h' : gmap loc DataFrame) (d' : DataFrame) (directions line : Series),
    calculate_supertrend l period multiplier "atr" h = (Ok l', h')
    ∧ h' !! l' = Some d'
    ∧ df_cols d' !! "supertrend_direction" = Some directions
    ∧ df_cols d' !! "supertrend" = Some line
    ∧ (∀ i, (i < df_len d)%nat → (i < period)%nat → directions !! i = Some (Num 1))
    ∧ (∀ i, (i < df_len d)%nat → (1 ≤ i < period - 1)%nat → line !! i = Some NaN)
    ∧ ((0 < df_len d)%nat → line !! 0%nat = Some (Num 0)).
Proof.
  intros Hh Hwf Hohlc Hatr.
  destruct (calculate_supertrend_run l period multiplier "atr" h d)
    as (l' & h' & Hrun & Hl' & _); [done..|].
  destruct (supertrend_frame_ok period multiplier "atr" d Hwf Hohlc)
    as ((HwfF & _ & _ & _ & [directions Hdirs] & [line Hline]) & Hlen & _ & _ & Hline0).
  exists l', h', (supertrend_frame period multiplier "atr" d), directions, line.
  split; [done|]. split; [done|]. split; [done|]. split; [done|].
  assert (∀ i, (i < df_len d)%nat → (i ≤ period - 1)%nat →
            cell (supertrend_frame period multiplier "atr" d) "supertrend_direction" i
            = Num 1
            ∧ ((1 ≤ i < period - 1)%nat →
               cell (supertrend_frame period multiplier "atr" d) "supertrend" i = NaN))
    as Hwarm.
  { intros i Hi Hp.
    pose proof (supertrend_frame_recurrence period multiplier "atr" d Hwf Hohlc
                  ltac:(done) ltac:(lia)) as Hrec.
    destruct (recurrence_warm_up _ _ _ _ _ _ _ _ (period - 1) Hrec) with (i := i)
      as (Hd & _ & Hs); [|done|done|done].
    intros j Hj. unfold atr_source.
    rewrite bool_decide_eq_false_2 by (rewrite Hatr; by intros [? ?]).
    destruct (decide (j < df_len d)%nat) as [Hjn|Hjn].
    - unfold at_row. rewrite rolling_mean_undefined; [apply basic_bands_NaN|done|].
      destruct Hohlc as (Hhi & Hlo & Hcl).
      rewrite (true_range_length _ _ _ (df_len d)); [done|by apply column_length..].
    - unfold at_row. rewrite lookup_ge_None_2; [apply basic_bands_NaN|].
      destruct Hohlc as (Hhi & Hlo & Hcl).
      rewrite rolling_mean_length, (true_range_length _ _ _ (df_len d));
        [lia|by apply column_length..]. }
  split; [|split].
  - intros i Hi Hp. rewrite (cell_lookup _ _ _ i HwfF Hdirs) by lia.
    f_equal. apply Hwarm; lia.
  - intros i Hi Hp. rewrite (cell_lookup _ _ _ i HwfF Hline) by lia.
    f_equal. apply Hwarm; lia.
  - intros Hn. rewrite (cell_lookup _ _ _ 0 HwfF Hline) by lia. f_equal. by apply Hline0.
Qed.

Lemma supertrend_warm_up_witness :
  ∃ (l' : loc) (h' : gmap loc DataFrame) (d' : DataFrame) (directions line : Series),
    calculate_supertrend 1%positive 3 (Num 1) "atr" {[ 1%positive := example_bars ]}
    = (Ok l', h')
    ∧ h' !! l' = Some d'
    ∧ df_cols d' !! "supertrend_direction" = Some directions
    ∧ df_cols d' !! "supertrend" = Some line
    ∧ (∀ i, (i < df_len example_bars)%nat → (i < 3)%nat →
         directions !! i = Some (Num 1))
    ∧ (∀ i, (i < df_len example_bars)%nat → (1 ≤ i < 3 - 1)%nat →
         line !! i = Some NaN)
    ∧ ((0 < df_len example_bars)%nat → line !! 0%nat = Some (Num 0)).
Proof.
  apply (supertrend_warm_up {[ 1%positive := example_bars ]} 1%positive
           example_bars 3 (Num 1)).
  - reflexivity.
  - apply df_wf_check. vm_compute. reflexivity.
  - unfold has_ohlc. repeat split; eexists; reflexivity.
  - reflexivity.
Defined.

(** X3. The bands only tighten while the close stays inside them: if the
    close of a bar is at or below its final upper band, the final upper band
    of the next bar is not above it, and if the close is at or above the
    final lower band, the final lower band of the next bar is not below
    it. *)
Theorem supertrend_bands_ratchet (h : gmap loc DataFrame) (l : loc) (d : DataFrame)
    (period : nat) (multiplier : float) (atr_column : string) (closes : Series) :
  h !! l = Some d → df_wf d → has_ohlc d →
  atr_column ≠ "supertrend_upperband" →
  df_cols d !! "close" = Some closes →
  ∃ (l' : loc) (h' : gmap loc DataFrame) (d' : DataFrame) (upper lower : Series),
    calculate_supertrend l period multiplier atr_column h = (Ok l', h')
    ∧ h' !! l' = Some d'
    ∧ df_cols d' !! "supertrend_upperband" = Some upper
    ∧ df_cols d' !! "supertrend_lowerband" = Some lower
    ∧ (∀ i c x y, closes !! i = Some (Num c) → upper !! i = Some (Num y) →
         upper !! S i = Some (Num x) → c <= y → x <= y)
    ∧ (∀ i c x y, closes !! i = Some (Num c) → lower !! i = Some (Num y) →
         lower !! S i = Some (Num x) → y <= c → y <= x).
Proof.
  intros Hh Hwf Hohlc Ha Hcloses.
  destruct (calculate_supertrend_run l period multiplier atr_column h d)
    as (l' & h' & Hrun & Hl' & _); [done..|].
  destruct (supertrend_frame_ok period multiplier atr_column d Hwf Hohlc)
    as ((HwfF & _ & [upper Hup] & [lower Hlo] & _) & Hlen & _).
  exists l', h', (supertrend_frame period multiplier atr_column d), upper, lower.
  split; [done|]. split; [done|]. split; [done|]. split; [done|].
  assert (∀ i, (S i < df_len d)%nat →
            supertrend_recurrence (df_len d) (cell d "close")
              (λ i, basic_upper multiplier (cell d "high" i) (cell d "low" i)
                      (at_row (atr_source period atr_column d) i))
              (λ i, basic_lower multiplier (cell d "high" i) (cell d "low" i)
                      (at_row (atr_source period atr_column d) i))
              (cell (supertrend_frame period multiplier atr_column d) "supertrend_upperband")
              (cell (supertrend_frame period multiplier atr_column d) "supertrend_lowerband")
              (cell (supertrend_frame period multiplier atr_column d) "supertrend_direction")
              (cell (supertrend_frame period multiplier atr_column d) "supertrend"))
    as Hrec.
  { intros i Hi. apply supertrend_frame_recurrence; [done..|lia]. }
  split.
  - intros i c x y Hc Hy Hx Hcy.
    assert (S i < df_len d)%nat as Hi.
    { rewrite <- Hlen, <- (HwfF _ _ Hup). by eapply lookup_lt_Some. }
    destruct (recurrence_ratchet _ _ _ _ _ _ _ _ (S i) (Hrec i Hi) ltac:(lia)) as [Hr _].
    replace (S i - 1)%nat with i in Hr by lia.
    apply (Hr c x y); [| | |done].
    + unfold cell. rewrite Hcloses. simpl. by rewrite Hc.
    + unfold cell. rewrite Hup. simpl. by rewrite Hx.
    + unfold cell. rewrite Hup. simpl. by rewrite Hy.
  - intros i c x y Hc Hy Hx Hcy.
    assert (S i < df_len d)%nat as Hi.
    { rewrite <- Hlen, <- (HwfF _ _ Hlo). by eapply lookup_lt_Some. }
    destruct (recurrence_ratchet _ _ _ _ _ _ _ _ (S i) (Hrec i Hi) ltac:(lia)) as [_ Hr].
    replace (S i - 1)%nat with i in Hr by lia.
    apply (Hr c x y); [| | |done].
    + unfold cell. rewrite Hcloses. simpl. by rewrite Hc.
    + unfold cell. rewrite Hlo. simpl. by rewrite Hx.
    + unfold cell. rewrite Hlo. simpl. by rewrite Hy.
Qed.

Lemma supertrend_bands_ratchet_witness :
  ∃ (l' : loc) (h' : gmap loc DataFrame) (d' : DataFrame) (upper lower : Series),
    calculate_supertrend 1%positive 2 (Num 1) "atr" {[ 1%positive := example_bars ]}
    = (Ok l', h')
    ∧ h' !! l' = Some d'
    ∧ df_cols d' !! "supertrend_upperband" = Some upper
    ∧ df_cols d' !! "supertrend_lowerband" = Some lower
    ∧ (∀ i c x y, [Num 9.5; Num 11; Num 9] !! i = Some (Num c) →
         upper !! i = Some (Num y) → upper !! S i = Some (Num x) → c <= y → x <= y)
    ∧ (∀ i c x y, [Num 9.5; Num 11; Num 9] !! i = Some (Num c) →
         lower !! i = Some (Num y) → lower !! S i = Some (Num x) → y <= c → y <= x).
Proof.
  apply (supertrend_bands_ratchet {[ 1%positive := example_bars ]} 1%positive
           example_bars 2 (Num 1) "atr" [Num 9.5; Num 11; Num 9]).
  - reflexivity.
  - apply df_wf_check. vm_compute. reflexivity.
  - unfold has_ohlc. repeat split; eexists; reflexivity.
  - discriminate.
  - reflexivity.
Defined.

(** X4. [get_supertrend_signal] looks at the last two directions only: for
    every [lookback >= 1] and a frame with at least [lookback + 1] bars it
    answers BUY when the direction before the last is <= 0 and the last is
    > 0, SELL when the one before is >= 0 and the last is < 0, and HOLD
    otherwise; a larger [lookback] asks for more bars but confirms
    nothing. *)
Theorem get_supertrend_signal_last_two (df : DataFrame) (lookback : Z)
    (directions : Series) (previous latest : float) :
  df_wf df → df_cols df !! "supertrend_direction" = Some directions →
  (1 ≤ lookback)%Z → (lookback + 1 ≤ Z.of_nat (df_len df))%Z →
  directions !! (df_len df - 2)%nat = Some previous →
  directions !! (df_len df - 1)%nat = Some latest →
  get_supertrend_signal df lookback
  = Ok (if (previous <=? Num 0)%F && (latest >? Num 0)%F then "BUY"
        else if (previous >=? Num 0)%F && (latest <? Num 0)%F then "SELL"
        else "HOLD").
Proof.
  intros Hwf Hdirs Hlb Hlen Hprev Hlast.
  pose proof (Hwf _ _ Hdirs) as Hl.
  unfold get_supertrend_signal, df_has, df_col. rewrite Hdirs.
  rewrite bool_decide_eq_true_2 by eauto. cbn [negb orb].
  destruct (Z.ltb_spec (Z.of_nat (df_len df)) (lookback + 1)) as [?|_]; [lia|].
  cbn [mbind result_bind].
  rewrite !tail_int_lookup by lia.
  rewrite (series_iloc_neg_lookup directions 2 previous) by (rewrite ?Hl; done || lia).
  rewrite (series_iloc_neg_lookup directions 1 latest) by (rewrite ?Hl; done || lia).
  cbn [mbind result_bind].
  destruct (previous <=? Num 0)%F, (latest >? Num 0)%F,
    (previous >=? Num 0)%F, (latest <? Num 0)%F; reflexivity.
Qed.

Lemma get_supertrend_signal_last_two_witness :
  get_supertrend_signal example_enriched 2
  = Ok (if (Num 1 <=? Num 0)%F && (Num (-1) >? Num 0)%F then "BUY"
        else if (Num 1 >=? Num 0)%F && (Num (-1) <? Num 0)%F then "SELL"
        else "HOLD").
Proof.
  apply (get_supertrend_signal_last_two example_enriched 2
           [Num 1; Num 1; Num (-1)] (Num 1) (Num (-1))).
  - apply df_wf_check. vm_compute. reflexivity.
  - reflexivity.
  - lia.
  - simpl. lia.
  - reflexivity.
  - reflexivity.
Defined.

(** X5. On a frame with a direction column, [is_supertrend_bullish] and
    [is_supertrend_bearish] both answer True for 0 confirmation bars (no bar
    is looked at), and never both answer True for 1 or more. *)
Theorem bullish_bearish_exclusive (df : DataFrame) (directions : Series) :
  df_wf df → df_cols df !! "supertrend_direction" = Some directions →
  is_supertrend_bullish df 0 = Ok true
  ∧ is_supertrend_bearish df 0 = Ok true
  ∧ ∀ confirmation_bars : Z, (1 ≤ confirmation_bars)%Z →
      is_supertrend_bullish df confirmation_bars = Ok true →
      is_supertrend_bearish df confirmation_bars = Ok false.
Proof.
  intros Hwf Hdirs. pose proof (Hwf _ _ Hdirs) as Hlen.
  unfold is_supertrend_bullish, is_supertrend_bearish, df_has, df_col.
  rewrite Hdirs, bool_decide_eq_true_2 by eauto. cbn [negb orb mbind result_bind].
  split; [|split].
  - by destruct (Z.ltb_spec (Z.of_nat (df_len df)) 0) as [?|_]; [lia|].
  - by destruct (Z.ltb_spec (Z.of_nat (df_len df)) 0) as [?|_]; [lia|].
  - intros bars Hbars.
    destruct (Z.ltb_spec (Z.of_nat (df_len df)) bars) as [?|Hle]; [done|].
    destruct (tail_int_nonempty bars directions) as (x & rest & ->); [lia..|].
    cbn [forallb]. intros Hbull. injection Hbull as Hbull.
    apply andb_true_iff in Hbull as [Hx _]. f_equal.
    destruct x as [q|]; [|done]. unfold fgt, flt, Qlt_bool in *.
    apply negb_true_iff in Hx.
    assert (Qle_bool 0 q = true) as ->; [|done].
    apply Qle_bool_iff. destruct (Qlt_le_dec q 0) as [Hq|Hq]; [|done].
    apply Qlt_le_weak, Qle_bool_iff in Hq. congruence.
Qed.

Lemma bullish_bearish_exclusive_witness :
  is_supertrend_bullish example_enriched 0 = Ok true
  ∧ is_supertrend_bearish example_enriched 0 = Ok true
  ∧ ∀ confirmation_bars : Z, (1 ≤ confirmation_bars)%Z →
      is_supertrend_bullish example_enriched confirmation_bars = Ok true →
      is_supertrend_bearish example_enriched confirmation_bars = Ok false.
Proof.
  apply (bullish_bearish_exclusive example_enriched [Num 1; Num 1; Num (-1)]).
  - apply df_wf_check. vm_compute. reflexivity.
  - reflexivity.
Defined.

(** X6. On the frame [calculate_supertrend] returns for at least one bar,
    exactly one of [is_supertrend_bullish] and [is_supertrend_bearish]
    (with one confirmation bar) answers True: bullish when the direction of
    the last bar is +1, bearish otherwise. *)
Theorem supertrend_bullish_xor_bearish (h : gmap loc DataFrame) (l : loc) (d : DataFrame)
    (period : nat) (multiplier : float) (atr_column : string) :
  h !! l = Some d → df_wf d → has_ohlc d → (1 ≤ df_len d)%nat →
  ∃ (l' : loc) (h' : gmap loc DataFrame) (d' : DataFrame) (directions : Series)
    (b : bool),
    calculate_supertrend l period multiplier atr_column h = (Ok l', h')
    ∧ h' !! l' = Some d'
    ∧ df_cols d' !! "supertrend_direction" = Some directions
    ∧ is_supertrend_bullish d' 1 = Ok b
    ∧ is_supertrend_bearish d' 1 = Ok (negb b)
    ∧ (b = true ↔ last directions = Some (Num 1)).
Proof.
  intros Hh Hwf Hohlc Hn.
  destruct (calculate_supertrend_run l period multiplier atr_column h d)
    as (l' & h' & Hrun & Hl' & _); [done..|].
  destruct (supertrend_frame_ok period multiplier atr_column d Hwf Hohlc)
    as ((HwfF & _ & _ & _ & [directions Hdirs] & _) & Hlen & _ & Hsign & _).
  destruct (bullish_xor_bearish (supertrend_frame period multiplier atr_column d)
              directions HwfF Hdirs) as (b & Hbull & Hbear & Hb).
  { lia. }
  { apply (column_Forall _ _ _ _ HwfF Hdirs). intros i Hi. apply Hsign. lia. }
  by exists l', h', (supertrend_frame period multiplier atr_column d), directions, b.
Qed.

Lemma supertrend_bullish_xor_bearish_witness :
  ∃ (l' : loc) (h' : gmap loc DataFrame) (d' : DataFrame) (directions : Series)
    (b : bool),
    calculate_supertrend 1%positive 2 (Num 1) "atr" {[ 1%positive := example_bars ]}
    = (Ok l', h')
    ∧ h' !! l' = Some d'
    ∧ df_cols d' !! "supertrend_direction" = Some directions
    ∧ is_supertrend_bullish d' 1 = Ok b
    ∧ is_supertrend_bearish d' 1 = Ok (negb b)
    ∧ (b = true ↔ last directions = Some (Num 1)).
Proof.
  apply (supertrend_bullish_xor_bearish {[ 1%positive := example_bars ]} 1%positive
           example_bars 2 (Num 1) "atr").
  - reflexivity.
  - apply df_wf_check. vm_compute. reflexivity.
  - unfold has_ohlc. repeat split; eexists; reflexivity.
  - simpl. lia.
Defined.

(** X7. [calculate_supertrend_strength] is 0 when the line of the last bar
    is 0 (no division happens), and otherwise the distance of the close from
    the line in percent of the line; for a positive line it is positive
    exactly when the close is above the line. *)
Theorem calculate_supertrend_strength_sign (df : DataFrame) (line closes : Series)
    (s c : Q) :
  df_wf df → (1 ≤ df_len df)%nat →
  df_cols df !! "supertrend" = Some line → df_cols df !! "close" = Some closes →
  last line = Some (Num s) → last closes = Some (Num c) →
  ∃ q, calculate_supertrend_strength df = Ok (Num q)
    ∧ (s == 0 → q == 0)
    ∧ (¬ s == 0 → q == (c - s) / s * 100)
    ∧ (0 < s → (0 < q ↔ s < c)).
Proof.
  intros Hwf Hn Hline Hcloses Hs Hc.
  unfold calculate_supertrend_strength, df_has.
  rewrite bool_decide_eq_true_2 by eauto. cbn [negb orb].
  destruct (Nat.eqb_spec (df_len df) 0) as [?|_]; [lia|].
  unfold iloc_neg, iloc. rewrite !bool_decide_eq_true_2 by lia.
  cbn [mbind result_bind]. unfold row_getitem. rewrite !lookup_omap, Hline, Hcloses.
  cbn [mbind option_bind].
  rewrite last_lookup in Hs, Hc.
  rewrite (Hwf _ _ Hline) in Hs. rewrite (Hwf _ _ Hcloses) in Hc.
  replace (Init.Nat.pred (df_len df)) with (df_len df - 1)%nat in * by lia.
  rewrite Hs, Hc. cbn [mbind result_bind feqb].
  destruct (Qeq_bool s 0) eqn:E.
  - apply Qeq_bool_iff in E. eexists. split; [done|]. split; [done|].
    split; [done|]. intros Hpos. rewrite E in Hpos. by apply Qlt_irrefl in Hpos.
  - apply Qeq_bool_neq in E. rewrite fsub_Num, fdiv_Num, fmul_Num by done.
    eexists. split; [done|]. split; [done|]. split; [done|].
    intros Hpos. split; intros H.
    + assert (0 < (c - s) / s) as H1 by nra.
      assert ((c - s) / s * s == c - s) as H2 by (field; lra).
      nra.
    + assert ((c - s) / s * s == c - s) as H2 by (field; lra).
      assert (0 < (c - s) / s) as H1 by nra.
      nra.
Qed.

Lemma calculate_supertrend_strength_sign_witness :
  ∃ q, calculate_supertrend_strength example_enriched = Ok (Num q)
    ∧ (12 == 0 → q == 0)
    ∧ (¬ 12 == 0 → q == (9 - 12) / 12 * 100)
    ∧ (0 < 12 → (0 < q ↔ 12 < 9)).
Proof.
  apply (calculate_supertrend_strength_sign example_enriched
           [Num 0; Num 9; Num 12] [Num 9.5; Num 11; Num 9] 12 9).
  - apply df_wf_check. vm_compute. reflexivity.
  - simpl. lia.
  - reflexivity.
  - reflexivity.
  - reflexivity.
  - reflexivity.
Defined.

(** * Further properties of the strategies *)

(** X8. The trend-following [generate_signals] returns at most one signal,
    and only on a flip: a BUY signal with the reason [SuperTrend turned
    bullish], priced at the close of the last bar of the primary frame
    (the 15-minute frame, or the frame under [primary]; enriched with the
    SuperTrend columns if it came without a direction), when the direction
    of the bar before is <= 0 and that of the last bar is > 0. *)
Theorem supertrend_signal_only_on_flip (self : SuperTrendStrategy.t)
    (data : gmap string DataFrame) (sigs : list Signal) :
  SuperTrendStrategy.generate_signals self data = Ok sigs →
  sigs = []
  ∨ ∃ (sig : Signal) (d0 primary : DataFrame) (latest previous : Row)
      (prev_dir dir : float),
      sigs = [sig]
      ∧ signal_type sig = BUY ∧ reason sig = "SuperTrend turned bullish"
      ∧ (data !! "15min" = Some d0 ∨ data !! "primary" = Some d0)
      ∧ (primary = d0
         ∨ call_on_copy (SuperTrendStrategy._calculate_supertrend self) d0 = Ok primary)
      ∧ iloc_neg primary 1 = Ok latest ∧ iloc_neg primary 2 = Ok previous
      ∧ previous !! "supertrend_direction" = Some prev_dir
      ∧ latest !! "supertrend_direction" = Some dir
      ∧ (prev_dir <=? Num 0)%F = true ∧ (dir >? Num 0)%F = true
      ∧ latest !! "close" = Some (price sig).
Proof.
  unfold SuperTrendStrategy.generate_signals. intros Hgen.
  set (chosen := match data !! "15min" with Some _ => _ | None => _ end) in Hgen.
  assert (∀ d0, chosen = Some d0 → data !! "15min" = Some d0 ∨ data !! "primary" = Some d0)
    as Hchosen.
  { intros d0. subst chosen. repeat case_match; intros ?; simplify_eq; auto. }
  destruct chosen as [d0|]; [|injection Hgen as <-; by left].
  destruct (df_empty d0); [injection Hgen as <-; by left|].
  apply result_bind_ok in Hgen as (primary & Hprimary & Hgen).
  apply result_bind_ok in Hgen as (latest & Hlatest & Hgen).
  case_bool_decide; [|injection Hgen as <-; by left].
  apply result_bind_ok in Hgen as (previous & Hprevious & Hgen).
  apply result_bind_ok in Hgen as (prev_dir & Hprev_dir & Hgen).
  apply result_bind_ok in Hgen as (turned & Hturned & Hgen).
  destruct turned; [|injection Hgen as <-; by left].
  apply result_bind_ok in Hgen as (valid & Hvalid & Hgen).
  destruct valid; [|injection Hgen as <-; by left].
  apply result_bind_ok in Hgen as (sig & Hsig & Hgen).
  injection Hgen as <-. right.
  destruct (prev_dir <=? Num 0)%F eqn:Hprev; [|done].
  apply result_bind_ok in Hturned as (dir & Hdir & Hturned). injection Hturned as Hturned.
  exists sig, d0, primary, latest, previous, prev_dir, dir.
  split; [done|].
  assert (signal_type sig = BUY ∧ reason sig = "SuperTrend turned bullish"
          ∧ latest !! "close" = Some (price sig)) as (? & ? & ?).
  { unfold SuperTrendStrategy._create_buy_signal in Hsig.
    apply result_bind_ok in Hsig as (conf & _ & Hsig).
    apply result_bind_ok in Hsig as (c1 & Hc1 & Hsig).
    apply result_bind_ok in Hsig as (c2 & Hc2 & Hsig).
    apply result_bind_ok in Hsig as (c3 & Hc3 & Hsig).
    apply result_bind_ok in Hsig as (c4 & Hc4 & Hsig).
    injection Hsig as <-. simpl. repeat split.
    unfold row_getitem in Hc4. by destruct (latest !! "close"); simplify_eq. }
  split; [done|]. split; [done|]. split; [by apply Hchosen|].
  split. { destruct (negb _); [by right | left; by injection Hprimary]. }
  split; [done|]. split; [done|].
  unfold row_getitem in Hprev_dir, Hdir.
  destruct (previous !! "supertrend_direction"); [|done].
  destruct (latest !! "supertrend_direction"); [|done].
  by simplify_eq.
Qed.

Lemma supertrend_signal_only_on_flip_witness :
  [full_confidence_signal] = []
  ∨ ∃ (sig : Signal) (d0 primary : DataFrame) (latest previous : Row)
      (prev_dir dir : float),
      [full_confidence_signal] = [sig]
      ∧ signal_type sig = BUY ∧ reason sig = "SuperTrend turned bullish"
      ∧ (full_confidence_data !! "15min" = Some d0
         ∨ full_confidence_data !! "primary" = Some d0)
      ∧ (primary = d0
         ∨ call_on_copy (SuperTrendStrategy._calculate_supertrend
                           (SuperTrendStrategy.__init__ empty_config)) d0 = Ok primary)
      ∧ iloc_neg primary 1 = Ok latest ∧ iloc_neg primary 2 = Ok previous
      ∧ previous !! "supertrend_direction" = Some prev_dir
      ∧ latest !! "supertrend_direction" = Some dir
      ∧ (prev_dir <=? Num 0)%F = true ∧ (dir >? Num 0)%F = true
      ∧ latest !! "close" = Some (price sig).
Proof.
  apply (supertrend_signal_only_on_flip (SuperTrendStrategy.__init__ empty_config)
           full_confidence_data [full_confidence_signal]).
  vm_compute. reflexivity.
Defined.

(** X9. Every signal that [generate_signals] of a loaded strategy returns is
    a BUY signal whose confidence is a number between 0.5 and 1, so the
    confidence test of the engine ([confidence < 0.5]) rejects none of
    them. *)
Theorem signal_confidence_range (strategy : Strategy) (data : gmap string DataFrame)
    (sigs : list Signal) (sig : Signal) :
  generate_signals strategy data = Ok sigs → sig ∈ sigs →
  signal_type sig = BUY
  ∧ ∃ q, confidence sig = Num q ∧ 0.5 <= q ∧ q <= 1
         ∧ (confidence sig <? Num 0.5)%F = false.
Proof.
  intros Hgen Hin. destruct strategy as [self|self]; cbn [generate_signals] in Hgen.
  - destruct (generate_signals_inv self data sigs sig Hgen Hin)
      as (primary & latest & _ & _ & Hsig & _).
    destruct (create_buy_signal_confidence self latest primary sig Hsig)
      as (Hconf & Hbuy & _).
    split; [done|]. by eapply supertrend_confidence_range.
  - destruct (macd_generate_signals_inv self data sigs Hgen) as [_ [-> | Hsigs]];
      [by apply elem_of_nil in Hin|].
    destruct Hsigs as (sig' & primary & latest & -> & _ & _ & _ & Hsig).
    apply list_elem_of_singleton in Hin as ->.
    destruct (macd_create_buy_signal_fields self latest primary sig' Hsig)
      as (Hconf & Hbuy & _).
    split; [done|]. by eapply macd_confidence_range.
Qed.

Lemma signal_confidence_range_witness :
  signal_type macd_signal = BUY
  ∧ ∃ q, confidence macd_signal = Num q ∧ 0.5 <= q ∧ q <= 1
         ∧ (confidence macd_signal <? Num 0.5)%F = false.
Proof.
  apply (signal_confidence_range (MacdRsi (MacdRsiStrategy.__init__ empty_config))
           {["primary" := macd_frame]} [macd_signal] macd_signal).
  - vm_compute. reflexivity.
  - left.
Defined.



(** X11. With the daily trend filter on, the trend-following strategy gives
    no signal while the daily frame of the bundle has between 1 and 199
    bars, whatever the primary frame shows. *)
Theorem supertrend_needs_200_daily_bars (self : SuperTrendStrategy.t)
    (data : gmap string DataFrame) (daily : DataFrame) (sigs : list Signal) :
  SuperTrendStrategy.generate_signals self data = Ok sigs →
  data !! "daily" = Some daily → df_empty daily = false →
  (df_len daily < 200)%nat →
  SuperTrendStrategy.daily_trend_filter self = true →
  sigs = [].
Proof.
  intros Hgen Hdaily Hne Hlen Hfilter.
  destruct sigs as [|sig rest]; [done|]. exfalso.
  destruct (generate_signals_inv self data _ sig Hgen) as (primary & latest & _ & Hv & _);
    [by left|].
  rewrite Hdaily in Hv. unfold SuperTrendStrategy._validate_entry in Hv.
  apply result_bind_ok in Hv as (below & _ & Hv).
  destruct below; [done|].
  apply result_bind_ok in Hv as (vol_fail & _ & Hv).
  destruct vol_fail; [done|].
  rewrite Hfilter, Hne in Hv. cbn [negb andb] in Hv.
  unfold BaseStrategy.check_daily_trend in Hv. rewrite Hne in Hv.
  rewrite bool_decide_eq_true_2 in Hv by done. done.
Qed.

Lemma supertrend_needs_200_daily_bars_witness : @nil Signal = [].
Proof.
  apply (supertrend_needs_200_daily_bars (SuperTrendStrategy.__init__ empty_config)
           (<["daily" := example_bars]> full_confidence_data) example_bars []).
  - vm_compute. reflexivity.
  - reflexivity.
  - reflexivity.
  - simpl. lia.
  - reflexivity.
Defined.

(** X12. On every bundle of well-formed frames that have high, low and close
    columns the trend-following [generate_signals] returns a list: it
    raises for no such bundle. *)
Theorem supertrend_generate_signals_total (self : SuperTrendStrategy.t)
    (data : gmap string DataFrame) :
  map_Forall (λ _ d, df_wf d ∧ has_ohlc d) data →
  ∃ sigs, SuperTrendStrategy.generate_signals self data = Ok sigs.
Proof. intros Hdata. by apply supertrend_generate_signals_returns. Qed.

Lemma supertrend_generate_signals_total_witness :
  ∃ sigs, SuperTrendStrategy.generate_signals (SuperTrendStrategy.__init__ empty_config)
            {["15min" := example_bars]} = Ok sigs.
Proof.
  apply (supertrend_generate_signals_total (SuperTrendStrategy.__init__ empty_config)
           {["15min" := example_bars]}).
  apply map_Forall_singleton. split.
  - apply df_wf_check. vm_compute. reflexivity.
  - unfold has_ohlc. repeat split; eexists; reflexivity.
Defined.



(** X14. The bar that lets the MACD/RSI strategy enter also makes it leave:
    with the default RSI ceiling of 70, a bar that passes
    [_check_entry_conditions] with an RSI other than 70 and a close below
    the upper Bollinger band makes [should_exit] answer True (momentum
    weakening) for every position with a positive entry price. *)
Theorem macd_entry_bar_exits (self : MacdRsiStrategy.t) (latest : Row)
    (primary : DataFrame) (daily : option DataFrame) (position : Position)
    (e c r u : Q) :
  MacdRsiStrategy._check_entry_conditions self latest primary daily = Ok true →
  MacdRsiStrategy.rsi_max self = Num 70 →
  latest !! "rsi_14" = Some (Num r) → ¬ r == 70 →
  latest !! "close" = Some (Num c) → latest !! "bb_upper" = Some (Num u) →
  pos_entry_price position = Some (Num e) →
  0 < e → 0 < c → c < u →
  MacdRsiStrategy.should_exit self position latest
  = (true, "Momentum weakening (RSI < 70, price < BB upper)").
Proof.
  intros Hentry Hmax Hr Hr70 Hc Hu He He0 Hc0 Hcu.
  assert (r <= 70) as Hle.
  { unfold MacdRsiStrategy._check_entry_conditions in Hentry.
    destruct (_ || _) in Hentry; [done|].
    unfold row_get in Hentry. rewrite Hr, Hmax in Hentry. cbn [default from_option id] in Hentry.
    destruct (MacdRsiStrategy.rsi_min self <=? Num r)%F; [|done].
    destruct (Num r <=? Num 70)%F eqn:E; [|done]. by apply fle_Num in E. }
  assert (r < 70) as Hlt.
  { destruct (Qlt_le_dec r 70) as [?|Hge]; [done|]. exfalso. apply Hr70. lra. }
  unfold MacdRsiStrategy.should_exit, row_get. rewrite He, Hc, Hr, Hu.
  cbn [default from_option id].
  assert ((Num e <=? Num 0)%F = false) as -> by by apply fle_Num_false.
  assert ((Num c <=? Num 0)%F = false) as -> by by apply fle_Num_false.
  assert ((Num r <? Num 70)%F = true) as -> by by apply flt_Num.
  assert ((Num c <? Num u)%F = true) as -> by by apply flt_Num.
  done.
Qed.

Lemma macd_entry_bar_exits_witness :
  MacdRsiStrategy.should_exit (MacdRsiStrategy.__init__ empty_config)
    (mkPosition "RELIANCE" 178 (Some (Num 100)) (Some "MACD_RSI") (Some (Num 95))
       (Some (Num 110)) "order-1") macd_row
  = (true, "Momentum weakening (RSI < 70, price < BB upper)").
Proof.
  apply (macd_entry_bar_exits (MacdRsiStrategy.__init__ empty_config) macd_row
           macd_frame None
           (mkPosition "RELIANCE" 178 (Some (Num 100)) (Some "MACD_RSI") (Some (Num 95))
              (Some (Num 110)) "order-1") 100 100 50 110).
  - vm_compute. reflexivity.
  - reflexivity.
  - reflexivity.
  - vm_compute. discriminate.
  - reflexivity.
  - reflexivity.
  - reflexivity.
  - reflexivity.
  - reflexivity.
  - reflexivity.
Defined.

(** X15. When the MACD/RSI [generate_signals] returns, the bundle had no
    15-minute frame, and the list is empty or holds one BUY signal, with the
    reason [MACD positive, RSI in range, above BB lower], priced at the
    close of the last bar of the frame under [primary], which passed
    [_check_entry_conditions]. *)
Theorem macd_signals_come_from_primary (self : MacdRsiStrategy.t)
    (data : gmap string DataFrame) (sigs : list Signal) :
  MacdRsiStrategy.generate_signals self data = Ok sigs →
  data !! "15min" = None
  ∧ (sigs = []
     ∨ ∃ (sig : Signal) (primary : DataFrame) (latest : Row),
         sigs = [sig] ∧ data !! "primary" = Some primary
         ∧ iloc_neg primary 1 = Ok latest
         ∧ MacdRsiStrategy._check_entry_conditions self latest primary (data !! "daily")
           = Ok true
         ∧ signal_type sig = BUY
         ∧ reason sig = "MACD positive, RSI in range, above BB lower"
         ∧ latest !! "close" = Some (price sig)).
Proof.
  intros Hgen.
  destruct (macd_generate_signals_inv self data sigs Hgen) as [H15 [-> | Hsigs]];
    [split; [done|by left]|].
  destruct Hsigs as (sig & primary & latest & -> & Hp & Hlatest & Henter & Hsig).
  destruct (macd_create_buy_signal_fields self latest primary sig Hsig)
    as (_ & Hbuy & Hreason & Hprice).
  split; [done|]. right. by exists sig, primary, latest.
Qed.

Lemma macd_signals_come_from_primary_witness :
  ({["primary" := macd_frame]} : gmap string DataFrame) !! "15min" = None
  ∧ ([macd_signal] = []
     ∨ ∃ (sig : Signal) (primary : DataFrame) (latest : Row),
         [macd_signal] = [sig]
         ∧ ({["primary" := macd_frame]} : gmap string DataFrame) !! "primary"
           = Some primary
         ∧ iloc_neg primary 1 = Ok latest
         ∧ MacdRsiStrategy._check_entry_conditions (MacdRsiStrategy.__init__ empty_config)
             latest primary
             (({["primary" := macd_frame]} : gmap string DataFrame) !! "daily")
           = Ok true
         ∧ signal_type sig = BUY
         ∧ reason sig = "MACD positive, RSI in range, above BB lower"
         ∧ latest !! "close" = Some (price sig)).
Proof.
  apply (macd_signals_come_from_primary (MacdRsiStrategy.__init__ empty_config)
           {["primary" := macd_frame]} [macd_signal]).
  vm_compute. reflexivity.
Defined.

(** * Further properties of the engine *)

(** X16. No cycle trades.  Whatever the collaborators answer, a run of
    [execute_cycle] only asks the risk manager, the portfolio and the data
    manager: it calls no strategy and places no order, and the result it
    returns counts the symbols and has 0 signals, 0 orders placed, 0 orders
    failed and 0 positions exited.  (The guard [not data.get('15min')] of
    the two per-symbol procedures raises for every fetched frame and skips
    the symbol otherwise.) *)
Theorem execute_cycle_never_trades {W : Type} (C : Collaborators W)
    (config : EngineConfig) (strategies : list Strategy) (symbols : list string)
    (s : EngineState W) :
  ∃ evs,
    trace (execute_cycle C config strategies symbols s).2 = trace s ++ evs
    ∧ Forall quiet_event evs
    ∧ ∀ r, (execute_cycle C config strategies symbols s).1 = Ok r →
        quiet_result (length symbols) r.
Proof.
  unfold execute_cycle.
  erewrite bind_run by reflexivity.
  set (s0 := mkEngineState (world s) (trace s) _).
  destruct (can_trade C (world s)) as [[allowed|e] w1] eqn:Hgate.
  2: { erewrite bind_raise by (unfold call; cbn; by rewrite Hgate).
       exists [EvCanTrade]. split; [done|]. split; [|done].
       apply Forall_singleton. by left. }
  erewrite bind_run by (unfold call; cbn; by rewrite Hgate).
  set (s1 := mkEngineState w1 _ _).
  destruct allowed; cbn [negb].
  - destruct (process_symbols_quiet C config strategies (length symbols) symbols s1)
      as (s' & evs & Hrun & Htr & Hevs & Hq); [done|].
    erewrite bind_run by exact Hrun.
    exists (EvCanTrade :: evs). cbn. split; [rewrite Htr; subst s1; cbn; by rewrite <- app_assoc|].
    split; [constructor; [by left|done]|].
    intros r Hr. by injection Hr as <-.
  - erewrite bind_run by reflexivity.
    exists [EvCanTrade]. cbn. split; [done|]. split; [apply Forall_singleton; by left|].
    intros r Hr. by injection Hr as <-.
Qed.


(** X18. [_execute_buy_signal] never raises and leaves the counters alone.
    When it answers True, the last two things it did were to place a buy
    order for the symbol and the price of the signal and to record a
    position with the quantity of that order and the price, stop and target
    of the signal.  Every buy order it places has a positive quantity, every
    position it records follows an order it placed, and it places no sell
    order. *)
Theorem execute_buy_signal_outcome {W : Type} (C : Collaborators W)
    (config : EngineConfig) (strategies : list Strategy) (signal : Signal)
    (data : gmap string DataFrame) (s : EngineState W) :
  ∃ (bought : bool) (s' : EngineState W) (evs : list Event),
    _execute_buy_signal C config strategies signal data s = (Ok bought, s')
    ∧ trace s' = trace s ++ evs
    ∧ results s' = results s
    ∧ (bought = true →
       ∃ (before : list Event) (quantity : Z) (position : Position),
         evs = before ++ [EvPlaceBuyOrder (symbol signal) quantity (price signal)
                            (execution_order_type config);
                          EvAddPosition position]
         ∧ pos_symbol position = symbol signal ∧ pos_qty position = quantity
         ∧ pos_entry_price position = Some (price signal)
         ∧ pos_stop_loss_price position = stop_loss signal
         ∧ pos_take_profit_price position = take_profit signal)
    ∧ (∀ sym quantity order_price order_type,
         EvPlaceBuyOrder sym quantity order_price order_type ∈ evs →
         sym = symbol signal ∧ (0 < quantity)%Z ∧ order_price = price signal)
    ∧ (∀ position, EvAddPosition position ∈ evs →
         ∃ price order_type,
           EvPlaceBuyOrder (pos_symbol position) (pos_qty position) price order_type ∈ evs)
    ∧ (∀ sym quantity price order_type,
         EvPlaceSellOrder sym quantity price order_type ∉ evs).
Proof.
  set (quiet := λ ev : Event,
         ev = EvGetAvailableCapital ∨ ∃ n, ev = EvCalculatePositionSize n).
  assert (∀ evs : list Event, Forall quiet evs →
            (∀ sym quantity price order_type,
               EvPlaceBuyOrder sym quantity price order_type ∉ evs)
            ∧ (∀ position, EvAddPosition position ∉ evs)
            ∧ (∀ sym quantity price order_type,
                 EvPlaceSellOrder sym quantity price order_type ∉ evs)) as Hquiet.
  { intros evs Hevs. rewrite Forall_forall in Hevs.
    repeat split; repeat intros ?;
      match goal with H : _ ∈ evs |- _ => destruct (Hevs _ H) as [?|[? ?]]; done end. }
  (* the part of a run that ends without an order *)
  assert (∀ (b : bool) (s' : EngineState W) (evs : list Event),
            b = false → trace s' = trace s ++ evs → results s' = results s →
            Forall quiet evs →
            ∃ (bought : bool) (s'' : EngineState W) (evs' : list Event),
              (Ok b, s') = (Ok bought, s'')
              ∧ trace s'' = trace s ++ evs'
              ∧ results s'' = results s
              ∧ (bought = true →
                 ∃ (before : list Event) (quantity : Z) (position : Position),
                   evs' = before ++ [EvPlaceBuyOrder (symbol signal) quantity (price signal)
                                      (execution_order_type config);
                                    EvAddPosition position]
                   ∧ pos_symbol position = symbol signal ∧ pos_qty position = quantity
                   ∧ pos_entry_price position = Some (price signal)
                   ∧ pos_stop_loss_price position = stop_loss signal
                   ∧ pos_take_profit_price position = take_profit signal)
              ∧ (∀ sym quantity order_price order_type,
                   EvPlaceBuyOrder sym quantity order_price order_type ∈ evs' →
                   sym = symbol signal ∧ (0 < quantity)%Z
                   ∧ order_price = price signal)
              ∧ (∀ position, EvAddPosition position ∈ evs' →
                   ∃ price order_type,
                     EvPlaceBuyOrder (pos_symbol position) (pos_qty position) price
                       order_type ∈ evs')
              ∧ (∀ sym quantity price order_type,
                   EvPlaceSellOrder sym quantity price order_type ∉ evs')) as Hstop.
  { intros b s' evs -> Htr Hres Hevs. exists false, s', evs.
    destruct (Hquiet evs Hevs) as (Hb & Ha & Hs).
    split; [done|]. split; [done|]. split; [done|]. split; [done|].
    split; [intros ???? Hin; by apply Hb in Hin|].
    split; [intros ? Hin; by apply Ha in Hin|done]. }
  unfold _execute_buy_signal, try_except.
  (* frame and latest row *)
  unfold mbind at 1, St_bind at 1, lift at 1.
  destruct (match data !! "15min" with Some d => Ok d | None => _ end) as [frame|e].
  2: { apply (Hstop false s []); [done|by rewrite app_nil_r|done|done]. }
  unfold mbind at 1, St_bind at 1, lift at 1.
  destruct (iloc_neg frame 1) as [latest_data|e].
  2: { apply (Hstop false s []); [done|by rewrite app_nil_r|done|done]. }
  unfold mbind at 1, St_bind at 1, call at 1.
  destruct (get_available_capital C (world s)) as [[available_capital|e] w1].
  2: { eapply (Hstop false _ [_]); [done|done|done|].
       apply Forall_singleton. by left. }
  set (s1 := mkEngineState w1 _ _).
  unfold mbind at 1, St_bind at 1, lift at 1.
  destruct (first_word (reason signal)) as [word|e].
  2: { eapply (Hstop false s1 [_]); [done|done|done|].
       apply Forall_singleton. by left. }
  (* the quantity *)
  unfold mbind at 1, St_bind at 1.
  match goal with
  | |- context [match ?Q s1 with _ => _ end] =>
      assert (∃ evs, trace (Q s1).2 = trace s1 ++ evs
                     ∧ Forall quiet evs ∧ results (Q s1).2 = results s1)
        as (evq & Htrq & Hevq & Hresq);
      [| destruct (Q s1) as [[qty|e] s2] ]
  end.
  { destruct (_get_strategy_by_name strategies word) as [strategy|].
    - unfold mbind, St_bind, note, lift.
      match goal with
      | |- context [calculate_position_size ?a ?b ?c ?d ?e] =>
          destruct (calculate_position_size a b c d e)
      end; cbn;
        (eexists [_]; split; [done|]; split; [|done]);
        apply Forall_singleton; right; by eexists.
    - destruct (_ >? _)%F; [unfold lift|unfold mret, St_ret]; cbn;
        (exists []; split; [by rewrite app_nil_r|]; split; done). }
  2: { cbn in Htrq, Hresq. eapply (Hstop false s2 (EvGetAvailableCapital :: evq));
         [done| |done|].
       - rewrite Htrq. subst s1. cbn. by rewrite <- app_assoc.
       - constructor; [by left|done]. }
  cbn in Htrq, Hresq.
  assert (trace s2 = trace s ++ EvGetAvailableCapital :: evq) as Htr2.
  { rewrite Htrq. subst s1. cbn. by rewrite <- app_assoc. }
  assert (Forall quiet (EvGetAvailableCapital :: evq)) as Hev2
    by (constructor; [by left|done]).
  destruct (Z.leb_spec qty 0) as [Hle|Hpos].
  { eapply (Hstop false s2 _); [done|exact Htr2|done|done]. }
  (* the order *)
  unfold mbind at 1, St_bind at 1, call at 1.
  destruct (place_buy_order C (symbol signal) qty (price signal)
              (execution_order_type config) (world s2)) as [[order_id|e] w3].
  2: { eexists false, _, (EvGetAvailableCapital :: evq ++ [_]).
       destruct (Hquiet _ Hev2) as (Hb & Ha & Hs).
       split; [reflexivity|]. split; [cbn; by rewrite Htr2, <- app_assoc|].
       split; [done|]. split; [done|].
       split.
       { intros ???? Hin. rewrite app_comm_cons in Hin.
         apply elem_of_app in Hin as [Hin|Hin]; [by apply Hb in Hin|].
         apply list_elem_of_singleton in Hin. by injection Hin as -> -> -> ->. }
       split.
       { intros ? Hin. rewrite app_comm_cons in Hin.
         apply elem_of_app in Hin as [Hin|Hin]; [by apply Ha in Hin|].
         by apply list_elem_of_singleton in Hin. }
       intros ???? Hin. rewrite app_comm_cons in Hin.
       apply elem_of_app in Hin as [Hin|Hin]; [by apply Hs in Hin|].
       by apply list_elem_of_singleton in Hin. }
  destruct (order_placed order_id).
  2: { eexists false, _, (EvGetAvailableCapital :: evq ++ [_]).
       destruct (Hquiet _ Hev2) as (Hb & Ha & Hs).
       split; [reflexivity|]. split; [cbn; by rewrite Htr2, <- app_assoc|].
       split; [done|]. split; [done|].
       split.
       { intros ???? Hin. rewrite app_comm_cons in Hin.
         apply elem_of_app in Hin as [Hin|Hin]; [by apply Hb in Hin|].
         apply list_elem_of_singleton in Hin. by injection Hin as -> -> -> ->. }
       split.
       { intros ? Hin. rewrite app_comm_cons in Hin.
         apply elem_of_app in Hin as [Hin|Hin]; [by apply Ha in Hin|].
         by apply list_elem_of_singleton in Hin. }
       intros ???? Hin. rewrite app_comm_cons in Hin.
       apply elem_of_app in Hin as [Hin|Hin]; [by apply Hs in Hin|].
       by apply list_elem_of_singleton in Hin. }
  (* the position *)
  unfold mbind at 1, St_bind at 1, lift at 1.
  unfold mbind at 1, St_bind at 1, call at 1. cbn [world trace results].
  set (position := {| pos_symbol := symbol signal |}).
  assert (∀ b w, ∃ (bought : bool) (s'' : EngineState W) (evs' : list Event),
            (Ok b, mkEngineState w
                     ((trace s2 ++ [EvPlaceBuyOrder (symbol signal) qty (price signal)
                                      (execution_order_type config)])
                      ++ [EvAddPosition position]) (results s2))
            = (Ok bought, s'')
            ∧ trace s'' = trace s ++ evs'
            ∧ results s'' = results s
            ∧ (bought = true →
               ∃ (before : list Event) (quantity : Z) (position : Position),
                 evs' = before ++ [EvPlaceBuyOrder (symbol signal) quantity (price signal)
                                    (execution_order_type config);
                                  EvAddPosition position]
                 ∧ pos_symbol position = symbol signal ∧ pos_qty position = quantity
                 ∧ pos_entry_price position = Some (price signal)
                 ∧ pos_stop_loss_price position = stop_loss signal
                 ∧ pos_take_profit_price position = take_profit signal)
            ∧ (∀ sym quantity order_price order_type,
                 EvPlaceBuyOrder sym quantity order_price order_type ∈ evs' →
                 sym = symbol signal ∧ (0 < quantity)%Z
                 ∧ order_price = price signal)
            ∧ (∀ position, EvAddPosition position ∈ evs' →
                 ∃ price order_type,
                   EvPlaceBuyOrder (pos_symbol position) (pos_qty position) price
                     order_type ∈ evs')
            ∧ (∀ sym quantity price order_type,
                 EvPlaceSellOrder sym quantity price order_type ∉ evs')) as Hdone.
  { intros b w.
    eexists b, _, ((EvGetAvailableCapital :: evq)
                   ++ [EvPlaceBuyOrder (symbol signal) qty (price signal)
                         (execution_order_type config); EvAddPosition position]).
    destruct (Hquiet _ Hev2) as (Hb & Ha & Hs).
    split; [reflexivity|].
    split; [cbn [trace]; rewrite Htr2, <- !app_assoc; by cbn|].
    split; [done|].
    split; [intros _; by eexists _, qty, position|].
    split.
    { intros ???? Hin.
      apply elem_of_app in Hin as [Hin|Hin]; [by apply Hb in Hin|].
      in_events Hin. by injection Hin as -> -> -> ->. }
    split.
    { intros ? Hin.
      apply elem_of_app in Hin as [Hin|Hin]; [by apply Ha in Hin|].
      in_events Hin. injection Hin as ->. eexists _, _.
      apply elem_of_app. right. by left. }
    intros ???? Hin.
    apply elem_of_app in Hin as [Hin|Hin]; [by apply Hs in Hin|]. in_events Hin. }
  destruct (add_position C position w3) as [[[]|e] w4]; apply Hdone.
Qed.

(** X19. [_execute_sell_signal] never raises and leaves the counters alone.
    When it answers True it has asked for the current price, sold the full
    quantity of the position at that price and closed the position at that
    price with the given reason, in this order.  It sells only the full
    quantity at a price that is not missing or zero, and it places no buy
    order. *)
Theorem execute_sell_signal_outcome {W : Type} (C : Collaborators W)
    (config : EngineConfig) (symbol : string) (position : Position) (reason : string)
    (s : EngineState W) :
  ∃ (sold : bool) (s' : EngineState W) (evs : list Event),
    _execute_sell_signal C config symbol position reason s = (Ok sold, s')
    ∧ trace s' = trace s ++ evs
    ∧ results s' = results s
    ∧ (sold = true →
       ∃ current_price,
         evs = [EvGetCurrentPrice symbol;
                EvPlaceSellOrder symbol (pos_qty position) current_price
                  (execution_order_type config);
                EvClosePosition symbol current_price reason])
    ∧ (∀ sym quantity price order_type,
         EvPlaceSellOrder sym quantity price order_type ∈ evs →
         sym = symbol ∧ quantity = pos_qty position ∧ truthy price = true)
    ∧ (∀ sym quantity price order_type,
         EvPlaceBuyOrder sym quantity price order_type ∉ evs).
Proof.
  unfold _execute_sell_signal, try_except, mbind, St_bind, call, mret, St_ret.
  destruct (get_current_price C symbol (world s)) as [[current_price|e] w1];
    cbn [world trace results].
  2: { eexists false, _, [_]. split; [reflexivity|]. split; [reflexivity|].
       split; [done|]. split; [done|]. split; intros ???? Hin; in_events Hin. }
  destruct current_price as [current_price|]; cbn [opt_truthy negb].
  2: { eexists false, _, [_]. split; [reflexivity|]. split; [reflexivity|].
       split; [done|]. split; [done|]. split; intros ???? Hin; in_events Hin. }
  destruct (truthy current_price) eqn:Htruthy; cbn [negb].
  2: { eexists false, _, [_]. split; [reflexivity|]. split; [reflexivity|].
       split; [done|]. split; [done|]. split; intros ???? Hin; in_events Hin. }
  cbn [default from_option id world trace results].
  destruct (place_sell_order C symbol (pos_qty position) current_price
              (execution_order_type config) w1) as [[order_id|e] w2];
    cbn [world trace results].
  2: { eexists false, _, [_; _]. split; [reflexivity|].
       split; [cbn; by rewrite <- app_assoc|].
       split; [done|]. split; [done|]. split; intros ???? Hin; in_events Hin.
       by injection Hin as -> -> -> ->. }
  destruct (order_placed order_id).
  2: { eexists false, _, [_; _]. split; [reflexivity|].
       split; [cbn; by rewrite <- app_assoc|].
       split; [done|]. split; [done|]. split; intros ???? Hin; in_events Hin.
       by injection Hin as -> -> -> ->. }
  cbn [world trace results].
  destruct (close_position C symbol current_price reason w2) as [[[]|e] w3];
    cbn [world trace results].
  - eexists true, _, [_; _; _]. split; [reflexivity|].
    split; [cbn; by rewrite <- !app_assoc|].
    split; [done|]. split; [intros _; by exists current_price|].
    split; intros ???? Hin; in_events Hin. by injection Hin as -> -> -> ->.
  - eexists false, _, [_; _; _]. split; [reflexivity|].
    split; [cbn; by rewrite <- !app_assoc|].
    split; [done|]. split; [done|].
    split; intros ???? Hin; in_events Hin. by injection Hin as -> -> -> ->.
Qed.

(** X20. Every strategy [_load_strategies] loads is enabled, was named in
    [strategies.active], and holds the risk per trade and the maximal
    position size of the [trading] section, also when its own section set
    them; no more strategies are loaded than names are listed. *)
Theorem load_strategies_global_risk (config : EngineConfig) :
  Forall (λ strategy,
            strategy_enabled strategy = true
            ∧ cfg_risk_per_trade (strategy_config strategy)
              = Some (trading_risk_per_trade config)
            ∧ cfg_max_position_size (strategy_config strategy)
              = Some (trading_max_position_size config)
            ∧ (strategy_name strategy = "SuperTrend"
                 ∧ "supertrend" ∈ strategies_active config
               ∨ strategy_name strategy = "MACD_RSI"
                 ∧ "macd_rsi" ∈ strategies_active config))
         (_load_strategies config)
  ∧ (length (_load_strategies config) ≤ length (strategies_active config))%nat.
Proof.
  unfold _load_strategies.
  set (good := λ (names : list string) strategy,
         strategy_enabled strategy = true
         ∧ cfg_risk_per_trade (strategy_config strategy)
           = Some (trading_risk_per_trade config)
         ∧ cfg_max_position_size (strategy_config strategy)
           = Some (trading_max_position_size config)
         ∧ (strategy_name strategy = "SuperTrend" ∧ "supertrend" ∈ names
            ∨ strategy_name strategy = "MACD_RSI" ∧ "macd_rsi" ∈ names)).
  set (step := λ (strategies : list Strategy) (strategy_name : string), _).
  assert (∀ names seen acc,
            Forall (good (seen ++ names)) acc → (length acc ≤ length seen)%nat →
            Forall (good (seen ++ names)) (foldl step acc names)
            ∧ (length (foldl step acc names) ≤ length (seen ++ names))%nat) as Hfold.
  { induction names as [|n names IH]; intros seen acc Hacc Hlen.
    { rewrite app_nil_r in *. done. }
    cbn [foldl].
    replace (seen ++ n :: names) with ((seen ++ [n]) ++ names) in *
      by (by rewrite <- app_assoc).
    apply IH.
    - unfold step. cbv beta zeta.
      destruct (String.eqb_spec n "supertrend") as [-> | _].
      { match goal with
      | |- context [if strategy_enabled ?x then _ else _] =>
          destruct (strategy_enabled x) eqn:E
      end; [|done].
        apply Forall_app. split; [done|]. apply Forall_singleton.
        unfold good. split; [done|]. split; [reflexivity|]. split; [reflexivity|]. left. split; [done|].
        apply elem_of_app. left. apply elem_of_app. right. by left. }
      destruct (String.eqb_spec n "macd_rsi") as [-> | _]; [|done].
      match goal with
      | |- context [if strategy_enabled ?x then _ else _] =>
          destruct (strategy_enabled x) eqn:E
      end; [|done].
      apply Forall_app. split; [done|]. apply Forall_singleton.
      unfold good. split; [done|]. split; [reflexivity|]. split; [reflexivity|]. right. split; [done|].
      apply elem_of_app. left. apply elem_of_app. right. by left.
    - unfold step. rewrite length_app. simpl.
      repeat case_match; rewrite ?length_app; simpl; lia. }
  destruct (Hfold (strategies_active config) [] []) as [H1 H2]; [done|done|].
  done.
Qed.



(** * Several SuperTrends on one frame *)

(** X22 ([calculate_multiple_supertrends]).  On a frame with high, low and
    close the function returns a new frame object and leaves the input as it
    was.  The new frame has the rows and the columns of the input, except for
    the added ones, and for every configuration [(period, multiplier)] of the
    list (the three default ones when no list is given) the columns
    [supertrend_<period>_<multiplier>] and
    [supertrend_direction_<period>_<multiplier>] hold what
    [calculate_supertrend] gives for the input frame itself with that period
    and multiplier: the columns added for earlier configurations do not
    influence the later ones, and a configuration that is listed twice is
    harmless. *)
Theorem calculate_multiple_supertrends_columns (l : loc) (h : gmap loc DataFrame)
    (d : DataFrame) (configs : option (list (nat * Z))) :
  h !! l = Some d → df_wf d → has_ohlc d →
  let used := default [(7%nat, 2%Z); (10%nat, 3%Z); (14%nat, 4%Z)] configs in
  ∃ l' h' d',
    calculate_multiple_supertrends l configs h = (Ok l', h')
    ∧ h' !! l' = Some d' ∧ h !! l' = None ∧ h' !! l = Some d
    ∧ df_len d' = df_len d
    ∧ (∀ c, c ∉ multiple_names used → df_cols d' !! c = df_cols d !! c)
    ∧ ∀ period multiplier, (period, multiplier) ∈ used →
        ∃ lt ht dt,
          calculate_supertrend l period (Num (inject_Z multiplier)) "atr" h = (Ok lt, ht)
          ∧ ht !! lt = Some dt
          ∧ df_cols d' !! ("supertrend" +:+ supertrend_suffix period multiplier)
            = df_cols dt !! "supertrend"
          ∧ df_cols d' !! ("supertrend_direction" +:+ supertrend_suffix period multiplier)
            = df_cols dt !! "supertrend_direction".
Proof.
  intros Hh Hwf Hohlc used.
  destruct (calculate_multiple_supertrends_run l h d configs Hh Hwf Hohlc)
    as (h' & Hrun & Hh' & _ & Hl).
  exists (fresh (dom h)), h', (foldl (add_supertrend d) d used).
  split; [done|]. split; [done|]. split; [apply fresh_lookup|]. split; [done|].
  split; [apply foldl_add_supertrend_len|].
  split; [intros c Hc; by apply foldl_add_supertrend_other|].
  intros period multiplier Hin.
  destruct (calculate_supertrend_run l period (Num (inject_Z multiplier)) "atr" h d
              Hh Hwf Hohlc) as (lt & ht & Hrunt & Hlt & _).
  eexists lt, ht, _. split; [done|]. split; [done|].
  destruct (supertrend_frame_ok period (Num (inject_Z multiplier)) "atr" d Hwf Hohlc)
    as ((_ & _ & _ & _ & [sd Hsd] & [ss Hss]) & _).
  destruct (foldl_add_supertrend_config d period multiplier used d (or_introl Hin))
    as [-> ->].
  unfold column. by rewrite Hss, Hsd.
Qed.

Lemma calculate_multiple_supertrends_columns_witness :
  ∃ (l' : loc) (h' : gmap loc DataFrame) (d' : DataFrame),
    calculate_multiple_supertrends 1%positive None {[ 1%positive := example_bars ]}
    = (Ok l', h')
    ∧ h' !! l' = Some d'
    ∧ ({[ 1%positive := example_bars ]} : gmap loc DataFrame) !! l' = None
    ∧ h' !! 1%positive = Some example_bars
    ∧ df_len d' = df_len example_bars
    ∧ (∀ c, c ∉ multiple_names [(7%nat, 2%Z); (10%nat, 3%Z); (14%nat, 4%Z)] →
         df_cols d' !! c = df_cols example_bars !! c)
    ∧ ∀ period multiplier,
        (period, multiplier) ∈ [(7%nat, 2%Z); (10%nat, 3%Z); (14%nat, 4%Z)] →
        ∃ lt ht dt,
          calculate_supertrend 1%positive period (Num (inject_Z multiplier)) "atr"
            {[ 1%positive := example_bars ]} = (Ok lt, ht)
          ∧ ht !! lt = Some dt
          ∧ df_cols d' !! ("supertrend" +:+ supertrend_suffix period multiplier)
            = df_cols dt !! "supertrend"
          ∧ df_cols d' !! ("supertrend_direction" +:+ supertrend_suffix period multiplier)
            = df_cols dt !! "supertrend_direction".
Proof.
  apply (calculate_multiple_supertrends_columns 1%positive
           {[ 1%positive := example_bars ]} example_bars None).
  - reflexivity.
  - apply df_wf_check. vm_compute. reflexivity.
  - unfold has_ohlc. repeat split; eexists; reflexivity.
Defined.

(** X23 ([get_supertrend_confluence]).  On every frame the function returns a
    pair of counts and raises nothing; no column is counted on both sides,
    so the two counts together never exceed the number of columns whose name
    contains [supertrend_direction].  If the frame has a row and the last
    entry of each of these columns is a number other than zero, every one of
    them is counted exactly once: the counts add up to their number. *)
Theorem get_supertrend_confluence_counts (d : DataFrame) :
  df_wf d →
  ∃ bullish_count bearish_count : nat,
    get_supertrend_confluence d = Ok (bullish_count, bearish_count)
    ∧ (bullish_count + bearish_count ≤ length (direction_columns d))%nat
    ∧ ((1 ≤ df_len d)%nat →
       (∀ c, c ∈ direction_columns d →
          ∃ q, cell d c (df_len d - 1) = Num q ∧ ¬ q == 0) →
       (bullish_count + bearish_count = length (direction_columns d))%nat).
Proof.
  intros Hwf. destruct (decide (df_len d = 0)%nat) as [Hz|Hnz].
  - exists 0%nat, 0%nat. split; [|split; [lia | intros; lia]].
    unfold get_supertrend_confluence. by rewrite Hz.
  - eexists _, _. split; [apply get_supertrend_confluence_run; [done | lia]|].
    destruct (count_signs (λ c, cell d c (df_len d - 1)) (direction_columns d))
      as [Hle Heq].
    split; [done|]. intros _ Hall. by apply Heq.
Qed.

Lemma get_supertrend_confluence_counts_witness :
  ∃ bullish_count bearish_count : nat,
    get_supertrend_confluence full_confidence_frame = Ok (bullish_count, bearish_count)
    ∧ (bullish_count + bearish_count ≤ length (direction_columns full_confidence_frame))%nat
    ∧ ((1 ≤ df_len full_confidence_frame)%nat →
       (∀ c, c ∈ direction_columns full_confidence_frame →
          ∃ q, cell full_confidence_frame c (df_len full_confidence_frame - 1) = Num q
               ∧ ¬ q == 0) →
       (bullish_count + bearish_count
        = length (direction_columns full_confidence_frame))%nat).
Proof.
  apply (get_supertrend_confluence_counts full_confidence_frame).
  apply df_wf_check. vm_compute. reflexivity.
Defined.

(** X24 ([calculate_multiple_supertrends] followed by
    [get_supertrend_confluence]).  Take a frame with high, low and close and
    at least one bar, none of whose columns has [supertrend_direction] in its
    name, and a list of distinct configurations (or none, for the three
    default ones).  Then the confluence of the frame
    [calculate_multiple_supertrends] returns counts every configuration
    exactly once, as bullish or as bearish: the two counts add up to the
    number of configurations (3 for the default list). *)
Theorem multiple_supertrends_confluence (l : loc) (h : gmap loc DataFrame)
    (d : DataFrame) (configs : option (list (nat * Z))) :
  h !! l = Some d → df_wf d → has_ohlc d → (1 ≤ df_len d)%nat →
  direction_columns d = [] →
  let used := default [(7%nat, 2%Z); (10%nat, 3%Z); (14%nat, 4%Z)] configs in
  NoDup used →
  ∃ l' h' d' (bullish_count bearish_count : nat),
    calculate_multiple_supertrends l configs h = (Ok l', h')
    ∧ h' !! l' = Some d'
    ∧ get_supertrend_confluence d' = Ok (bullish_count, bearish_count)
    ∧ (bullish_count + bearish_count = length used)%nat.
Proof.
  intros Hh Hwf Hohlc Hlen Hnone used Hnd.
  destruct (calculate_multiple_supertrends_run l h d configs Hh Hwf Hohlc)
    as (h' & Hrun & Hh' & Hwf' & _).
  fold used in Hh', Hwf'. change (default default_configs configs) with used in Hh', Hwf'.
  set (d' := foldl (add_supertrend d) d used) in *.
  assert (df_len d' = df_len d) as Hlen' by apply foldl_add_supertrend_len.
  eexists _, h', d', _, _. split; [done|]. split; [done|].
  split; [apply get_supertrend_confluence_run; [done | lia]|].
  destruct (count_signs (λ c, cell d' c (df_len d' - 1)) (direction_columns d'))
    as [_ ->].
  - unfold d'. rewrite (direction_columns_multiple d used Hnone Hnd).
    by rewrite length_fmap.
  - intros c Hc. unfold d' in Hc.
    rewrite (direction_columns_multiple d used Hnone Hnd) in Hc.
    apply list_elem_of_fmap in Hc as ([p m] & -> & Hin). cbn [fst snd].
    destruct (foldl_add_supertrend_config d p m used d (or_introl Hin)) as [_ Hcol].
    destruct (supertrend_frame_ok p (Num (inject_Z m)) "atr" d Hwf Hohlc)
      as ((_ & _ & _ & _ & [sd Hsd] & _) & _ & _ & Hsign & _).
    assert (cell d' ("supertrend_direction" +:+ supertrend_suffix p m) (df_len d' - 1)
            = cell (supertrend_frame p (Num (inject_Z m)) "atr" d)
                "supertrend_direction" (df_len d' - 1)) as ->.
    { unfold cell at 1. fold d' in Hcol. rewrite Hcol. unfold cell, column.
      by rewrite Hsd. }
    destruct (Hsign (df_len d' - 1)%nat ltac:(lia)) as [-> | ->]; by eexists.
Qed.

Lemma multiple_supertrends_confluence_witness :
  ∃ (l' : loc) (h' : gmap loc DataFrame) (d' : DataFrame)
    (bullish_count bearish_count : nat),
    calculate_multiple_supertrends 1%positive None {[ 1%positive := example_bars ]}
    = (Ok l', h')
    ∧ h' !! l' = Some d'
    ∧ get_supertrend_confluence d' = Ok (bullish_count, bearish_count)
    ∧ (bullish_count + bearish_count
       = length [(7%nat, 2%Z); (10%nat, 3%Z); (14%nat, 4%Z)])%nat.
Proof.
  apply (multiple_supertrends_confluence 1%positive
           {[ 1%positive := example_bars ]} example_bars None).
  - reflexivity.
  - apply df_wf_check. vm_compute. reflexivity.
  - unfold has_ohlc. repeat split; eexists; reflexivity.
  - vm_compute. lia.
  - vm_compute. reflexivity.
  - apply (bool_decide_eq_true_1 (NoDup _)). vm_compute. reflexivity.
Defined.

(** * The stop-loss read from the SuperTrend line *)

(** X26 ([get_supertrend_stop_loss] after [calculate_supertrend]).  On the
    frame [calculate_supertrend] returns for at least one bar the stop-loss is
    the line of the last bar, whatever [direction] is given: 0.0 when there is
    one bar only, and with two bars or more the lower band of the last bar
    when its direction is +1 and the upper band when it is -1. *)
Theorem supertrend_stop_loss_is_band (h : gmap loc DataFrame) (l : loc) (d : DataFrame)
    (period : nat) (multiplier : float) (atr_column direction : string) :
  h !! l = Some d → df_wf d → has_ohlc d → atr_column ≠ "supertrend_upperband" →
  (1 ≤ df_len d)%nat →
  ∃ (l' : loc) (h' : gmap loc DataFrame) (d' : DataFrame) (stop : float),
    calculate_supertrend l period multiplier atr_column h = (Ok l', h')
    ∧ h' !! l' = Some d'
    ∧ get_supertrend_stop_loss d' direction = Ok stop
    ∧ (df_len d = 1%nat → stop = Num 0)
    ∧ ((2 ≤ df_len d)%nat →
       (cell d' "supertrend_direction" (df_len d - 1) = Num 1
        ∧ stop = cell d' "supertrend_lowerband" (df_len d - 1))
       ∨ (cell d' "supertrend_direction" (df_len d - 1) = Num (-1)
          ∧ stop = cell d' "supertrend_upperband" (df_len d - 1))).
Proof.
  intros Hh Hwf Hohlc Ha Hlen.
  destruct (calculate_supertrend_run l period multiplier atr_column h d Hh Hwf Hohlc)
    as (l' & h' & Hrun & Hl' & _).
  destruct (supertrend_frame_ok period multiplier atr_column d Hwf Hohlc)
    as ((HwfF & _ & _ & _ & _ & Hline) & HlenF & _ & Hsign & Hline0).
  pose proof (supertrend_frame_recurrence period multiplier atr_column d Hwf Hohlc Ha Hlen)
    as (_ & _ & _ & Hrec).
  set (F := supertrend_frame period multiplier atr_column d) in *.
  exists l', h', F, (cell F "supertrend" (df_len d - 1)).
  split; [done|]. split; [done|].
  split; [rewrite <- HlenF; apply get_supertrend_stop_loss_run; [done | lia | done]|].
  split.
  - intros ->. apply Hline0. lia.
  - intros Hlen2. destruct (Hrec (df_len d - 1)%nat ltac:(lia)) as (_ & _ & _ & ->).
    destruct (Hsign (df_len d - 1)%nat ltac:(lia)) as [Hd | Hd]; rewrite Hd;
      [by left | by right].
Qed.

Lemma supertrend_stop_loss_is_band_witness :
  ∃ (l' : loc) (h' : gmap loc DataFrame) (d' : DataFrame) (stop : float),
    calculate_supertrend 1%positive 2 (Num 1) "atr" {[ 1%positive := example_bars ]}
    = (Ok l', h')
    ∧ h' !! l' = Some d'
    ∧ get_supertrend_stop_loss d' "short" = Ok stop
    ∧ (df_len example_bars = 1%nat → stop = Num 0)
    ∧ ((2 ≤ df_len example_bars)%nat →
       (cell d' "supertrend_direction" (df_len example_bars - 1) = Num 1
        ∧ stop = cell d' "supertrend_lowerband" (df_len example_bars - 1))
       ∨ (cell d' "supertrend_direction" (df_len example_bars - 1) = Num (-1)
          ∧ stop = cell d' "supertrend_upperband" (df_len example_bars - 1))).
Proof.
  apply (supertrend_stop_loss_is_band {[ 1%positive := example_bars ]} 1%positive
           example_bars 2 (Num 1) "atr" "short").
  - reflexivity.
  - apply df_wf_check. vm_compute. reflexivity.
  - unfold has_ohlc. repeat split; eexists; reflexivity.
  - discriminate.
  - vm_compute. lia.
Defined.

(** * Validation of generated signals *)

(** X25 ([_validate_signal] on the signals of [generate_signals]).  The
    strategies create their signals without a position size and with a
    confidence of at least 0.5.  So for a signal a loaded strategy generated,
    [_validate_signal] answers False when the risk manager does not allow a new
    position (the capital is then not asked for), and otherwise answers True
    exactly when the price of one share is not greater than the available
    capital: the estimated cost is [price * 1], and the confidence test never
    rejects. *)
Theorem validate_generated_signal {W : Type} (C : Collaborators W) (strategy : Strategy)
    (data bundle : gmap string DataFrame) (sigs : list Signal) (sig : Signal)
    (s : EngineState W) :
  generate_signals strategy data = Ok sigs → sig ∈ sigs →
  (∀ w1, can_open_position C (world s) = (Ok false, w1) →
     _validate_signal C sig bundle s
     = (Ok false, mkEngineState w1 (trace s ++ [EvCanOpenPosition]) (results s)))
  ∧ (∀ w1 available_capital w2,
       can_open_position C (world s) = (Ok true, w1) →
       get_available_capital C w1 = (Ok available_capital, w2) →
       _validate_signal C sig bundle s
       = (Ok (negb (price sig >? available_capital)%F),
          mkEngineState w2 (trace s ++ [EvCanOpenPosition; EvGetAvailableCapital])
            (results s))).
Proof.
  intros Hgen Hin.
  pose proof (generated_signal_has_no_size strategy data sigs sig Hgen Hin) as Hsize.
  pose proof (generated_signal_confidence strategy data sigs sig Hgen Hin) as Hconf.
  unfold _validate_signal, call, mbind, St_bind, mret, St_ret. split.
  - intros w1 Hopen. by rewrite Hopen.
  - intros w1 cap w2 Hopen Hcap. rewrite Hopen. cbn [negb world trace results].
    rewrite Hcap. cbn [world trace results]. rewrite Hsize, fgt_mul_one, Hconf.
    rewrite <- app_assoc. by destruct (price sig >? cap)%F.
Qed.

Lemma validate_generated_signal_witness :
  (∀ w1, can_open_position (example_collaborators true None) (world example_state)
         = (Ok false, w1) →
     _validate_signal (example_collaborators true None) macd_signal engine_bundle
       example_state
     = (Ok false, mkEngineState w1 (trace example_state ++ [EvCanOpenPosition])
                    (results example_state)))
  ∧ (∀ w1 available_capital w2,
       can_open_position (example_collaborators true None) (world example_state)
       = (Ok true, w1) →
       get_available_capital (example_collaborators true None) w1
       = (Ok available_capital, w2) →
       _validate_signal (example_collaborators true None) macd_signal engine_bundle
         example_state
       = (Ok (negb (price macd_signal >? available_capital)%F),
          mkEngineState w2
            (trace example_state ++ [EvCanOpenPosition; EvGetAvailableCapital])
            (results example_state))).
Proof.
  apply (validate_generated_signal (example_collaborators true None)
           (MacdRsi (MacdRsiStrategy.__init__ empty_config))
           {["primary" := macd_frame]} engine_bundle [macd_signal] macd_signal
           example_state).
  - vm_compute. reflexivity.
  - left.
Defined.
